(** * validator-tracker: the log fetcher, the event decoder and the
      aggregator/classifier, embedded from the JavaScript sources.

    Part I holds the definitions, one module per source class; Part II
    holds the lemmas and the theorems about them.

    Conventions.  A BigInt is a [Z].  A Number is a binary64 float
    ([spec_float] at precision 53, rounding to nearest even); block
    numbers and counters, which are integral Numbers far below 2^53 where
    Number arithmetic is exact, are [Z] or [nat].  A string is a [string]
    of 8-bit characters: the strings the sources handle are ASCII
    (hexadecimal words and decimal numerals), and a character outside
    ASCII is held as its UTF-8 bytes.  A [Map] is a [gmap], a [Set] a [gset]; an object
    whose key order is read ([Object.values]) is a list.  An asynchronous
    function is the function of its awaited results: the sources await
    every call in sequence.  A loop that may not end takes fuel and
    answers [None] when the fuel runs out. *)

From Stdlib Require Import ZArith NArith List String Ascii Bool Lia.
From Stdlib Require Import Decimal DecimalString DecimalN DecimalPos DecimalFacts.
From Stdlib Require HexadecimalString HexadecimalN HexadecimalPos HexadecimalFacts.
From Stdlib Require Import Floats.SpecFloat.
From Stdlib Require Import Sorting.Sorted Sorting.Permutation.
From stdpp Require Import gmap strings.

Open Scope Z_scope.

#[local] Arguments String.append !s1 s2 /.

(* ===================================================================== *)
(** * Part I. Definitions                                                 *)
(* ===================================================================== *)

(** ** The JavaScript built-ins the sources call *)

Module JS.

(** [String.prototype.toLowerCase] on 8-bit characters: the 26 ASCII
    capital letters move, every other character stays. *)
Definition lowerChar (c : ascii) : ascii :=
  let n := nat_of_ascii c in
  if (65 <=? n)%nat && (n <=? 90)%nat then ascii_of_nat (n + 32) else c.

Definition upperChar (c : ascii) : ascii :=
  let n := nat_of_ascii c in
  if (97 <=? n)%nat && (n <=? 122)%nat then ascii_of_nat (n - 32) else c.

Fixpoint mapString (f : ascii -> ascii) (s : string) : string :=
  match s with
  | EmptyString => EmptyString
  | String c r => String (f c) (mapString f r)
  end.

Definition toLowerCase : string -> string := mapString lowerChar.

(** The characters of the ASCII range, and the strings made of them. *)
Definition isAsciiChar (c : ascii) : bool := (nat_of_ascii c <? 128)%nat.

Fixpoint isAscii (s : string) : bool :=
  match s with
  | EmptyString => true
  | String c r => isAsciiChar c && isAscii r
  end.

(** [String.prototype.toUpperCase], on the strings whose case mapping is
    written out here.  Of the ASCII characters the 26 small letters move.
    A character outside ASCII is held as its UTF-8 bytes; the one that is
    mapped here is the ligature U+FB00 (bytes 239 172 128), which upper
    case expands to the two letters [FF].  [None]: the string holds
    another character, whose mapping is not written out. *)
Fixpoint toUpperCase (s : string) : option string :=
  match s with
  | EmptyString => Some EmptyString
  | String c r =>
      if isAsciiChar c then option_map (String (upperChar c)) (toUpperCase r)
      else
        match s with
        | String "239" (String "172" (String "128" r')) =>
            option_map (fun upper => String "F" (String "F" upper)) (toUpperCase r')
        | _ => None
        end
  end.

(** [s.slice(a)] and [s.slice(a, b)] for non-negative indices. *)
Definition sliceFrom (a : nat) (s : string) : string :=
  String.substring a (String.length s - a) s.

Definition slice (a b : nat) (s : string) : string :=
  String.substring a (b - a) s.

(** ['0'.repeat(n)] *)
Fixpoint zeros (n : nat) : string :=
  match n with
  | O => EmptyString
  | S k => String "0" (zeros k)
  end.

(** [s.padStart(n, '0')] and [s.padEnd(n, '0')]: no change when [s] is
    already [n] characters or longer. *)
Definition padStart0 (n : nat) (s : string) : string :=
  (zeros (n - String.length s) +:+ s)%string.

Definition padEnd0 (n : nat) (s : string) : string :=
  (s +:+ zeros (n - String.length s))%string.

Definition isEmpty (s : string) : bool :=
  match s with EmptyString => true | _ => false end.

(** [s.replace(/0+$/, '')]: the maximal run of ['0'] at the end goes. *)
Fixpoint trimEnd0 (s : string) : string :=
  match s with
  | EmptyString => EmptyString
  | String c r =>
      let r' := trimEnd0 r in
      if Ascii.eqb c "0" && isEmpty r' then EmptyString else String c r'
  end.

(** [s.replace(/^0+/, '')]: the maximal run of ['0'] at the start goes. *)
Fixpoint trimStart0 (s : string) : string :=
  match s with
  | String c r => if Ascii.eqb c "0" then trimStart0 r else s
  | EmptyString => EmptyString
  end.

(** [s.includes(needle)] *)
Fixpoint includes (needle s : string) : bool :=
  String.prefix needle s ||
  match s with
  | EmptyString => false
  | String _ r => includes needle r
  end.

(** Decimal digits: the value of a digit character, and of a digit string
    read left to right from an accumulator. *)
Definition digitValue (c : ascii) : option N :=
  let n := nat_of_ascii c in
  if (48 <=? n)%nat && (n <=? 57)%nat then Some (N.of_nat (n - 48)) else None.

Fixpoint readDecimal (acc : N) (s : string) : option N :=
  match s with
  | EmptyString => Some acc
  | String c r =>
      match digitValue c with
      | Some d => readDecimal (10 * acc + d)%N r
      | None => None
      end
  end.

(** Hexadecimal digits, either case. *)
Definition hexValue (c : ascii) : option N :=
  let n := nat_of_ascii c in
  if (48 <=? n)%nat && (n <=? 57)%nat then Some (N.of_nat (n - 48))
  else if (97 <=? n)%nat && (n <=? 102)%nat then Some (N.of_nat (n - 87))
  else if (65 <=? n)%nat && (n <=? 70)%nat then Some (N.of_nat (n - 55))
  else None.

(** Digits in radix 2 to 16. *)
Fixpoint readRadix (radix acc : N) (s : string) : option N :=
  match s with
  | EmptyString => Some acc
  | String c r =>
      match hexValue c with
      | Some d => if (d <? radix)%N then readRadix radix (radix * acc + d)%N r else None
      | None => None
      end
  end.

(** The longest prefix of radix-16 digits, and its value. *)
Fixpoint readHexPrefix (acc : N) (seen : bool) (s : string) : option N :=
  match s with
  | EmptyString => if seen then Some acc else None
  | String c r =>
      match hexValue c with
      | Some d => readHexPrefix (16 * acc + d)%N true r
      | None => if seen then Some acc else None
      end
  end.

(** White space, on the ASCII range: TAB, LF, VT, FF, CR, SP. *)
Definition isWhiteSpace (c : ascii) : bool :=
  let n := nat_of_ascii c in
  ((9 <=? n)%nat && (n <=? 13)%nat) || (n =? 32)%nat.

Fixpoint trimStartWS (s : string) : string :=
  match s with
  | String c r => if isWhiteSpace c then trimStartWS r else s
  | EmptyString => EmptyString
  end.

Fixpoint trimEndWS (s : string) : string :=
  match s with
  | EmptyString => EmptyString
  | String c r =>
      let r' := trimEndWS r in
      if isWhiteSpace c && isEmpty r' then EmptyString else String c r'
  end.

(** ** Numbers: IEEE 754 binary64, round to nearest even *)

Definition number : Type := spec_float.
Definition NaN : number := S754_nan.
Definition add : number -> number -> number := SFadd 53 1024.
Definition sub : number -> number -> number := SFsub 53 1024.
Definition div : number -> number -> number := SFdiv 53 1024.

(** The Number nearest to an integer: [Number(bigint)], and the value of
    an integer literal. *)
Definition numberOfZ (z : Z) : number := binary_normalize 53 1024 z 0 false.

(** [x > 0] and [x < y]; both are [false] when a side is [NaN]. *)
Definition isPositive (x : number) : bool := SFltb (S754_zero false) x.
Definition ltb (x y : number) : bool := SFltb x y.

(** [ToBoolean] of a Number: [NaN] and the zeros are falsy. *)
Definition truthy (x : number) : bool :=
  match x with
  | S754_nan | S754_zero _ => false
  | _ => true
  end.

(** [parseInt(string, 16)]; [undefined] reads as the string "undefined",
    which holds no digit.  Leading white space, a sign and a [0x] prefix
    are skipped, the longest run of hex digits is read, [NaN] when there
    is none. *)
Definition parseInt16 (arg : option string) : number :=
  match arg with
  | None => NaN
  | Some s =>
      let s := trimStartWS s in
      let '(negative, s) :=
        match s with
        | String "-" r => (true, r)
        | String "+" r => (false, r)
        | _ => (false, s)
        end in
      let s :=
        match s with
        | String "0" (String "x" r) => r
        | String "0" (String "X" r) => r
        | _ => s
        end in
      match readHexPrefix 0 false s with
      | Some v =>
          if negative then SFopp (numberOfZ (Z.of_N v)) else numberOfZ (Z.of_N v)
      | None => NaN
      end
  end.

(** [BigInt(string)]: white space around the literal is dropped; the
    empty string is [0n]; a literal is decimal digits with an optional
    sign, or [0x], [0o], [0b] followed by at least one digit of the radix.
    [None] is the [SyntaxError]. *)
Definition bigIntOfString (s : string) : option Z :=
  let s := trimEndWS (trimStartWS s) in
  let unsigned (radix : N) (digits : string) : option Z :=
    if isEmpty digits then None
    else option_map Z.of_N (readRadix radix 0 digits) in
  match s with
  | EmptyString => Some 0
  | String "0" (String "x" r) | String "0" (String "X" r) => unsigned 16%N r
  | String "0" (String "o" r) | String "0" (String "O" r) => unsigned 8%N r
  | String "0" (String "b" r) | String "0" (String "B" r) => unsigned 2%N r
  | String "-" r => option_map Z.opp (unsigned 10%N r)
  | String "+" r => unsigned 10%N r
  | _ => unsigned 10%N s
  end.

(** [array.sort(comparefn)] for a comparator that orders consistently:
    the sort is stable, so each element is put before the first element
    the comparator does not place it after. *)
Fixpoint insertSorted {A : Type} (comparefn : A -> A -> number) (x : A) (l : list A)
    : list A :=
  match l with
  | [] => [x]
  | y :: r =>
      if isPositive (comparefn x y) then y :: insertSorted comparefn x r
      else x :: y :: r
  end.

Definition sort {A : Type} (comparefn : A -> A -> number) (l : list A) : list A :=
  fold_right (insertSorted comparefn) [] l.

(** The comparators [(a, b) => a.key - b.key] and [(a, b) => b.key - a.key]. *)
Definition ascendingBy {A : Type} (key : A -> number) : A -> A -> number :=
  fun a b => sub (key a) (key b).

Definition descendingBy {A : Type} (key : A -> number) : A -> A -> number :=
  fun a b => sub (key b) (key a).

(** The Number nearest to the ratio [n / d] of two naturals ([d] not
    zero): the division core takes mantissas of any length and rounds
    once. *)
Definition numberOfRatio (n d : N) : number :=
  match n, d with
  | N0, _ => S754_zero false
  | _, N0 => S754_infinity false
  | Npos n, Npos d => SFdiv 53 1024 (S754_finite false n 0) (S754_finite false d 0)
  end.

(** The string cut at its first ['.']. *)
Fixpoint cutAtDot (s : string) : string * option string :=
  match s with
  | EmptyString => (EmptyString, None)
  | String c r =>
      if Ascii.eqb c "." then (EmptyString, Some r)
      else let '(a, b) := cutAtDot r in (String c a, b)
  end.

(** The longest prefix of decimal digits, and what follows it. *)
Fixpoint takeDigits (s : string) : string * string :=
  match s with
  | EmptyString => (EmptyString, EmptyString)
  | String c r =>
      match digitValue c with
      | Some _ => let '(digits, rest) := takeDigits r in (String c digits, rest)
      | None => (EmptyString, s)
      end
  end.

(** The value of a string of decimal digits, 0 for the empty string. *)
Definition digitsValue (digits : string) : N :=
  match readDecimal 0 digits with
  | Some v => v
  | None => 0%N
  end.

(** An exponent part, or nothing: [e] or [E], an optional sign, and at
    least one digit.  [None]: the string is neither. *)
Definition exponentPart (s : string) : option Z :=
  match s with
  | EmptyString => Some 0
  | String c r =>
      if Ascii.eqb c "e" || Ascii.eqb c "E" then
        let '(negative, r) :=
          match r with
          | String "-" r' => (true, r')
          | String "+" r' => (false, r')
          | _ => (false, r)
          end in
        if isEmpty r then None
        else match readDecimal 0 r with
             | Some e => Some (if negative then - Z.of_N e else Z.of_N e)
             | None => None
             end
      else None
  end.

(** An unsigned decimal literal other than [Infinity]: digits, then an
    optional ['.'] with optional digits, then an optional exponent part,
    with a digit before or after the point.  The value is [n x 10^k]. *)
Definition unsignedDecimal (s : string) : option (N * Z) :=
  let '(whole, afterWhole) := takeDigits s in
  let '(frac, afterFrac) :=
    match afterWhole with
    | String "." r => takeDigits r
    | _ => (EmptyString, afterWhole)
    end in
  if isEmpty whole && isEmpty frac then None
  else
    match exponentPart afterFrac with
    | Some e => Some (digitsValue (whole +:+ frac), e - Z.of_nat (String.length frac))
    | None => None
    end.

(** The Number nearest to [n x 10^k]. *)
Definition numberOfScaled (n : N) (k : Z) : number :=
  if 0 <=? k then numberOfRatio (n * 10 ^ Z.to_N k) 1
  else numberOfRatio n (10 ^ Z.to_N (- k)).

Definition unsignedNumber (s : string) : number :=
  if String.eqb s "Infinity" then S754_infinity false
  else match unsignedDecimal s with
       | Some (n, k) => numberOfScaled n k
       | None => NaN
       end.

(** The digits of a [0x], [0o] or [0b] literal. *)
Definition nonDecimal (radix : N) (digits : string) : number :=
  if isEmpty digits then NaN
  else match readRadix radix 0 digits with
       | Some v => numberOfRatio v 1
       | None => NaN
       end.

(** [Number(string)], on strings of ASCII characters.  White space
    around the literal is dropped; the empty string is [+0]; a literal is a decimal
        literal or [Infinity]
    with an optional sign, or [0x], [0o], [0b] followed by at least one
    digit of the radix; every other string is [NaN].  The value is the
    Number nearest to the value of the literal; a minus sign negates it,
    also when it is zero. *)
Definition numberOfString (s : string) : number :=
  let s := trimEndWS (trimStartWS s) in
  match s with
  | EmptyString => S754_zero false
  | String "0" (String "x" r) | String "0" (String "X" r) => nonDecimal 16 r
  | String "0" (String "o" r) | String "0" (String "O" r) => nonDecimal 8 r
  | String "0" (String "b" r) | String "0" (String "B" r) => nonDecimal 2 r
  | String "-" r => SFopp (unsignedNumber r)
  | String "+" r => unsignedNumber r
  | _ => unsignedNumber s
  end.

(** Equality of two Numbers as values of the representation. *)
Definition sameNumber (x y : number) : bool :=
  match x, y with
  | S754_zero a, S754_zero b => Bool.eqb a b
  | S754_infinity a, S754_infinity b => Bool.eqb a b
  | S754_nan, S754_nan => true
  | S754_finite a m e, S754_finite b n f => Bool.eqb a b && Pos.eqb m n && Z.eqb e f
  | _, _ => false
  end.

(** [n.toString()] of a non-negative BigInt or integral Number: the
    decimal numeral without leading zeros, ["0"] for zero. *)
Definition natToString (n : N) : string :=
  NilZero.string_of_uint (N.to_uint n).

(** [BigInt.prototype.toString()] *)
Definition bigIntToString (z : Z) : string :=
  match z with
  | Zneg p => String "-" (natToString (Npos p))
  | _ => natToString (Z.to_N z)
  end.

(** [Set.prototype.has] on a set of strings. *)
Definition has (s : gset string) (x : string) : bool := bool_decide (x ∈ s).

(** The value of a [uint] read from an accumulator, digit by digit. *)
Fixpoint uintValue (acc : N) (d : uint) : N :=
  match d with
  | Nil => acc
  | D0 l => uintValue (10 * acc) l
  | D1 l => uintValue (10 * acc + 1) l
  | D2 l => uintValue (10 * acc + 2) l
  | D3 l => uintValue (10 * acc + 3) l
  | D4 l => uintValue (10 * acc + 4) l
  | D5 l => uintValue (10 * acc + 5) l
  | D6 l => uintValue (10 * acc + 6) l
  | D7 l => uintValue (10 * acc + 7) l
  | D8 l => uintValue (10 * acc + 8) l
  | D9 l => uintValue (10 * acc + 9) l
  end%N.

(** ** What a run does besides computing: network requests and console
    lines, in order *)

Inductive Effect :=
  | NetworkCall (url : string)
  | ConsoleLog (message : string)
  | ConsoleWarn (message : string)
  | ConsoleError (message : string).

(** [process.env.NAME || fallback]: an unset or empty variable gives the
    fallback. *)
Definition envOr (value : option string) (fallback : string) : string :=
  match value with
  | Some v => if isEmpty v then fallback else v
  | None => fallback
  end.

Definition isNetworkCall (e : Effect) : bool :=
  match e with
  | NetworkCall _ => true
  | _ => false
  end.

(** [x < 0]; [false] when [x] is [NaN]. *)
Definition isNegative (x : number) : bool := SFltb x (S754_zero false).

(** [n.toString(16)] of a non-negative integer: lower-case hexadecimal
    digits without leading zeros, ["0"] for zero. *)
Definition toString16 (n : N) : string :=
  HexadecimalString.NilZero.string_of_uint (N.to_hex_uint n).


End JS.

(** ** EthereumDelegationTracker.js *)

Module EthereumDelegationTracker.
Import JS.

(** [formatUnits(value, decimals = 18)].  BigInt [/] and [%] truncate
    towards zero ([Z.quot], [Z.rem]); they are applied to [val >= 0]. *)
Definition formatUnits (value : Z) (decimals : Z) : string :=
  let negative := value <? 0 in
  let val := if negative then - value else value in
  let base := 10 ^ decimals in
  let integer := Z.quot val base in
  let fraction := Z.rem val base in
  let fracStr := padStart0 (Z.to_nat decimals) (bigIntToString fraction) in
  let fracStr := trimEnd0 fracStr in
  ((if negative then "-" else "") +:+ bigIntToString integer +:+
   (if isEmpty fracStr then "" else "." +:+ fracStr))%string.

(** Follows the spec's words, not a source function: the reading of a
    formatted amount back into base units, "integer part x 10^18 +
    fractional part", the fractional digits right-padded to 18.  The
    string is cut at its first ['.']. *)
Definition parseUnits18 (s : string) : option Z :=
  let '(ip, fp) := cutAtDot s in
  let fp := match fp with Some f => f | None => EmptyString end in
  if isEmpty ip then None
  else
    match readDecimal 0 ip, readDecimal 0 (padEnd0 18 fp) with
    | Some i, Some f =>
        if (String.length fp <=? 18)%nat
        then Some (Z.of_N i * 10 ^ 18 + Z.of_N f)
        else None
    | _, _ => None
    end.

(** A log object of an Etherscan [getLogs] answer; [timeStamp] may be
    missing, [topics] may hold fewer than three entries. *)
Record EtherscanLog := {
  timeStamp : option string;
  topics : list string;
  data : string;
  blockNumber : string;
  transactionHash : string
}.

(** The [processedEvent] object ([parsedTime], a [Date] made from
    [timestamp], is left out). *)
Record ProcessedEvent := {
  validatorId : number;
  user : string;
  amountWei : string;
  amountPol : string;
  eventBlockNumber : number;
  eventTransactionHash : string;
  timestamp : number;
  eventType : string;
  source : string
}.

(** What one round of the [for] loop of [processDelegationEvents] comes
    to: an event pushed, the [continue] of an event before the cutoff, or
    an error caught (and warned about) by the [catch] block. *)
Inductive Round :=
  | Pushed (e : ProcessedEvent)
  | TooOld
  | Caught (error : string).

(** The body of the [try] block.  [getBlockTimestamp] is the lookup by
    block number, which catches its own errors and always answers. *)
Definition processOne (getBlockTimestamp : string -> number)
    (cutoffTimestamp : number) (event : EtherscanLog) : Round :=
  let fromLog :=
    match timeStamp event with
    | Some _ => parseInt16 (timeStamp event)
    | None => NaN
    end in
  let blockTimestamp :=
    if truthy fromLog then fromLog else getBlockTimestamp (blockNumber event) in
  if ltb blockTimestamp cutoffTimestamp then TooOld
  else
    let validatorId := parseInt16 (nth_error (topics event) 1) in
    match nth_error (topics event) 2 with
    | None => Caught "TypeError"
    | Some topic2 =>
        let userAddress := ("0x" +:+ sliceFrom 26 topic2)%string in
        let amountHex := slice 0 66 (data event) in
        match bigIntOfString amountHex with
        | None => Caught "SyntaxError"
        | Some amountWei =>
            let amountPolStr := formatUnits amountWei 18 in
            Pushed {|
              validatorId := validatorId;
              user := toLowerCase userAddress;
              amountWei := bigIntToString amountWei;
              amountPol := amountPolStr;
              eventBlockNumber := parseInt16 (Some (blockNumber event));
              eventTransactionHash := transactionHash event;
              timestamp := blockTimestamp;
              eventType := "delegation";
              source := "ethereum" |}
        end
    end.

Definition pushed (r : Round) : list ProcessedEvent :=
  match r with
  | Pushed e => [e]
  | _ => []
  end.

(** [processDelegationEvents(events, cutoffTimestamp)]: the events pushed
    by the rounds, in order, then sorted by [timestamp]. *)
Definition processDelegationEvents (getBlockTimestamp : string -> number)
    (events : list EtherscanLog) (cutoffTimestamp : number) : list ProcessedEvent :=
  let processedEvents :=
    flat_map (fun event => pushed (processOne getBlockTimestamp cutoffTimestamp event))
      events in
  sort (ascendingBy timestamp) processedEvents.

(** The number of bytes the [data] field holds after its [0x] prefix. *)
Definition payloadBytes (data : string) : nat :=
  Nat.div (String.length data - 2) 2.

(** A ShareMinted log of validator 137 whose [data] holds one byte. *)
Definition shareMintedTopic : string :=
  "0xc9afff0972d33d68c8d330fe0ebd0e9f54491ad8c59ae17330a9206f280f0865".

Definition oneByteLog : EtherscanLog :=
  {| timeStamp := Some "0x6502b3c0"%string;
     topics := [ shareMintedTopic;
       "0x0000000000000000000000000000000000000000000000000000000000000089"%string;
       "0x000000000000000000000000CFFAD3200574698b78f32232aa9D63eABD290703"%string ];
     data := "0x2a";
     blockNumber := "0x112a880";
     transactionHash := "0xabc" |}.

(** The same log with no payload at all. *)
Definition emptyDataLog : EtherscanLog :=
  {| timeStamp := timeStamp oneByteLog;
     topics := topics oneByteLog;
     data := "0x";
     blockNumber := blockNumber oneByteLog;
     transactionHash := transactionHash oneByteLog |}.

(** [this.etherscanApiKey = process.env.ETHERSCAN_API_KEY || 'YourApiKeyToken'] *)
Definition etherscanApiKey (env : option string) : string :=
  envOr env "YourApiKeyToken".

(** [!this.etherscanApiKey || this.etherscanApiKey === 'YourApiKeyToken'] *)
Definition keyNotConfigured (key : string) : bool :=
  isEmpty key || String.eqb key "YourApiKeyToken".

(** [fetchDelegationEvents(validatorId, monthsBack)].  [continue] stands
    for everything after the guard, which runs with a configured key
    only: the Etherscan queries, [processDelegationEvents] and the
    [catch] that turns any error into [[]]. *)
Definition fetchDelegationEvents (env : option string)
    (continue : string -> list Effect * list ProcessedEvent)
    : list Effect * list ProcessedEvent :=
  let key := etherscanApiKey env in
  if keyNotConfigured key then
    ([ConsoleWarn
        "⚠️  Etherscan API key not configured. Cannot fetch Ethereum delegation data."],
     [])
  else continue key.

(** [padValidatorId(validatorId)] for a validator id that is a
    non-negative integer Number:
    ['0x' + Number(validatorId).toString(16).padStart(64, '0')]. *)
Definition padValidatorId (validatorId : N) : string :=
  ("0x" +:+ padStart0 64 (toString16 validatorId))%string.

(** [getDelegationSummary(validatorId, monthsBack)], from the events that
    [fetchDelegationEvents] returned: the loop that adds
    [BigInt(event.amountWei)] to [totalDelegatedWei], [None] when a
    conversion throws. *)
Definition totalDelegatedWei (events : list ProcessedEvent) : option Z :=
  fold_left
    (fun total event =>
       match total, bigIntOfString (amountWei event) with
       | Some t, Some a => Some (t + a)
       | _, _ => None
       end)
    events (Some 0).

Definition getDelegationSummary (events : list ProcessedEvent) : option string :=
  if (length events =? 0)%nat then Some "Total Delegated: 0 POL"%string
  else
    match totalDelegatedWei events with
    | Some total =>
        Some ("Total Delegated: " +:+ formatUnits total 18 +:+ " POL ("
              +:+ natToString (N.of_nat (length events)) +:+ " events)")%string
    | None => None
    end.

(** The amount an event carries, read back from its [amountWei]. *)
Definition weiOf (e : ProcessedEvent) : Z :=
  match bigIntOfString (amountWei e) with
  | Some a => a
  | None => 0
  end.

(** A ShareMinted log of validator 137 whose [data] holds the two words
    of the event, an amount of 5 x 10^18 and as many tokens. *)
Definition twoWordLog : EtherscanLog :=
  {| timeStamp := timeStamp oneByteLog;
     topics := topics oneByteLog;
     data :=
         "0x0000000000000000000000000000000000000000000000004563918244f400000000000000000000000000000000000000000000000000004563918244f40000";
     blockNumber := blockNumber oneByteLog;
     transactionHash := transactionHash oneByteLog |}.

End EthereumDelegationTracker.

(** ** DelegatorFilter.js *)

Module DelegatorFilter.
Import JS.

(** [this.knownExchangeAddresses = new Set([...])], entries in source
    order (two of them are listed twice there). *)
Definition knownExchangeList : list string := [
    "0x5e3346444010135322268a0ca24b70e5b1d0d52a";
    "0x6cc5f688a315f3dc28a7781717a9a798a59fda7b";
    "0x46340b20830761efd32832a74d7169b29feb9758";
    "0x28c6c06298d514db089934071355e5743bf21d60";
    "0x21a31ee1afc51d94c2efccaa2092ad1028285549";
    "0xdfd5293d8e347dfe59e90efd55b2956a1343963d";
    "0x56eddb7aa87536c09ccc2793473599fd21a8b17f";
    "0x9696f59e4d72e237be84ffd425dcad154bf96976";
    "0x4e9ce36e442e55ecd9025b9a6e0d88485d628a67";
    "0xbe0eb53f46cd790cd13851d5eff43d12404d33e8";
    "0xf977814e90da44bfa03b6295a0616a897441acec";
    "0x001866ae5b3de6caa5a51543fd9fb64f524f5478";
    "0x85b931a32a0725be14285b66f1a22178c672d69b";
    "0x708396f17127c42383e3b9014072679b2f60b82f";
    "0xe0f0cfde7ee664943906f17f7f14342e76a5cec7";
    "0x8f22f2063d253846b53609231ed80fa571bc0c8f";
    "0x28c6c06298d514db089934071355e5743bf21d60";
    "0x3f5ce5fbfe3e9af3971dd833d26ba9b5c936f0be";
    "0xd551234ae421e3bcba99a0da6d736074f22192ff";
    "0x564286362092d8e7936f0549571a803b203aaced";
    "0x0681d8db095565fe8a346fa0277bffde9c0edbbf";
    "0x4e68ccd3e89f51c3074ca5072bbac773960dfa36";
    "0x7ee9f7b851fb9c8c2f8bfd7b49cc74b68f48f3a6";
    "0x2b5634c42055806a59e9107ed44d43c426e58258";
    "0x689c56aef474df92d44a1b70850f808488f9769c";
    "0xa1d8d972560c2f8144af871db508f0b0b10a3fbf";
    "0x1692e170361cefd1eb7240ec13d048fd9af6d667";
    "0xd6216fc19db775df9774a6e33526131da7d19a2c";
    "0xcdd7c759e0b140f7e6508fc00da24733cb43ce2b";
    "0x1c4b70a3968436b9a0a9cf5205c787eb81bb558c";
    "0x503828976d22510aad0201ac7ec88293211d23da";
    "0x61edcdf5bb737adffe5043706e7332c5807a70af";
    "0xab5c66752a9e8167967685f1450532fb96d5d24f";
    "0x5861b8446a2f6e19a067874c133f04c578928727";
    "0x926fc576b7facf6ae2d08ee2d4734c134a99f584";
    "0x18916e1a2933cb349145a667390d3a915be5fad7";
    "0x6748f50f686bfbca6fe8ad62b22228b87f31ff2b";
    "0x90e9a4a7bf87b8b9ce5e0994db2a77e65ff6e780";
    "0xeee28d484628d41a82d01e21d12e2e78d69920da";
    "0xcafb10ee663f465f9d10588ac44ed20ed608c11e";
    "0x876eabf441b2ee5b5b0554fd502a8e0600950cfa";
    "0xdac17f958d2ee523a2206206994597c13d831ec7";
    "0x4fabb145d64652a948d72533023f6e7a623c7c53";
    "0x1151314c646ce4e0efd76d1af4760ae66a9fe30f";
    "0x7727e5113d1d161373623e5f49fd568b4f543a9e";
    "0xc61b9bb3a7a0767e3179713f3a5c7a9aedce193c";
    "0xa9d1e08c7793af67e9d92fe308d5697fb81d3e43";
    "0x77696bb39917c91a0c3908d577d5e322095425ca";
    "0x503828976d22510aad0201ac7ec88293211d23da";
    "0xddfabcdc4d8ffc6d5beaf154f18b778f892a0740";
    "0x3cd751e6b0078be393132286c442345e5dc49699";
    "0xb5d85cbf7cb3ee0d56b3bb207d5fc4b82f43f511";
    "0xeb2629a2734e272bcc07bda959863f316f4bd4cf";
    "0xd688aea8f7d450909ade10c47faa95707b0682d9";
    "0x02466e547bfdab679fc49e5041ff6af2765c91a1";
    "0x6b76f8b1e9e59913bfe758821887311ba1805cab";
    "0x8b4de256180cfec54c436a470af50f9ee2813dbb";
    "0xcffad3200574698b78f32232aa9d63eabd290703" ]%string.

Definition knownExchangeAddresses : gset string := list_to_set knownExchangeList.

(** [this.knownDefiAddresses = new Set([...])] *)
Definition knownDefiList : list string := [
    "0x8f3cf7ad23cd3cadbd9735aff958023239c6a063";
    "0x0d500b1d8e8ef31e21c99d1db9a6444d3adf1270";
    "0x7ceb23fd6f88a99bb5e7e5ed51d11ac5b1e2d0cd";
    "0x794a61358d6845594f94dc1db02a252b5b4814ad";
    "0x1a13f4ca1d028320a707d99520abfefca3998b7f";
    "0x8dff5e27ea6b7ac08ebfdf9eb090f32ee9a30fcf";
    "0xa3fa99a148fa48d14ed51d610c367c61876997f1";
    "0x5a6a4d54456819c5ba4bacc9a8f0bc37c9eb0ecc";
    "0x8e32fe11b35db68c10326c8b3e5c5b99f5b90e5c";
    "0x47bb542b9de58b970ba50c9dae444ddb4c16751a";
    "0x5757371414417b8c6caad45baef941abc7d3ab32";
    "0x8dff5e27ea6b7ac08ebfdf9eb090f32ee9a30fcf";
    "0xa5e0829caced8ffdd4de3c43696c57f7d7a678ff";
    "0x68b3465833fb72a70ecdf485e0e4c7bd8665fc45";
    "0xe592427a0aece92de3edee1f18e0157c05861564";
    "0x1f98431c8ad98523631ae4a59f267346ea31f984";
    "0x0169ec1f8f639b32eec6d923e24c2a2ff45b9dd6";
    "0x1b02da8cb0d097eb8d57a175b88c7d8b47997506";
    "0xc0788a3ad43d79aa53c09c2cc9db92b73d4c24a6";
    "0xdef1c0ded9bec7f1a1670819833240f027b25eff";
    "0x61935cbdd02287b511119ddb11aeb42f1593b7ef";
    "0x5f4ec3df9cbd43714fe2740f5e3616155c5b8419";
    "0xab594600376ec9fd91f8e885dadf0ce036862de0";
    "0x9aa7fec87ca69695dd1f879567ccf49eeb6c04e8";
    "0xba12222222228d8ba445958a75a0704d566bf2c8";
    "0x4e65fe4dba92790696d040ac24aa414708f5c0ab";
    "0x401f6c983ea34274ec46f84d70b31c151321188b";
    "0xa0c68c638235ee32657e8f720a23cec1bfc77c77";
    "0x8484ef722627bf18ca5ae6bcf031c23e6e922b30" ]%string.

Definition knownDefiAddresses : gset string := list_to_set knownDefiList.

#[global] Arguments knownExchangeAddresses : simpl never.
#[global] Arguments knownDefiAddresses : simpl never.

(** The values the [type] field takes anywhere in the class. *)
Inductive AddressType :=
  | exchange | defi | institutional | individual | unknown.

(** The classification object; [name] is read by the filter and set by no
    classifier, so it is always [undefined] there. *)
Record Classification := {
  isExchangeOrDefi : bool;
  type : AddressType;
  source : string;
  confidence : option string
}.

(** [isKnownExchangeOrDefi(address)] *)
Definition isKnownExchangeOrDefi (address : string) : bool :=
  let addressLower := toLowerCase address in
  has knownExchangeAddresses addressLower ||
  has knownDefiAddresses addressLower.

(** [classifyAddressBasic(address)]: the classification and the
    [addressClassificationCache] after the call. *)
Definition classifyAddressBasic (cache : gmap string Classification)
    (address : string) : Classification * gmap string Classification :=
  let addressLower := toLowerCase address in
  match cache !! addressLower with
  | Some cached => (cached, cache)
  | None =>
      if isKnownExchangeOrDefi address then
        let result := {|
          isExchangeOrDefi := true;
          type := if has knownExchangeAddresses addressLower
                  then exchange else defi;
          source := "local";
          confidence := Some "high"%string |} in
        (result, <[addressLower := result]> cache)
      else
        let defaultResult := {|
          isExchangeOrDefi := false;
          type := individual;
          source := "default";
          confidence := Some "low"%string |} in
        (defaultResult, <[addressLower := defaultResult]> cache)
  end.

(** What a call stores under the lower-cased key [k]: the [result] or the
    [defaultResult] object of [classifyAddressBasic]. *)
Definition storedFor (k : string) : Classification :=
  if has knownExchangeAddresses k || has knownDefiAddresses k then
    {| isExchangeOrDefi := true;
       type := if has knownExchangeAddresses k then exchange else defi;
       source := "local";
       confidence := Some "high"%string |}
  else
    {| isExchangeOrDefi := false;
       type := individual;
       source := "default";
       confidence := Some "low"%string |}.

(** The cache of a fresh [DelegatorFilter] is empty and only
    [classifyAddressBasic] writes to it: every key is lower-cased and
    holds what the call stored for it. *)
Definition cache_ok (cache : gmap string Classification) : Prop :=
  forall k r, cache !! k = Some r -> toLowerCase k = k /\ r = storedFor k.

(** [filterDelegatorAddresses(addresses, options)].  The options with
    their defaults; [progressCallback] stays [null], as in every caller. *)
Record FilterOptions := {
  excludeExchanges : bool;
  excludeDefi : bool;
  excludeInstitutional : bool;
  maxConcurrency : nat
}.

Definition defaultOptions : FilterOptions :=
  {| excludeExchanges := true; excludeDefi := true;
     excludeInstitutional := true; maxConcurrency := 5 |}.

(** An entry of [filteredOut.exchanges], [.defi] or [.institutional]. *)
Record FilteredEntry := {
  entryAddress : string;
  entryName : option string;
  entrySource : string
}.

(** The [results] object.  A statistics counter is a number or [NaN]
    ([None]); [results.statistics[key]++] on a missing key stores [NaN]. *)
Record FilterResults := {
  individualDelegators : list (string * Classification);
  filteredOutExchanges : list FilteredEntry;
  filteredOutDefi : list FilteredEntry;
  filteredOutInstitutional : list FilteredEntry;
  filteredOutUnknown : list (string * Classification);
  statistics : gmap string (option nat)
}.

Definition typeName (t : AddressType) : string :=
  match t with
  | exchange => "exchange"
  | defi => "defi"
  | institutional => "institutional"
  | individual => "individual"
  | unknown => "unknown"
  end.

Definition increment (key : string) (stats : gmap string (option nat))
    : gmap string (option nat) :=
  match stats !! key with
  | Some (Some n) => <[key := Some (S n)]> stats
  | _ => <[key := None]> stats
  end.

Definition initialResults (addresses : list string) : FilterResults :=
  {| individualDelegators := [];
     filteredOutExchanges := [];
     filteredOutDefi := [];
     filteredOutInstitutional := [];
     filteredOutUnknown := [];
     statistics :=
       <["total" := Some (length addresses)]>
       (<["individual" := Some 0%nat]>
       (<["exchanges" := Some 0%nat]>
       (<["defi" := Some 0%nat]>
       (<["institutional" := Some 0%nat]>
       (<["unknown" := Some 0%nat]> ∅))))) |}.

Definition filteredEntry (address : string) (c : Classification) : FilteredEntry :=
  {| entryAddress := address; entryName := None; entrySource := source c |}.

Definition isType (t u : AddressType) : bool :=
  match t, u with
  | exchange, exchange | defi, defi | institutional, institutional
  | individual, individual | unknown, unknown => true
  | _, _ => false
  end.

(** The body of [for (const {address, classification} of batchResults)]. *)
Definition recordResult (o : FilterOptions) (results : FilterResults)
    (ac : string * Classification) : FilterResults :=
  let '(address, classification) := ac in
  let stats := increment (typeName (type classification)) (statistics results) in
  let t := type classification in
  if isType t exchange && excludeExchanges o then
    {| individualDelegators := individualDelegators results;
       filteredOutExchanges :=
         filteredOutExchanges results ++ [filteredEntry address classification];
       filteredOutDefi := filteredOutDefi results;
       filteredOutInstitutional := filteredOutInstitutional results;
       filteredOutUnknown := filteredOutUnknown results;
       statistics := stats |}
  else if isType t defi && excludeDefi o then
    {| individualDelegators := individualDelegators results;
       filteredOutExchanges := filteredOutExchanges results;
       filteredOutDefi :=
         filteredOutDefi results ++ [filteredEntry address classification];
       filteredOutInstitutional := filteredOutInstitutional results;
       filteredOutUnknown := filteredOutUnknown results;
       statistics := stats |}
  else if isType t institutional && excludeInstitutional o then
    {| individualDelegators := individualDelegators results;
       filteredOutExchanges := filteredOutExchanges results;
       filteredOutDefi := filteredOutDefi results;
       filteredOutInstitutional :=
         filteredOutInstitutional results ++ [filteredEntry address classification];
       filteredOutUnknown := filteredOutUnknown results;
       statistics := stats |}
  else if isType t individual
          || (negb (excludeExchanges o) && isType t exchange)
          || (negb (excludeDefi o) && isType t defi)
          || (negb (excludeInstitutional o) && isType t institutional) then
    {| individualDelegators :=
         individualDelegators results ++ [(address, classification)];
       filteredOutExchanges := filteredOutExchanges results;
       filteredOutDefi := filteredOutDefi results;
       filteredOutInstitutional := filteredOutInstitutional results;
       filteredOutUnknown := filteredOutUnknown results;
       statistics := increment "individual" stats |}
  else
    {| individualDelegators := individualDelegators results;
       filteredOutExchanges := filteredOutExchanges results;
       filteredOutDefi := filteredOutDefi results;
       filteredOutInstitutional := filteredOutInstitutional results;
       filteredOutUnknown :=
         filteredOutUnknown results ++ [(address, classification)];
       statistics := stats |}.

(** [for (let i = 0; i < addresses.length; i += batchSize)
      batches.push(addresses.slice(i, i + batchSize))]; [None] when the
    fuel runs out with [i] still inside the array. *)
Fixpoint makeBatches (fuel batchSize i : nat) (addresses : list string)
    : option (list (list string)) :=
  if (i <? length addresses)%nat then
    match fuel with
    | O => None
    | S fuel' =>
        match makeBatches fuel' batchSize (i + batchSize) addresses with
        | Some rest => Some (firstn batchSize (skipn i addresses) :: rest)
        | None => None
        end
    end
  else Some [].

(** [batch.map(async address => ... await this.classifyAddressBasic(address))]:
    the classifier has no suspension point of its own, so the calls run in
    batch order, each on the cache the previous one left.  No call throws
    on a string, so the [catch] with its [unknown] classification is not
    reached. *)
Fixpoint classifyBatch (cache : gmap string Classification) (batch : list string)
    : list (string * Classification) * gmap string Classification :=
  match batch with
  | [] => ([], cache)
  | address :: rest =>
      let '(classification, cache1) := classifyAddressBasic cache address in
      let '(others, cache2) := classifyBatch cache1 rest in
      ((address, classification) :: others, cache2)
  end.

Fixpoint processBatches (o : FilterOptions) (cache : gmap string Classification)
    (results : FilterResults) (batches : list (list string))
    : FilterResults * gmap string Classification :=
  match batches with
  | [] => (results, cache)
  | batch :: rest =>
      let '(batchResults, cache1) := classifyBatch cache batch in
      processBatches o cache1 (fold_left (recordResult o) batchResults results) rest
  end.

(** With a positive batch size the batching loop ends within
    [addresses.length] rounds; with batch size 0 and a non-empty array it
    never ends, which is the [None] here. *)
Definition filterDelegatorAddresses (cache : gmap string Classification)
    (addresses : list string) (o : FilterOptions)
    : option (FilterResults * gmap string Classification) :=
  let batchSize := Nat.min (maxConcurrency o) 10 in
  match makeBatches (length addresses) batchSize 0 addresses with
  | Some batches => Some (processBatches o cache (initialResults addresses) batches)
  | None => None
  end.

(** What [classifyAddressBasic] answers for an address on the cache of a
    run, paired with the address: an entry of [batchResults]. *)
Definition classified (address : string) : string * Classification :=
  (address, storedFor (toLowerCase address)).

(** Whether [filterDelegatorAddresses] lists an address of the type among
    the individual delegators: the type is [individual], or it is a type
    whose exclusion is switched off. *)
Definition keeps (o : FilterOptions) (t : AddressType) : bool :=
  match t with
  | exchange => negb (excludeExchanges o)
  | defi => negb (excludeDefi o)
  | institutional => negb (excludeInstitutional o)
  | individual => true
  | unknown => false
  end.

(** [classifyFromBasicData(data)].  [data.name_tag] and
    [data.main_entity] are strings or missing ([None]); [x || ''] reads a
    missing or empty field as the empty string. *)
Record BasicData := {
  name_tag : option string;
  main_entity : option string
}.

Record BasicClassification := {
  basicIsExchangeOrDefi : bool;
  basicType : AddressType
}.

Definition orEmpty (field : option string) : string :=
  match field with
  | Some s => s
  | None => EmptyString
  end.

Definition exchangeKeywords : list string :=
  [ "exchange"; "deposit"; "withdraw"; "binance"; "coinbase"; "okx";
    "kraken"; "huobi"; "gate.io"; "kucoin"; "bitfinex"; "gemini";
    "crypto.com"; "bybit"; "ftx"; "cex.io"; "bitstamp" ]%string.

Definition defiKeywords : list string :=
  [ "defi"; "uniswap"; "aave"; "compound"; "curve"; "sushiswap";
    "balancer"; "yearn"; "makerdao"; "synthetix"; "chainlink";
    "quickswap"; "polygon bridge"; "protocol"; "vault"; "pool";
    "lending"; "staking"; "farming"; "liquidity" ]%string.

Definition institutionalKeywords : list string :=
  [ "fund"; "treasury"; "institution"; "custody"; "foundation" ]%string.

(** [keywords.some(keyword => nameTag.includes(keyword) ||
    mainEntity.includes(keyword))] *)
Definition someKeyword (keywords : list string) (nameTag mainEntity : string) : bool :=
  existsb (fun keyword => includes keyword nameTag || includes keyword mainEntity)
    keywords.

Definition classifyFromBasicData (data : BasicData) : BasicClassification :=
  let nameTag := toLowerCase (orEmpty (name_tag data)) in
  let mainEntity := toLowerCase (orEmpty (main_entity data)) in
  let isExchange := someKeyword exchangeKeywords nameTag mainEntity in
  if isExchange then {| basicIsExchangeOrDefi := true; basicType := exchange |}
  else
    let isDefi := someKeyword defiKeywords nameTag mainEntity in
    if isDefi then {| basicIsExchangeOrDefi := true; basicType := defi |}
    else
      let isInstitutional := someKeyword institutionalKeywords nameTag mainEntity in
      if isInstitutional
      then {| basicIsExchangeOrDefi := true; basicType := institutional |}
      else {| basicIsExchangeOrDefi := false; basicType := individual |}.

(** The counters of [results.statistics] that one round of the loop
    over [batchResults] increments for an address of type [t], in
    order: the counter named by the type, then ["individual"] when the
    address is listed among the individual delegators. *)
Definition countedKeys (o : FilterOptions) (t : AddressType) : list string :=
  typeName t :: (if keeps o t then ["individual"%string] else []).

(** How often [key] occurs in [keys]. *)
Definition countKey (key : string) (keys : list string) : nat :=
  length (List.filter (String.eqb key) keys).

End DelegatorFilter.

(** ** class DirectRPCDelegatorFetcher (top delegators over public RPC) *)

Module DirectRPCDelegatorFetcher.
Import JS.

Definition PUBLIC_RPC_ENDPOINTS : list string := [
  "https://eth.llamarpc.com";
  "https://rpc.ankr.com/eth";
  "https://ethereum.publicnode.com";
  "https://eth.drpc.org";
  "https://1rpc.io/eth" ]%string.

(** A raw log object of an [eth_getLogs] answer. *)
Record RawLog := {
  topics : list string;
  data : string;
  blockNumber : string;
  transactionHash : string
}.

(** What one HTTP POST of [eth_getLogs] comes to: [response.data.result],
    or an error with its message (a JSON-RPC error or a transport error). *)
Inductive Response :=
  | Result (logs : list RawLog)
  | Failure (message : string).

(** The provider side: the answer to the [n]-th POST of the run, sent to
    [endpoint], asking for the blocks [fromBlock .. toBlock]. *)
Definition Provider := nat -> string -> Z -> Z -> Response.

(** The fetcher object ([this.rpcEndpoint]) together with what the run has
    sent so far: the number of POSTs, and the ranges [fetchLogs] asked
    [rpcCall] for, in order. *)
Record Fetcher := {
  rpcEndpoint : string;
  posts : nat;
  queries : list (Z * Z)
}.

Definition newFetcher : Fetcher :=
  {| rpcEndpoint := nth 0 PUBLIC_RPC_ENDPOINTS ""%string;
     posts := 0; queries := [] |}.

(** [rpcCall(method, params, retryCount = 0)] for [eth_getLogs]: on any
    error the next endpoint of the list is tried, until [retryCount]
    reaches the last index; then the error is thrown.  [fuel] counts the
    retries left and is never the reason to stop. *)
Fixpoint rpcCall (provider : Provider) (fuel retryCount : nat) (this : Fetcher)
    (fromBlock toBlock : Z) : Fetcher * Response :=
  let sent := {| rpcEndpoint := rpcEndpoint this;
                 posts := S (posts this);
                 queries := queries this |} in
  match provider (posts this) (rpcEndpoint this) fromBlock toBlock with
  | Result logs => (sent, Result logs)
  | Failure message =>
      if (retryCount <? length PUBLIC_RPC_ENDPOINTS - 1)%nat then
        match fuel with
        | S fuel' =>
            rpcCall provider fuel' (retryCount + 1)
              {| rpcEndpoint := nth (retryCount + 1) PUBLIC_RPC_ENDPOINTS ""%string;
                 posts := posts sent;
                 queries := queries sent |}
              fromBlock toBlock
        | O => (sent, Failure message)
        end
      else (sent, Failure message)
  end.

(** What a call comes to: a value, or a thrown error. *)
Inductive Outcome (A : Type) :=
  | Returned (value : A)
  | Thrown (message : string).
Arguments Returned {A} value.
Arguments Thrown {A} message.

(** The test of the [catch] block of [fetchLogs]. *)
Definition isTooLarge (message : string) : bool :=
  includes "query returned more than" message || includes "exceed maximum" message.

(** [fetchLogs(fromBlock, toBlock, batchSize = 5000)], as the state of its
    [while] loop: [currentFrom] and [allLogs].  A recursive call of
    [fetchLogs] is the loop started again on the half range, with an empty
    [allLogs].  [None]: the fuel ran out before the call came to an end. *)
Fixpoint fetchLoop (provider : Provider) (fuel : nat) (this : Fetcher)
    (currentFrom toBlock batchSize : Z) (allLogs : list RawLog)
    : option (Fetcher * Outcome (list RawLog)) :=
  match fuel with
  | O => None
  | S fuel' =>
      if currentFrom <=? toBlock then
        let currentTo := Z.min (currentFrom + batchSize - 1) toBlock in
        let asked := {| rpcEndpoint := rpcEndpoint this;
                        posts := posts this;
                        queries := queries this ++ [(currentFrom, currentTo)] |} in
        match rpcCall provider (length PUBLIC_RPC_ENDPOINTS) 0 asked
                currentFrom currentTo with
        | (this1, Result logs) =>
            fetchLoop provider fuel' this1 (currentTo + 1) toBlock batchSize
              (allLogs ++ logs)
        | (this1, Failure message) =>
            if isTooLarge message then
              let halfBatch := (currentTo - currentFrom + 1) / 2 in
              match fetchLoop provider fuel' this1
                      currentFrom (currentFrom + halfBatch - 1) halfBatch [] with
              | Some (this2, Returned firstHalf) =>
                  match fetchLoop provider fuel' this2
                          (currentFrom + halfBatch) currentTo halfBatch [] with
                  | Some (this3, Returned secondHalf) =>
                      fetchLoop provider fuel' this3 (currentTo + 1) toBlock batchSize
                        (allLogs ++ firstHalf ++ secondHalf)
                  | Some (this3, Thrown e) => Some (this3, Thrown e)
                  | None => None
                  end
              | Some (this2, Thrown e) => Some (this2, Thrown e)
              | None => None
              end
            else Some (this1, Thrown message)
        end
      else Some (this, Returned allLogs)
  end.

Definition fetchLogs (provider : Provider) (fuel : nat) (this : Fetcher)
    (fromBlock toBlock batchSize : Z) : option (Fetcher * Outcome (list RawLog)) :=
  fetchLoop provider fuel this fromBlock toBlock batchSize [].

(** The chain side: the matching logs of each block; a single unbounded
    query over [fromBlock .. toBlock] answers with the logs of the blocks
    in ascending order. *)
Definition blocksOf (fromBlock toBlock : Z) : list Z :=
  map (fun i => fromBlock + Z.of_nat i) (seq 0 (Z.to_nat (toBlock - fromBlock + 1))).

Definition logsIn (chain : Z -> list RawLog) (fromBlock toBlock : Z) : list RawLog :=
  flat_map chain (blocksOf fromBlock toBlock).

(** A provider that serves [chain]: whenever it answers with logs, they
    are the logs of the range it was asked for. *)
Definition serves (chain : Z -> list RawLog) (provider : Provider) : Prop :=
  forall n endpoint a b logs,
    provider n endpoint a b = Result logs -> logs = logsIn chain a b.

(** A provider whose only failures are "too large" failures. *)
Definition onlyTooLarge (provider : Provider) : Prop :=
  forall n endpoint a b message,
    provider n endpoint a b = Failure message -> isTooLarge message = true.

(** A provider that rejects no query for a single block (or fewer). *)
Definition rejectsOnlySplittable (provider : Provider) : Prop :=
  forall n endpoint a b message,
    provider n endpoint a b = Failure message -> a < b.

(** [parseShareMintedEvent(log)]: the event, or the error it throws. *)
Record ShareMinted := {
  validatorId : number;
  userAddress : string;
  amount : number;
  eventBlockNumber : number;
  eventTransactionHash : string
}.

Definition parseShareMintedEvent (log : RawLog) : Outcome ShareMinted :=
  let validatorId := parseInt16 (nth_error (topics log) 1) in
  match nth_error (topics log) 2 with
  | None => Thrown "TypeError"
  | Some topic2 =>
      let userAddress := ("0x" +:+ toLowerCase (sliceFrom 26 topic2))%string in
      let dataWithoutPrefix := sliceFrom 2 (data log) in
      let amountHex := ("0x" +:+ slice 0 64 dataWithoutPrefix)%string in
      match bigIntOfString amountHex with
      | None => Thrown "SyntaxError"
      | Some amount =>
          let amountPol := div (numberOfZ amount) (numberOfZ (10 ^ 18)) in
          Returned {|
            validatorId := validatorId;
            userAddress := userAddress;
            amount := amountPol;
            eventBlockNumber := parseInt16 (Some (blockNumber log));
            eventTransactionHash := transactionHash log |}
      end
  end.

(** The parsing loop of [main]: [logs.forEach(log => { try { ...
    delegations.push(...) } catch (err) { } })]; the validator name looked
    up for the pushed entry is left out. *)
Definition parsed (log : RawLog) : list ShareMinted :=
  match parseShareMintedEvent log with
  | Returned event => [event]
  | Thrown _ => []
  end.

Definition parseLogs (logs : list RawLog) : list ShareMinted :=
  flat_map parsed logs.

Definition oneByteLog : RawLog :=
  {| topics := EthereumDelegationTracker.topics EthereumDelegationTracker.oneByteLog;
     data := "0x2a";
     blockNumber := "0x112a880";
     transactionHash := "0xabc" |}.

Definition emptyDataLog : RawLog :=
  {| topics := topics oneByteLog;
     data := "0x";
     blockNumber := blockNumber oneByteLog;
     transactionHash := transactionHash oneByteLog |}.

(** Two providers to run the fetcher against.  [limited] serves [chain1]
    and rejects every query for more than two blocks; [stubborn] serves an
    empty chain and rejects every query for block 100 alone. *)
Definition tooManyResults : string := "query returned more than 10000 results".

Definition logAt (b : Z) : RawLog :=
  {| topics := []; data := "0x"; blockNumber := bigIntToString b;
     transactionHash := "0x" |}.

Definition chain1 (b : Z) : list RawLog :=
  if (b =? 3) || (b =? 4) || (b =? 8) then [logAt b] else [].

Definition limited : Provider :=
  fun _ _ a b =>
    if 2 <? b - a + 1 then Failure tooManyResults else Result (logsIn chain1 a b).

Definition stubborn : Provider :=
  fun _ _ a b =>
    if (a =? 100) && (b =? 100) then Failure tooManyResults else Result [].

(** A provider that answers every query, with the logs of [chain1]. *)
Definition generous : Provider := fun _ _ a b => Result (logsIn chain1 a b).

(** [getBlockFromTimestamp(targetTimestamp)], from what the two RPC calls
    answered: the number of the current block and its timestamp. *)
Definition getBlockFromTimestamp (currentBlock currentTimestamp targetTimestamp : Z)
    : Z :=
  if targetTimestamp >=? currentTimestamp then currentBlock
  else
    let timeDiff := currentTimestamp - targetTimestamp in
    let estimatedBlockDiff := timeDiff / 12 in
    let estimatedBlock := Z.max 1 (currentBlock - estimatedBlockDiff) in
    estimatedBlock.

(** The ranges a scan of [fromBlock .. toBlock] in steps of [batchSize]
    is made of: the [k]-th starts [k] batches after [fromBlock] and ends
    one block before the next, or at [toBlock]. *)
Definition batchRanges (fromBlock toBlock batchSize : Z) : list (Z * Z) :=
  map (fun k => (fromBlock + Z.of_nat k * batchSize,
                 Z.min (fromBlock + (Z.of_nat k + 1) * batchSize - 1) toBlock))
    (seq 0 (Z.to_nat ((toBlock - fromBlock + batchSize) / batchSize))).



Definition twoWordLog : RawLog :=
  {| topics := EthereumDelegationTracker.topics EthereumDelegationTracker.twoWordLog;
     data := EthereumDelegationTracker.data EthereumDelegationTracker.twoWordLog;
     blockNumber := "0x112a880";
     transactionHash := "0xabc" |}.

End DirectRPCDelegatorFetcher.

(** ** class ValidatorTracker *)

Module ValidatorTracker.
Import JS.

(** [/^0x[0-9a-f]+$/i.test(weiLike)] *)
Definition isHexLiteral (s : string) : option N :=
  match s with
  | String "0" (String "x" r) | String "0" (String "X" r) =>
      if isEmpty r then None else readRadix 16 0 r
  | _ => None
  end.

(** [fromWeiToPolNumberStatic(weiLike)] on a string. *)
Definition fromWeiToPolNumberStatic (weiLike : string) : number :=
  let weiLike :=
    match isHexLiteral weiLike with
    | Some v => natToString v
    | None => weiLike
    end in
  let stripped := trimStart0 weiLike in
  let s := if isEmpty stripped then "0"%string else stripped in
  let len := String.length s in
  if (len <=? 18)%nat then
    numberOfString ("0." +:+ zeros (18 - len) +:+ s)
  else
    let whole := slice 0 (len - 18) s in
    let frac := trimEnd0 (sliceFrom (len - 18) s) in
    numberOfString (if isEmpty frac then whole else whole +:+ "." +:+ frac).

(** An entry of [allDelegations] or [allUnbonds]: the fields the
    aggregation reads.  Validator ids are the small non-negative integers
    of the staking API. *)
Record StakeEvent := {
  validatorId : N;
  validatorName : string;
  address : string;
  amount : number
}.

(** An entry of [addressStakes[key].validators], then of
    [validatorDetails]. *)
Record ValidatorStake := {
  stakeValidatorId : N;
  stakeValidatorName : string;
  delegated : number;
  unbonded : number;
  validatorNetStake : number
}.

(** An entry of [addressStakes].  [validators] is an object keyed by
    validator id, and an object lists integer keys in ascending order:
    the list is kept sorted by id.  After the last pass [validators] is
    deleted (empty here) and [validatorDetails] is set. *)
Record AddressStake := {
  stakeAddress : string;
  totalDelegated : number;
  totalUnbonded : number;
  netStake : number;
  validators : list ValidatorStake;
  validatorDetails : list ValidatorStake
}.

Definition zero : number := S754_zero false.

Definition newValidatorStake (event : StakeEvent) : ValidatorStake :=
  {| stakeValidatorId := validatorId event;
     stakeValidatorName := validatorName event;
     delegated := zero; unbonded := zero; validatorNetStake := zero |}.

(** [if (!validators[id]) validators[id] = {...}; f(validators[id])] *)
Fixpoint updateValidator (f : ValidatorStake -> ValidatorStake)
    (event : StakeEvent) (vs : list ValidatorStake) : list ValidatorStake :=
  match vs with
  | [] => [f (newValidatorStake event)]
  | v :: rest =>
      if (validatorId event =? stakeValidatorId v)%N then f v :: rest
      else if (validatorId event <? stakeValidatorId v)%N
           then f (newValidatorStake event) :: v :: rest
           else v :: updateValidator f event rest
  end.

Definition newAddressStake (key : string) : AddressStake :=
  {| stakeAddress := key;
     totalDelegated := zero; totalUnbonded := zero; netStake := zero;
     validators := []; validatorDetails := [] |}.

(** [if (!addressStakes[key]) addressStakes[key] = {...};
     f(addressStakes[key])].  The keys are addresses, ["0x..."], which
    an object lists in the order they were first inserted. *)
Fixpoint updateAddress (f : AddressStake -> AddressStake) (key : string)
    (addressStakes : list AddressStake) : list AddressStake :=
  match addressStakes with
  | [] => [f (newAddressStake key)]
  | stake :: rest =>
      if String.eqb key (stakeAddress stake) then f stake :: rest
      else stake :: updateAddress f key rest
  end.

(** The keys of [addressStakes] after [key] went through
    [updateAddress]: a key that is there keeps its place, a new one
    goes last. *)
Definition addKey (keys : list string) (key : string) : list string :=
  if existsb (String.eqb key) keys then keys else keys ++ [key].

(** The strings of a list in the order of their first appearance: the
    head, then what first appears after it. *)
Fixpoint firstSeen (keys : list string) : list string :=
  match keys with
  | [] => []
  | key :: rest =>
      key :: List.filter (fun k => negb (String.eqb k key)) (firstSeen rest)
  end.

(** The body of [allDelegations.forEach]. *)
Definition addDelegation (addressStakes : list AddressStake) (event : StakeEvent)
    : list AddressStake :=
  updateAddress
    (fun stake =>
       {| stakeAddress := stakeAddress stake;
          totalDelegated := add (totalDelegated stake) (amount event);
          totalUnbonded := totalUnbonded stake;
          netStake := netStake stake;
          validators :=
            updateValidator
              (fun v =>
                 {| stakeValidatorId := stakeValidatorId v;
                    stakeValidatorName := stakeValidatorName v;
                    delegated := add (delegated v) (amount event);
                    unbonded := unbonded v;
                    validatorNetStake := validatorNetStake v |})
              event (validators stake);
          validatorDetails := validatorDetails stake |})
    (address event) addressStakes.

(** The body of [allUnbonds.forEach]. *)
Definition addUnbond (addressStakes : list AddressStake) (event : StakeEvent)
    : list AddressStake :=
  updateAddress
    (fun stake =>
       {| stakeAddress := stakeAddress stake;
          totalDelegated := totalDelegated stake;
          totalUnbonded := add (totalUnbonded stake) (amount event);
          netStake := netStake stake;
          validators :=
            updateValidator
              (fun v =>
                 {| stakeValidatorId := stakeValidatorId v;
                    stakeValidatorName := stakeValidatorName v;
                    delegated := delegated v;
                    unbonded := add (unbonded v) (amount event);
                    validatorNetStake := validatorNetStake v |})
              event (validators stake);
          validatorDetails := validatorDetails stake |})
    (address event) addressStakes.

(** The body of [Object.values(addressStakes).forEach]: the net stakes. *)
Definition withNetStake (v : ValidatorStake) : ValidatorStake :=
  {| stakeValidatorId := stakeValidatorId v;
     stakeValidatorName := stakeValidatorName v;
     delegated := delegated v;
     unbonded := unbonded v;
     validatorNetStake := sub (delegated v) (unbonded v) |}.

Definition finish (stake : AddressStake) : AddressStake :=
  {| stakeAddress := stakeAddress stake;
     totalDelegated := totalDelegated stake;
     totalUnbonded := totalUnbonded stake;
     netStake := sub (totalDelegated stake) (totalUnbonded stake);
     validators := [];
     validatorDetails :=
       sort (descendingBy validatorNetStake)
         (List.filter (fun v => isPositive (validatorNetStake v))
            (map withNetStake (validators stake))) |}.

(** [Object.values(addressStakes)] once the three passes are done. *)
Definition aggregate (allDelegations allUnbonds : list StakeEvent)
    : list AddressStake :=
  map finish
    (fold_left addUnbond allUnbonds (fold_left addDelegation allDelegations [])).

(** [topDelegators]: the positive net stakes, sorted, cut at [limit],
    ranked from 1. *)
Record Ranked := {
  rank : nat;
  ranked : AddressStake
}.

Definition ranking (stakes : list AddressStake) : list AddressStake :=
  sort (descendingBy netStake)
    (List.filter (fun stake => isPositive (netStake stake)) stakes).

Fixpoint withRanks (index : nat) (stakes : list AddressStake) : list Ranked :=
  match stakes with
  | [] => []
  | stake :: rest =>
      {| rank := index + 1; ranked := stake |} :: withRanks (S index) rest
  end.

Definition topDelegators (allDelegations allUnbonds : list StakeEvent)
    (limit : nat) : list Ranked :=
  withRanks 0 (firstn limit (ranking (aggregate allDelegations allUnbonds))).

(** The sum the passes build for one address: the amounts of its events,
    added to 0 one by one in event order. *)
Definition sumFor (key : string) (events : list StakeEvent) : number :=
  fold_left (fun acc event =>
               if String.eqb (address event) key then add acc (amount event) else acc)
    events zero.

(** What holds of [addressStakes] once the events [delegations] and
    [unbonds] have been through the two [forEach] passes: one entry per
    address seen, holding the two sums. *)
Definition passed (delegations unbonds : list StakeEvent)
    (addressStakes : list AddressStake) : Prop :=
  List.NoDup (map stakeAddress addressStakes)
  /\ (forall event, In event (delegations ++ unbonds) ->
        In (address event) (map stakeAddress addressStakes))
  /\ (forall stake, In stake addressStakes ->
        totalDelegated stake = sumFor (stakeAddress stake) delegations
        /\ totalUnbonded stake = sumFor (stakeAddress stake) unbonds).

(** Events to run the aggregation on: an amount in base units goes
    through [fromWeiToPolNumberStatic] as the decoder sends it. *)
Definition eventOf (key : string) (wei : N) : StakeEvent :=
  {| validatorId := 137; validatorName := "Validator 137"; address := key;
     amount := fromWeiToPolNumberStatic (natToString wei) |}.

Definition addressA : string := "0xaaaaaaaaaaaaaaaaaaaaaaaaaaaaaaaaaaaaaaaa".
Definition addressB : string := "0xbbbbbbbbbbbbbbbbbbbbbbbbbbbbbbbbbbbbbbbb".

(** An entry of the staking API's validator list. *)
Record Validator := {
  id : N;
  name : option string
}.

(** The answer to [GET /validators]: [response.data.result || []], or
    the error the request throws. *)
Inductive ValidatorsResponse :=
  | Validators (result : list Validator)
  | RequestError (message : string).

Definition allValidatorsUrl : string :=
  "https://staking-api.polygon.technology/api/v2/validators".

(** [static async fetchAllValidators()] *)
Definition fetchAllValidators (stakingApi : ValidatorsResponse)
    : list Effect * list Validator :=
  match stakingApi with
  | Validators validators =>
      ([ConsoleLog "Fetching all validators...";
        NetworkCall allValidatorsUrl;
        ConsoleLog ("Found " +:+ natToString (N.of_nat (length validators))
                    +:+ " validators")],
       validators)
  | RequestError message =>
      ([ConsoleLog "Fetching all validators...";
        NetworkCall allValidatorsUrl;
        ConsoleError ("❌ Error fetching validators: " +:+ message)],
       [])
  end.

(** [static async fetchRecentDelegations(hours, limit)], up to the API
    key guard.  [timeRange] is the clock-dependent "Time range" line;
    [continue] stands for everything after the guard (the Etherscan
    queries and the decoding, inside the function's [try]), which runs
    with a configured key only. *)
Definition fetchRecentDelegations {Delegation : Type}
    (env : option string) (stakingApi : ValidatorsResponse)
    (hours : N) (timeRange : string)
    (continue : string -> list Validator -> list Effect * list Delegation)
    : list Effect * list Delegation :=
  let start :=
    [ConsoleLog (String (ascii_of_nat 10)
                   ("Fetching new delegations in the last " +:+ natToString hours
                    +:+ " hours..."));
     ConsoleLog timeRange;
     ConsoleLog ("⏳ Querying Ethereum for ShareMinted events..."
                 +:+ String (ascii_of_nat 10) "")] in
  let '(fetching, validators) := fetchAllValidators stakingApi in
  if (length validators =? 0)%nat then (start ++ fetching, [])
  else
    let key := EthereumDelegationTracker.etherscanApiKey env in
    if EthereumDelegationTracker.keyNotConfigured key then
      (start ++ fetching ++
       [ConsoleError
          "❌ ETHERSCAN_API_KEY not configured. This is required to fetch delegation data.";
        ConsoleError
          "Please set ETHERSCAN_API_KEY in your .env file or environment variables."],
       [])
    else
      let '(rest, delegations) := continue key validators in
      (start ++ fetching ++ rest, delegations).

(** The body of the [try] block of [events.forEach] in
    [fetchAllDelegatorsAcrossValidators]: the fields the aggregation
    reads ([validatorName], looked up by [validatorId], and the date are
    left out); [None] when the block throws and the event is skipped.
    The loop of [fetchRecentDelegations] decodes the same fields. *)
Record Delegation := {
  delegationValidatorId : number;
  delegationAddress : string;
  delegationAmount : number
}.

Definition decodeDelegation (event : EthereumDelegationTracker.EtherscanLog)
    : option Delegation :=
  let validatorId := parseInt16 (nth_error (EthereumDelegationTracker.topics event) 1) in
  match nth_error (EthereumDelegationTracker.topics event) 2 with
  | None => None
  | Some topic2 =>
      let user := ("0x" +:+ sliceFrom 26 topic2)%string in
      match bigIntOfString (EthereumDelegationTracker.data event) with
      | None => None
      | Some amount =>
          let amountPol := fromWeiToPolNumberStatic (bigIntToString amount) in
          Some {| delegationValidatorId := validatorId;
                  delegationAddress := toLowerCase user;
                  delegationAmount := amountPol |}
      end
  end.

(** An event whose amount is not a number. *)
Definition nanEvent (key : string) : StakeEvent :=
  {| validatorId := 137; validatorName := "Validator 137"; address := key;
     amount := NaN |}.

End ValidatorTracker.

(* ===================================================================== *)
(** * Part II. Lemmas and theorems                                        *)
(* ===================================================================== *)

(** ** Decimal numerals *)

Section Decimal_facts.
Import JS.

Lemma of_uint_acc_value d : forall p,
  Npos (Pos.of_uint_acc d p) = uintValue (Npos p) d.
Proof.
  induction d; intros p; simpl; try reflexivity; rewrite IHd; f_equal; lia.
Qed.

Lemma of_uint_value d : N.of_uint d = uintValue 0 d.
Proof.
  unfold N.of_uint.
  induction d; simpl; try reflexivity; try (rewrite of_uint_acc_value; reflexivity).
  exact IHd.
Qed.

Lemma readDecimal_string_of_uint d : forall acc,
  readDecimal acc (NilEmpty.string_of_uint d) = Some (uintValue acc d).
Proof.
  induction d; intros acc; simpl; try reflexivity;
    rewrite IHd; do 2 f_equal; lia.
Qed.

Lemma uintValue_split d : forall acc,
  (uintValue acc d = acc * 10 ^ N.of_nat (nb_digits d) + uintValue 0 d)%N.
Proof.
  induction d; intros acc;
    try (cbn [uintValue nb_digits]; rewrite IHd;
         rewrite (IHd (10 * 0 + _)%N) || rewrite (IHd (10 * 0)%N);
         rewrite Nat2N.inj_succ, N.pow_succ_r'; lia).
  simpl. lia.
Qed.

Lemma uintValue_bound d : (uintValue 0 d < 10 ^ N.of_nat (nb_digits d))%N.
Proof.
  induction d;
    try (cbn [uintValue nb_digits]; rewrite uintValue_split;
         rewrite Nat2N.inj_succ, N.pow_succ_r'; lia).
  simpl. lia.
Qed.

Lemma length_string_of_uint d :
  String.length (NilEmpty.string_of_uint d) = nb_digits d.
Proof. induction d; simpl; congruence. Qed.

Lemma natToString_unfold n :
  natToString n = NilEmpty.string_of_uint (N.to_uint n).
Proof.
  unfold natToString, NilZero.string_of_uint.
  destruct (N.to_uint n) eqn:E; try reflexivity.
  exfalso. destruct n; simpl in E; [discriminate|].
  revert E. apply DecimalPos.Unsigned.to_uint_nonnil.
Qed.

Lemma readDecimal_natToString n : readDecimal 0 (natToString n) = Some n.
Proof.
  rewrite natToString_unfold, readDecimal_string_of_uint.
  rewrite <- of_uint_value, DecimalN.Unsigned.of_to. reflexivity.
Qed.

End Decimal_facts.

(** ** Strings *)

Section String_facts.
Import JS.

Lemma length_app (s t : string) :
  String.length (s +:+ t) = (String.length s + String.length t)%nat.
Proof. induction s; simpl; congruence. Qed.

Lemma app_empty_r (s : string) : (s +:+ "")%string = s.
Proof. induction s; simpl; congruence. Qed.

Lemma app_assoc_s (s t u : string) :
  ((s +:+ t) +:+ u = s +:+ (t +:+ u))%string.
Proof. induction s; simpl; congruence. Qed.

Lemma length_zeros n : String.length (zeros n) = n.
Proof. induction n; simpl; congruence. Qed.

Lemma isEmpty_true s : isEmpty s = true <-> s = EmptyString.
Proof. destruct s; simpl; split; congruence. Qed.

Lemma readDecimal_app s : forall acc t,
  readDecimal acc (s +:+ t) =
  match readDecimal acc s with
  | Some a => readDecimal a t
  | None => None
  end.
Proof.
  induction s; intros acc t; simpl; [reflexivity|].
  destruct (digitValue a); [apply IHs | reflexivity].
Qed.

Lemma readDecimal_zeros n : forall acc,
  readDecimal acc (zeros n) = Some (acc * 10 ^ N.of_nat n)%N.
Proof.
  induction n; intros acc.
  - simpl. f_equal. lia.
  - cbn [zeros readDecimal]. change (digitValue "0") with (Some 0%N). cbv iota beta.
    rewrite IHn, Nat2N.inj_succ, N.pow_succ_r'. f_equal. lia.
Qed.

(** What [trimEnd0] removes is a run of zeros. *)
Lemma trimEnd0_zeros s :
  exists j, s = (trimEnd0 s +:+ zeros j)%string.
Proof.
  induction s as [|c r [j IH]]; simpl.
  - exists 0%nat. reflexivity.
  - destruct (Ascii.eqb c "0" && isEmpty (trimEnd0 r)) eqn:E.
    + apply andb_true_iff in E as [Ec Er].
      apply Ascii.eqb_eq in Ec. apply isEmpty_true in Er.
      rewrite Er in IH. simpl in IH. subst c.
      exists (S j). simpl. congruence.
    + exists j. simpl. congruence.
Qed.

(** What [trimEnd0] leaves does not end in a zero. *)
Lemma trimEnd0_no_trailing_zero s p :
  trimEnd0 s <> (p +:+ "0")%string.
Proof.
  revert p. induction s as [|c r IH]; intros p; simpl.
  - destruct p; discriminate.
  - destruct (Ascii.eqb c "0" && isEmpty (trimEnd0 r)) eqn:E.
    + destruct p; discriminate.
    + destruct p as [|c' p']; simpl.
      * intros [= -> Hr]. rewrite Hr in E. discriminate.
      * intros [= _ Hr]. exact (IH _ Hr).
Qed.

Lemma padEnd0_trimEnd0 s :
  padEnd0 (String.length s) (trimEnd0 s) = s.
Proof.
  destruct (trimEnd0_zeros s) as [j Hj].
  unfold padEnd0. remember (trimEnd0 s) as t eqn:Et. clear Et.
  rewrite Hj, length_app, length_zeros.
  replace (String.length t + j - String.length t)%nat with j by lia.
  reflexivity.
Qed.

Lemma length_trimEnd0 s : (String.length (trimEnd0 s) <= String.length s)%nat.
Proof.
  destruct (trimEnd0_zeros s) as [j Hj].
  remember (trimEnd0 s) as t eqn:Et. clear Et.
  rewrite Hj, length_app. lia.
Qed.

(** A digit string holds no ['.']: the cut falls where it was joined. *)
Lemma cutAtDot_digits s : forall acc v,
  readDecimal acc s = Some v ->
  cutAtDot s = (s, None) /\
  forall t, cutAtDot (s +:+ "." +:+ t)
            = (s, Some t).
Proof.
  induction s as [|c r IH]; intros acc v H; simpl.
  - split; [reflexivity | intros t; reflexivity].
  - simpl in H. destruct (digitValue c) as [d|] eqn:Ed; [|discriminate].
    assert (Hc : Ascii.eqb c "." = false).
    { apply Ascii.eqb_neq. intros ->. discriminate. }
    rewrite Hc. destruct (IH _ _ H) as [H1 H2]. split.
    + rewrite H1. reflexivity.
    + intros t. specialize (H2 t). simpl in H2. rewrite H2. reflexivity.
Qed.

End String_facts.

(** ** formatUnits (EthereumDelegationTracker.js) *)

Section FormatUnits.
Import JS EthereumDelegationTracker.

(** A numeral without leading zeros is zero or at least [10^(digits-1)]. *)
Lemma unorm_fixed_lower d :
  unorm d = d ->
  d = zero \/ (10 ^ N.of_nat (nb_digits d - 1) <= uintValue 0 d)%N.
Proof.
  intros H.
  destruct d;
    try (right; cbn [uintValue nb_digits]; rewrite uintValue_split;
         replace (S (nb_digits d) - 1)%nat with (nb_digits d) by lia; lia).
  - discriminate.
  - left. rewrite unorm_D0 in H. unfold unorm in H.
    destruct (nzhead d) eqn:E; try discriminate.
    + injection H as <-. reflexivity.
    + exfalso. exact (nzhead_nonzero _ _ E).
Qed.

Lemma natToString_length n k :
  (n < 10 ^ N.of_nat k)%N -> (1 <= k)%nat ->
  (String.length (natToString n) <= k)%nat.
Proof.
  intros Hn Hk.
  rewrite natToString_unfold, length_string_of_uint.
  assert (Hd : unorm (N.to_uint n) = N.to_uint n).
  { rewrite <- DecimalN.Unsigned.to_of, DecimalN.Unsigned.of_to. reflexivity. }
  assert (Hv : uintValue 0 (N.to_uint n) = n).
  { rewrite <- of_uint_value. apply DecimalN.Unsigned.of_to. }
  destruct (unorm_fixed_lower _ Hd) as [Hz | Hge].
  - rewrite Hz. simpl. lia.
  - rewrite Hv in Hge.
    assert (Hlt : (10 ^ N.of_nat (nb_digits (N.to_uint n) - 1)
                   < 10 ^ N.of_nat k)%N) by lia.
    apply N.pow_lt_mono_r_iff in Hlt; lia.
Qed.

Lemma natToString_nonempty n : isEmpty (natToString n) = false.
Proof.
  unfold natToString, NilZero.string_of_uint.
  destruct (N.to_uint n); reflexivity.
Qed.

Lemma bigIntToString_nonneg z :
  0 <= z -> bigIntToString z = natToString (Z.to_N z).
Proof. destruct z; [reflexivity | reflexivity | lia]. Qed.

Lemma trimEnd0_empty_zeros s :
  trimEnd0 s = EmptyString -> s = zeros (String.length s).
Proof.
  intros H. destruct (trimEnd0_zeros s) as [j Hj].
  rewrite H in Hj. simpl in Hj. rewrite Hj at 2.
  rewrite length_zeros. exact Hj.
Qed.

Lemma trimEnd0_of_zeros n : trimEnd0 (zeros n) = EmptyString.
Proof. induction n; simpl; [reflexivity | rewrite IHn; reflexivity]. Qed.

Lemma formatUnits_nonneg v :
  0 <= v ->
  formatUnits v 18 =
    (natToString (Z.to_N (v / 10 ^ 18)) +:+
     (let fracStr :=
        trimEnd0 (padStart0 18 (natToString (Z.to_N (v mod 10 ^ 18)))) in
      if isEmpty fracStr then "" else "." +:+ fracStr))%string.
Proof.
  intros Hv. unfold formatUnits.
  assert (Hneg : (v <? 0) = false) by (apply Z.ltb_ge; exact Hv).
  rewrite Hneg.
  rewrite Z.quot_div_nonneg, Z.rem_mod_nonneg by lia.
  assert (0 <= v / 10 ^ 18) by (apply Z.div_pos; lia).
  assert (0 <= v mod 10 ^ 18 < 10 ^ 18) by (apply Z.mod_pos_bound; lia).
  rewrite !bigIntToString_nonneg by lia.
  reflexivity.
Qed.

(** The 18 fraction digits before trimming: exactly 18 characters, read
    back as the remainder. *)
Lemma fraction_digits f :
  (f < 10 ^ 18)%N ->
  String.length (padStart0 18 (natToString f)) = 18%nat /\
  readDecimal 0 (padStart0 18 (natToString f)) = Some f.
Proof.
  intros Hf.
  assert (Hl : (String.length (natToString f) <= 18)%nat)
    by (apply natToString_length; [exact Hf | lia]).
  unfold padStart0. split.
  - rewrite length_app, length_zeros. lia.
  - rewrite readDecimal_app, readDecimal_zeros. simpl (0 * _)%N.
    apply readDecimal_natToString.
Qed.

(** C2. For every non-negative base-unit amount [v], [formatUnits v 18]
    is the decimal numeral of [v / 10^18], followed, when the remainder is
    not zero, by ['.'] and the 18 remainder digits with the trailing zeros
    trimmed (nothing at all when the remainder is zero); and reading the
    string back as integer part x 10^18 + fraction part (right-padded to
    18 digits) gives [v] again.  Only integer arithmetic is involved, so
    the size of [v] is not bounded. *)
Theorem formatUnits_roundtrip (v : Z) :
  0 <= v ->
  exists fracStr : string,
    formatUnits v 18 =
      (natToString (Z.to_N (v / 10 ^ 18)) +:+
       (if isEmpty fracStr then "" else "." +:+ fracStr))%string
    /\ padEnd0 18 fracStr = padStart0 18 (natToString (Z.to_N (v mod 10 ^ 18)))
    /\ (forall p, fracStr <> (p +:+ "0")%string)
    /\ (fracStr = EmptyString <-> v mod 10 ^ 18 = 0)
    /\ parseUnits18 (formatUnits v 18) = Some v.
Proof.
  intros Hv.
  assert (Hi : 0 <= v / 10 ^ 18) by (apply Z.div_pos; lia).
  assert (Hf : 0 <= v mod 10 ^ 18 < 10 ^ 18) by (apply Z.mod_pos_bound; lia).
  set (I := Z.to_N (v / 10 ^ 18)).
  set (F := Z.to_N (v mod 10 ^ 18)).
  assert (HF : (F < 10 ^ 18)%N) by (unfold F; lia).
  destruct (fraction_digits F HF) as [Hlen Hread].
  set (digits := padStart0 18 (natToString F)) in *.
  exists (trimEnd0 digits).
  assert (Hpad : padEnd0 18 (trimEnd0 digits) = digits).
  { rewrite <- Hlen. apply padEnd0_trimEnd0. }
  assert (Hzero : trimEnd0 digits = EmptyString <-> v mod 10 ^ 18 = 0).
  { split.
    - intros E. apply trimEnd0_empty_zeros in E.
      rewrite E, readDecimal_zeros in Hread.
      injection Hread as Hread. unfold F in Hread. lia.
    - intros E. unfold digits, F. rewrite E. reflexivity. }
  split; [apply formatUnits_nonneg; exact Hv|].
  split; [exact Hpad|].
  split; [apply trimEnd0_no_trailing_zero|].
  split; [exact Hzero|].
  rewrite formatUnits_nonneg by exact Hv. fold F I digits. cbv zeta.
  unfold parseUnits18.
  destruct (cutAtDot_digits _ _ _ (readDecimal_natToString I)) as [Hs1 Hs2].
  assert (Hsplit :
    cutAtDot
      (natToString I +:+
       (if isEmpty (trimEnd0 digits) then "" else "." +:+ trimEnd0 digits))
    = (natToString I,
       if isEmpty (trimEnd0 digits) then None else Some (trimEnd0 digits))).
  { destruct (isEmpty (trimEnd0 digits)).
    - rewrite app_empty_r. exact Hs1.
    - apply Hs2. }
  rewrite Hsplit.
  replace (match (if isEmpty (trimEnd0 digits) then None else Some (trimEnd0 digits))
           with Some f => f | None => EmptyString end)
    with (trimEnd0 digits).
  2:{ destruct (isEmpty (trimEnd0 digits)) eqn:E; [|reflexivity].
      apply isEmpty_true in E. rewrite E. reflexivity. }
  rewrite natToString_nonempty, readDecimal_natToString, Hpad, Hread.
  assert (Hle : (String.length (trimEnd0 digits) <=? 18)%nat = true).
  { apply Nat.leb_le. rewrite <- Hlen. apply length_trimEnd0. }
  rewrite Hle. f_equal. unfold I, F.
  rewrite !Z2N.id by lia.
  pose proof (Z.div_mod v (10 ^ 18)). lia.
Qed.

(** The round trip at an amount above 2^53. *)
Lemma formatUnits_roundtrip_witness :
  0 <= 2 ^ 53 + 1 /\
  exists fracStr : string,
    formatUnits (2 ^ 53 + 1) 18 =
      (natToString (Z.to_N ((2 ^ 53 + 1) / 10 ^ 18)) +:+
       (if isEmpty fracStr then "" else "." +:+ fracStr))%string
    /\ padEnd0 18 fracStr =
       padStart0 18 (natToString (Z.to_N ((2 ^ 53 + 1) mod 10 ^ 18)))
    /\ (forall p, fracStr <> (p +:+ "0")%string)
    /\ (fracStr = EmptyString <-> (2 ^ 53 + 1) mod 10 ^ 18 = 0)
    /\ parseUnits18 (formatUnits (2 ^ 53 + 1) 18) = Some (2 ^ 53 + 1).
Proof.
  split; [lia | apply (formatUnits_roundtrip (2 ^ 53 + 1)); lia].
Defined.

Example formatUnits_above_2_53 :
  formatUnits (2 ^ 53 + 1) 18 = "0.009007199254740993"%string.
Proof. vm_compute. reflexivity. Qed.

Example formatUnits_one_token :
  formatUnits 1000000000000000000 18 = "1"%string.
Proof. vm_compute. reflexivity. Qed.

Example formatUnits_trims :
  formatUnits 1234500000000000000000 18 = "1234.5"%string.
Proof. vm_compute. reflexivity. Qed.

End FormatUnits.

(** ** Address classification (DelegatorFilter.js) *)

Section Static_sets.
Import JS DelegatorFilter.

Lemma has_spec (s : gset string) (x : string) : has s x = true <-> x ∈ s.
Proof. unfold has. apply bool_decide_eq_true. Qed.

Lemma has_false (s : gset string) (x : string) : has s x = false <-> x ∉ s.
Proof.
  rewrite <- has_spec. destruct (has s x); split; congruence.
Qed.

Lemma lower_list_sound (l : list string) :
  forallb (fun k => String.eqb (toLowerCase k) k) l = true ->
  forall k, k ∈ (list_to_set l : gset string) -> toLowerCase k = k.
Proof.
  intros H k Hk. apply elem_of_list_to_set, list_elem_of_In in Hk.
  rewrite forallb_forall in H. apply String.eqb_eq. exact (H k Hk).
Qed.

(** The entries of both static sets are written in lower case. *)
Lemma known_exchange_lower k :
  k ∈ knownExchangeAddresses -> toLowerCase k = k.
Proof. apply lower_list_sound. vm_compute. reflexivity. Qed.

Lemma known_defi_lower k :
  k ∈ knownDefiAddresses -> toLowerCase k = k.
Proof. apply lower_list_sound. vm_compute. reflexivity. Qed.

End Static_sets.

Section Classification_facts.
Import JS DelegatorFilter.

#[local] Opaque knownExchangeAddresses knownDefiAddresses has.

Lemma lowerChar_upperChar c : lowerChar (upperChar c) = lowerChar c.
Proof. destruct c as [[] [] [] [] [] [] [] []]; reflexivity. Qed.

Lemma lowerChar_idem c : lowerChar (lowerChar c) = lowerChar c.
Proof. destruct c as [[] [] [] [] [] [] [] []]; reflexivity. Qed.

Lemma toLowerCase_upper s : toLowerCase (mapString upperChar s) = toLowerCase s.
Proof.
  induction s as [|c r IH]; simpl; [reflexivity|].
  unfold toLowerCase in *. simpl.
  rewrite lowerChar_upperChar, IH. reflexivity.
Qed.

(** Upper case of an ASCII string: character by character. *)
Lemma toUpperCase_ascii s :
  isAscii s = true -> toUpperCase s = Some (mapString upperChar s).
Proof.
  induction s as [|c r IH]; intros H; [reflexivity|].
  cbn [isAscii] in H. apply andb_true_iff in H as [Hc Hr].
  cbn [toUpperCase mapString]. rewrite Hc, (IH Hr). reflexivity.
Qed.

Lemma toLowerCase_idem s : toLowerCase (toLowerCase s) = toLowerCase s.
Proof.
  induction s as [|c r IH]; simpl; [reflexivity|].
  unfold toLowerCase in *. simpl. rewrite lowerChar_idem, IH. reflexivity.
Qed.

Lemma classify_hit cache a r :
  cache !! toLowerCase a = Some r -> classifyAddressBasic cache a = (r, cache).
Proof. intros H. unfold classifyAddressBasic. rewrite H. reflexivity. Qed.

Lemma classify_miss cache a :
  cache !! toLowerCase a = None ->
  classifyAddressBasic cache a =
    (storedFor (toLowerCase a),
     <[toLowerCase a := storedFor (toLowerCase a)]> cache).
Proof.
  intros H. unfold classifyAddressBasic, isKnownExchangeOrDefi, storedFor.
  rewrite H.
  destruct (has knownExchangeAddresses (toLowerCase a)
            || has knownDefiAddresses (toLowerCase a)); reflexivity.
Qed.

(** On a cache that only this classifier filled, the answer is a function
    of the lower-cased address. *)
Lemma classify_cached cache a :
  cache_ok cache ->
  fst (classifyAddressBasic cache a) = storedFor (toLowerCase a).
Proof.
  intros Hok.
  destruct (cache !! toLowerCase a) as [r|] eqn:E.
  - rewrite (classify_hit _ _ _ E).
    destruct (Hok _ _ E) as [_ Hr]. exact Hr.
  - rewrite (classify_miss _ _ E). reflexivity.
Qed.

Lemma cache_ok_empty : cache_ok ∅.
Proof. intros k r H. rewrite lookup_empty in H. discriminate. Qed.

Lemma cache_ok_insert cache k :
  toLowerCase k = k ->
  cache_ok cache ->
  cache_ok (<[k := storedFor k]> cache).
Proof.
  intros Hk Hok k' r H.
  destruct (decide (k = k')) as [<-|Hne].
  - rewrite lookup_insert_eq in H.
    assert (Hr : r = storedFor k) by congruence.
    split; assumption.
  - rewrite lookup_insert_ne in H by exact Hne. exact (Hok _ _ H).
Qed.

Lemma classify_preserves_cache_ok cache a :
  cache_ok cache -> cache_ok (snd (classifyAddressBasic cache a)).
Proof.
  intros Hok.
  destruct (cache !! toLowerCase a) as [r|] eqn:E.
  - rewrite (classify_hit _ _ _ E). exact Hok.
  - rewrite (classify_miss _ _ E). apply cache_ok_insert.
    + apply toLowerCase_idem.
    + exact Hok.
Qed.

(** What the classifier stores, read off the two static sets. *)
Lemma storedFor_type k :
  type (storedFor k) =
    if has knownExchangeAddresses k then exchange
    else if has knownDefiAddresses k then defi
    else individual.
Proof.
  unfold storedFor.
  destruct (has knownExchangeAddresses k);
    destruct (has knownDefiAddresses k); reflexivity.
Qed.

(** C6.  An address is a hexadecimal string, and so a string of ASCII
    characters.  On the cache of any run, [classifyAddressBasic] answers
    for a string of ASCII characters what it answers for the upper-cased
    string, asked on the same cache or right after the first call.  For
    every string, the answer does not depend on which run's cache it is
    asked on (it is a function of the address), and an address that
    matches an entry of the static exchange set up to the case of its
    letters is classified [exchange]. *)
Theorem classify_case_insensitive
    (cache : gmap string Classification) (addr : string) :
  cache_ok cache ->
  (isAscii addr = true ->
   exists upper,
     toUpperCase addr = Some upper
     /\ fst (classifyAddressBasic cache addr)
        = fst (classifyAddressBasic cache upper)
     /\ fst (classifyAddressBasic cache addr)
        = fst (classifyAddressBasic (snd (classifyAddressBasic cache addr))
                 upper))
  /\ (forall cache', cache_ok cache' ->
        fst (classifyAddressBasic cache' addr)
          = fst (classifyAddressBasic cache addr))
  /\ (forall known, known ∈ knownExchangeAddresses ->
        toLowerCase addr = toLowerCase known ->
        type (fst (classifyAddressBasic cache addr)) = exchange).
Proof.
  intros Hok. split; [|split].
  - intros Hascii. exists (mapString upperChar addr).
    split; [apply toUpperCase_ascii; exact Hascii|]. split.
    + rewrite !classify_cached by exact Hok.
      rewrite toLowerCase_upper. reflexivity.
    + rewrite (classify_cached (snd (classifyAddressBasic cache addr)))
        by (apply classify_preserves_cache_ok; exact Hok).
      rewrite classify_cached by exact Hok.
      rewrite toLowerCase_upper. reflexivity.
  - intros cache' Hok'. rewrite !classify_cached by assumption. reflexivity.
  - intros known Hin Heq.
    rewrite classify_cached by exact Hok.
    rewrite storedFor_type, Heq, (known_exchange_lower _ Hin).
    apply has_spec in Hin. rewrite Hin. reflexivity.
Qed.

Lemma classify_case_insensitive_witness :
  cache_ok ∅
  /\ isAscii "0x5E3346444010135322268a0ca24B70E5B1D0D52A" = true
  /\ (exists upper,
        toUpperCase "0x5E3346444010135322268a0ca24B70E5B1D0D52A" = Some upper
        /\ fst (classifyAddressBasic ∅ "0x5E3346444010135322268a0ca24B70E5B1D0D52A")
           = fst (classifyAddressBasic ∅ upper)
        /\ fst (classifyAddressBasic ∅ "0x5E3346444010135322268a0ca24B70E5B1D0D52A")
           = fst (classifyAddressBasic
                    (snd (classifyAddressBasic ∅ "0x5E3346444010135322268a0ca24B70E5B1D0D52A"))
                    upper))
  /\ (forall cache', cache_ok cache' ->
        fst (classifyAddressBasic cache' "0x5E3346444010135322268a0ca24B70E5B1D0D52A")
          = fst (classifyAddressBasic ∅ "0x5E3346444010135322268a0ca24B70E5B1D0D52A"))
  /\ (forall known, known ∈ knownExchangeAddresses ->
        toLowerCase "0x5E3346444010135322268a0ca24B70E5B1D0D52A" = toLowerCase known ->
        type (fst (classifyAddressBasic ∅ "0x5E3346444010135322268a0ca24B70E5B1D0D52A"))
            = exchange).
Proof.
  split; [exact cache_ok_empty|].
  split; [reflexivity|].
  destruct (classify_case_insensitive ∅ "0x5E3346444010135322268a0ca24B70E5B1D0D52A" cache_ok_empty)
    as (Hupper & Hcache & Hknown).
  split; [apply Hupper; reflexivity|].
  split; [exact Hcache | exact Hknown].
Defined.

(** C7. The classifier looks the lower-cased address up in the two static
    sets: [exchange] for a member of the exchange set, [defi] for a member
    of the DeFi set only, and the [individual] default (not an
    exchange-or-DeFi address, source [default]) for every other address.
    It always returns a classification, and leaves a cache that later
    calls can rely on. *)
Theorem classify_static_lookup
    (cache : gmap string Classification) (addr : string) :
  cache_ok cache ->
  exists r cache',
    classifyAddressBasic cache addr = (r, cache')
    /\ cache_ok cache'
    /\ (toLowerCase addr ∈ knownExchangeAddresses -> type r = exchange)
    /\ (toLowerCase addr ∉ knownExchangeAddresses ->
        toLowerCase addr ∈ knownDefiAddresses -> type r = defi)
    /\ (toLowerCase addr ∉ knownExchangeAddresses ->
        toLowerCase addr ∉ knownDefiAddresses ->
        type r = individual /\ isExchangeOrDefi r = false
        /\ source r = "default"%string).
Proof.
  intros Hok.
  exists (fst (classifyAddressBasic cache addr)),
         (snd (classifyAddressBasic cache addr)).
  split; [destruct (classifyAddressBasic cache addr); reflexivity|].
  split; [apply classify_preserves_cache_ok; exact Hok|].
  rewrite classify_cached by exact Hok. unfold storedFor.
  split; [|split].
  - intros H. apply has_spec in H. rewrite H. reflexivity.
  - intros H1 H2. apply has_false in H1. apply has_spec in H2.
    rewrite H1, H2. reflexivity.
  - intros H1 H2. apply has_false in H1, H2. rewrite H1, H2.
    split; [|split]; reflexivity.
Qed.

Lemma classify_static_lookup_witness :
  cache_ok ∅ /\
  exists r cache',
    classifyAddressBasic ∅ "0x00000000000000000000000000000000000000Aa" = (r, cache')
    /\ cache_ok cache'
    /\ (toLowerCase "0x00000000000000000000000000000000000000Aa"
          ∈ knownExchangeAddresses -> type r = exchange)
    /\ (toLowerCase "0x00000000000000000000000000000000000000Aa"
          ∉ knownExchangeAddresses ->
        toLowerCase "0x00000000000000000000000000000000000000Aa"
          ∈ knownDefiAddresses -> type r = defi)
    /\ (toLowerCase "0x00000000000000000000000000000000000000Aa"
          ∉ knownExchangeAddresses ->
        toLowerCase "0x00000000000000000000000000000000000000Aa"
          ∉ knownDefiAddresses ->
        type r = individual /\ isExchangeOrDefi r = false
        /\ source r = "default"%string).
Proof.
  split; [exact cache_ok_empty|].
  apply (classify_static_lookup ∅ "0x00000000000000000000000000000000000000Aa").
  exact cache_ok_empty.
Defined.

Lemma storedFor_not_institutional k : type (storedFor k) <> institutional.
Proof.
  rewrite storedFor_type.
  destruct (has knownExchangeAddresses k);
    [|destruct (has knownDefiAddresses k)]; discriminate.
Qed.

Lemma classifyBatch_ok cache batch :
  cache_ok cache ->
  cache_ok (snd (classifyBatch cache batch)) /\
  Forall (fun ac => type (snd ac) <> institutional) (fst (classifyBatch cache batch)).
Proof.
  revert cache. induction batch as [|a rest IH]; intros cache Hok; simpl.
  - split; [exact Hok | constructor].
  - pose proof (classify_cached cache a Hok) as Hc.
    pose proof (classify_preserves_cache_ok cache a Hok) as Hp.
    destruct (classifyAddressBasic cache a) as [c cache1]. simpl in Hc, Hp.
    destruct (IH cache1 Hp) as [H1 H2].
    destruct (classifyBatch cache1 rest) as [others cache2]. simpl in *.
    split; [exact H1|]. constructor; [|exact H2].
    simpl. rewrite Hc. apply storedFor_not_institutional.
Qed.

Lemma recordResult_institutional o results ac :
  type (snd ac) <> institutional ->
  filteredOutInstitutional (recordResult o results ac)
    = filteredOutInstitutional results.
Proof.
  destruct ac as [address c]. simpl. intros Ht.
  destruct (type c); try congruence;
    destruct (excludeExchanges o), (excludeDefi o), (excludeInstitutional o);
    reflexivity.
Qed.

Lemma fold_recordResult_institutional o acs : forall results,
  Forall (fun ac => type (snd ac) <> institutional) acs ->
  filteredOutInstitutional (fold_left (recordResult o) acs results)
    = filteredOutInstitutional results.
Proof.
  induction acs as [|ac rest IH]; intros results H; simpl; [reflexivity|].
  inversion H; subst.
  rewrite IH by assumption. apply recordResult_institutional. assumption.
Qed.

Lemma processBatches_institutional o batches : forall cache results,
  cache_ok cache ->
  cache_ok (snd (processBatches o cache results batches)) /\
  filteredOutInstitutional (fst (processBatches o cache results batches))
    = filteredOutInstitutional results.
Proof.
  induction batches as [|b rest IH]; intros cache results Hok; simpl.
  - split; [exact Hok | reflexivity].
  - destruct (classifyBatch_ok cache b Hok) as [H1 H2].
    destruct (classifyBatch cache b) as [batchResults cache1]. simpl in H1, H2.
    destruct (IH cache1 (fold_left (recordResult o) batchResults results) H1)
      as [H3 H4].
    split; [exact H3|].
    rewrite H4. apply fold_recordResult_institutional. exact H2.
Qed.

(** With a positive batch size the batching loop ends. *)
Lemma makeBatches_terminates batchSize addresses : forall fuel i,
  (1 <= batchSize)%nat -> (length addresses <= fuel + i)%nat ->
  exists batches, makeBatches fuel batchSize i addresses = Some batches.
Proof.
  induction fuel as [|fuel IH]; intros i Hb Hf; simpl.
  - destruct (Nat.ltb_spec i (length addresses)); [lia|]. eexists; reflexivity.
  - destruct (Nat.ltb_spec i (length addresses)); [|eexists; reflexivity].
    destruct (IH (i + batchSize)%nat Hb) as [rest Hr]; [lia|].
    rewrite Hr. eexists; reflexivity.
Qed.

(** C10. On the cache of any run the static classifier answers
    [exchange], [defi] or [individual], never [institutional]; so
    [filterDelegatorAddresses], whatever its options (the
    [excludeInstitutional] switch included) and with a positive
    [maxConcurrency], returns with an empty [filteredOut.institutional]
    list. *)
Theorem static_path_never_institutional
    (cache : gmap string Classification) (addr : string)
    (addresses : list string) (o : FilterOptions) :
  cache_ok cache ->
  (1 <= maxConcurrency o)%nat ->
  (type (fst (classifyAddressBasic cache addr)) = exchange
   \/ type (fst (classifyAddressBasic cache addr)) = defi
   \/ type (fst (classifyAddressBasic cache addr)) = individual)
  /\ exists results cache',
       filterDelegatorAddresses cache addresses o = Some (results, cache')
       /\ filteredOutInstitutional results = [].
Proof.
  intros Hok Hmax. split.
  - rewrite classify_cached by exact Hok. rewrite storedFor_type.
    destruct (has knownExchangeAddresses (toLowerCase addr)); [left; reflexivity|].
    destruct (has knownDefiAddresses (toLowerCase addr)); auto.
  - unfold filterDelegatorAddresses.
    destruct (makeBatches_terminates (Nat.min (maxConcurrency o) 10) addresses
                (length addresses) 0%nat) as [batches Hb]; [lia | lia |].
    rewrite Hb.
    destruct (processBatches_institutional o batches cache
                (initialResults addresses) Hok) as [_ Hi].
    destruct (processBatches o cache (initialResults addresses) batches)
      as [results cache'].
    exists results, cache'. split; [reflexivity | exact Hi].
Qed.

Lemma static_path_never_institutional_witness :
  cache_ok ∅ /\ (1 <= maxConcurrency defaultOptions)%nat /\
  ((type (fst (classifyAddressBasic ∅ "0xCFFAD3200574698b78f32232aa9D63eABD290703")) = exchange
    \/ type (fst (classifyAddressBasic ∅ "0xCFFAD3200574698b78f32232aa9D63eABD290703")) = defi
    \/ type (fst (classifyAddressBasic ∅ "0xCFFAD3200574698b78f32232aa9D63eABD290703"))
        = individual)
   /\ exists results cache',
        filterDelegatorAddresses ∅
          ["0xCFFAD3200574698b78f32232aa9D63eABD290703"%string;
           "0x00000000000000000000000000000000000000Aa"%string] defaultOptions
          = Some (results, cache')
        /\ filteredOutInstitutional results = []).
Proof.
  split; [exact cache_ok_empty|]. split; [simpl; lia|].
  apply (static_path_never_institutional ∅
           "0xCFFAD3200574698b78f32232aa9D63eABD290703"
           ["0xCFFAD3200574698b78f32232aa9D63eABD290703"%string;
            "0x00000000000000000000000000000000000000Aa"%string]
           defaultOptions).
  - exact cache_ok_empty.
  - simpl. lia.
Defined.

End Classification_facts.

Section Classification_examples.
Import JS DelegatorFilter.

(** "Coinbase Custody" of the exchange set, in mixed, upper and lower case. *)
Example classify_mixed_case :
  map (fun a => type (fst (classifyAddressBasic ∅ a)))
    ["0xCFFAD3200574698b78f32232aa9D63eABD290703"%string;
     "0XCFFAD3200574698B78F32232AA9D63EABD290703"%string;
     "0xcffad3200574698b78f32232aa9d63eabd290703"%string;
     "0x8F3CF7AD23CD3CADBD9735AFF958023239C6A063"%string;
     "0x00000000000000000000000000000000000000Aa"%string]
  = [exchange; exchange; exchange; defi; individual].
Proof. vm_compute. reflexivity. Qed.

(** The classifier takes any string, and outside ASCII upper-casing can
    change the category.  The string below, which is no address, holds
    the ligature U+FB00 where "Coinbase Custody" has [ff]: lower case
    leaves it as it is and the string is in no static set, upper case
    writes it [FF] and the result is the exchange address. *)
Lemma upper_case_changes_category :
  toUpperCase "0xcﬀad3200574698b78f32232aa9d63eabd290703"
    = Some "0XCFFAD3200574698B78F32232AA9D63EABD290703"%string
  /\ type (fst (classifyAddressBasic ∅
                  "0xcﬀad3200574698b78f32232aa9d63eabd290703"))
     = individual
  /\ type (fst (classifyAddressBasic ∅
                  "0XCFFAD3200574698B78F32232AA9D63EABD290703"))
     = exchange.
Proof. split; [|split]; vm_compute; reflexivity. Qed.

End Classification_examples.

(** ** fetchLogs (DirectRPCDelegatorFetcher) *)

Section Block_ranges.
Import DirectRPCDelegatorFetcher.
Variable chain : Z -> list RawLog.

Lemma blocksOf_empty a b : b < a -> blocksOf a b = [].
Proof.
  intros H. unfold blocksOf.
  replace (Z.to_nat (b - a + 1)) with 0%nat by lia. reflexivity.
Qed.

Lemma map_seq_shift (a : Z) (k n : nat) :
  map (fun i => a + Z.of_nat i) (seq k n)
  = map (fun i => (a + Z.of_nat k) + Z.of_nat i) (seq 0 n).
Proof.
  revert a k. induction n as [|n IH]; intros a k; simpl; [reflexivity|].
  f_equal; [lia|].
  rewrite (IH a (S k)), (IH (a + Z.of_nat k) 1%nat).
  apply map_ext. intros i. lia.
Qed.

Lemma blocksOf_split a b c :
  a <= b + 1 -> b <= c ->
  blocksOf a c = blocksOf a b ++ blocksOf (b + 1) c.
Proof.
  intros H1 H2. unfold blocksOf.
  replace (Z.to_nat (c - a + 1))
    with (Z.to_nat (b - a + 1) + Z.to_nat (c - (b + 1) + 1))%nat by lia.
  rewrite seq_app, map_app. f_equal.
  rewrite map_seq_shift. apply map_ext. intros i. lia.
Qed.

Lemma logsIn_empty a b : b < a -> logsIn chain a b = [].
Proof. intros H. unfold logsIn. rewrite blocksOf_empty by exact H. reflexivity. Qed.

Lemma logsIn_split a b c :
  a <= b + 1 -> b <= c ->
  logsIn chain a c = logsIn chain a b ++ logsIn chain (b + 1) c.
Proof.
  intros H1 H2. unfold logsIn.
  rewrite (blocksOf_split a b c H1 H2). apply flat_map_app.
Qed.

End Block_ranges.

Section FetchLogs_rpc.
Import DirectRPCDelegatorFetcher.
Variable provider : Provider.

Lemma rpcCall_queries fuel : forall retryCount this a b,
  queries (fst (rpcCall provider fuel retryCount this a b)) = queries this.
Proof.
  induction fuel as [|fuel IH]; intros retryCount this a b; cbn [rpcCall];
    destruct (provider (posts this) (rpcEndpoint this) a b);
    try reflexivity;
    destruct (retryCount <? length PUBLIC_RPC_ENDPOINTS - 1)%nat;
    try reflexivity.
  rewrite IH. reflexivity.
Qed.

Lemma rpcCall_first fuel retryCount this a b logs :
  provider (posts this) (rpcEndpoint this) a b = Result logs ->
  rpcCall provider fuel retryCount this a b
  = ({| rpcEndpoint := rpcEndpoint this; posts := S (posts this);
        queries := queries this |}, Result logs).
Proof. intros H. destruct fuel; cbn [rpcCall]; rewrite H; reflexivity. Qed.

(** What [rpcCall] hands to [fetchLogs] is an answer of the provider to
    some POST for the same range. *)
Lemma rpcCall_answer fuel : forall retryCount this a b,
  exists n endpoint,
    snd (rpcCall provider fuel retryCount this a b) = provider n endpoint a b.
Proof.
  induction fuel as [|fuel IH]; intros retryCount this a b; cbn [rpcCall];
    destruct (provider (posts this) (rpcEndpoint this) a b) eqn:E;
    try (exists (posts this), (rpcEndpoint this); rewrite E; reflexivity);
    destruct (retryCount <? length PUBLIC_RPC_ENDPOINTS - 1)%nat;
    try (exists (posts this), (rpcEndpoint this); rewrite E; reflexivity).
  apply IH.
Qed.

End FetchLogs_rpc.

Section FetchLogs_complete.
Import DirectRPCDelegatorFetcher.
Variable chain : Z -> list RawLog.
Variable provider : Provider.
Hypothesis Hserves : serves chain provider.
Hypothesis Honly : onlyTooLarge provider.
Hypothesis Hsplittable : rejectsOnlySplittable provider.

Lemma rpcCall_cases fuel retryCount this a b :
  exists this',
    rpcCall provider fuel retryCount this a b = (this', Result (logsIn chain a b))
    \/ exists message,
         rpcCall provider fuel retryCount this a b = (this', Failure message)
         /\ isTooLarge message = true /\ a < b.
Proof.
  destruct (rpcCall_answer provider fuel retryCount this a b) as (n & e & H).
  destruct (rpcCall provider fuel retryCount this a b) as [this' r].
  simpl in H. exists this'. destruct r as [logs | message].
  - left. rewrite (Hserves _ _ _ _ _ (eq_sym H)). reflexivity.
  - right. exists message. split; [reflexivity|]. split.
    + exact (Honly _ _ _ _ _ (eq_sym H)).
    + exact (Hsplittable _ _ _ _ _ (eq_sym H)).
Qed.

(** The loop invariant: [allLogs] holds the logs of the blocks before
    [currentFrom], and twice the blocks left, plus one, is fuel enough. *)
Lemma fetchLoop_returns : forall fuel this currentFrom toBlock batchSize allLogs,
  1 <= batchSize ->
  (2 * Z.to_nat (toBlock - currentFrom + 1) + 1 <= fuel)%nat ->
  exists this',
    fetchLoop provider fuel this currentFrom toBlock batchSize allLogs
    = Some (this', Returned (allLogs ++ logsIn chain currentFrom toBlock)).
Proof.
  induction fuel as [|fuel IH]; intros this cf to bs acc Hbs Hfuel; [lia|].
  cbn [fetchLoop]. destruct (Z.leb_spec cf to) as [Hle | Hgt].
  2:{ eexists. rewrite logsIn_empty, app_nil_r by lia. reflexivity. }
  set (ct := Z.min (cf + bs - 1) to).
  assert (Hct : cf <= ct <= to) by lia.
  match goal with |- context [rpcCall provider ?f ?r ?t cf ct] =>
    destruct (rpcCall_cases f r t cf ct) as [this1 [Hr | (message & Hr & Hm & Hlt)]];
    rewrite Hr
  end.
  - destruct (IH this1 (ct + 1) to bs (acc ++ logsIn chain cf ct)) as [this' H'];
      [lia | lia |].
    exists this'. rewrite H', <- app_assoc.
    rewrite <- logsIn_split by lia. reflexivity.
  - rewrite Hm.
    set (h := (ct - cf + 1) / 2).
    assert (Hh : 1 <= h < ct - cf + 1).
    { unfold h. split.
      - apply Z.div_le_lower_bound; lia.
      - apply Z.div_lt; lia. }
    destruct (IH this1 cf (cf + h - 1) h []) as [this2 H2]; [lia | lia |].
    rewrite H2.
    destruct (IH this2 (cf + h) ct h []) as [this3 H3]; [lia | lia |].
    rewrite H3. cbn [app].
    destruct (IH this3 (ct + 1) to bs
                (acc ++ logsIn chain cf (cf + h - 1) ++ logsIn chain (cf + h) ct))
      as [this' H']; [lia | lia |].
    exists this'. rewrite H'. do 2 f_equal.
    rewrite (logsIn_split chain cf ct to) by lia.
    rewrite (logsIn_split chain cf (cf + h - 1) ct) by lia.
    replace (cf + h - 1 + 1) with (cf + h) by lia.
    rewrite <- !app_assoc. reflexivity.
Qed.

(** C1, as the code has it.  Against a provider that serves the chain,
    fails only with "too large" errors, in any pattern and at any depth of
    the recursion, and rejects no query for a single block: [fetchLogs]
    with a positive batch size returns, and what it returns is the list a
    single unbounded query over the range answers with: every log once,
    none missing, in block order. *)
Theorem fetchLogs_complete
    (this : Fetcher) (fromBlock toBlock batchSize : Z) (fuel : nat) :
  fromBlock <= toBlock ->
  1 <= batchSize ->
  (2 * Z.to_nat (toBlock - fromBlock + 1) + 1 <= fuel)%nat ->
  exists this',
    fetchLogs provider fuel this fromBlock toBlock batchSize
    = Some (this', Returned (logsIn chain fromBlock toBlock)).
Proof.
  intros _ Hbs Hfuel. unfold fetchLogs.
  destruct (fetchLoop_returns fuel this fromBlock toBlock batchSize [] Hbs Hfuel)
    as [this' H].
  exists this'. exact H.
Qed.

End FetchLogs_complete.

Section FetchLogs_examples.
Import DirectRPCDelegatorFetcher.

Lemma tooManyResults_isTooLarge : isTooLarge tooManyResults = true.
Proof. vm_compute. reflexivity. Qed.

Lemma limited_serves : serves chain1 limited.
Proof.
  intros n e a b logs H. unfold limited in H.
  destruct (2 <? b - a + 1); congruence.
Qed.

Lemma limited_onlyTooLarge : onlyTooLarge limited.
Proof.
  intros n e a b message H. unfold limited in H.
  destruct (2 <? b - a + 1); [|discriminate].
  injection H as <-. exact tooManyResults_isTooLarge.
Qed.

Lemma limited_rejectsOnlySplittable : rejectsOnlySplittable limited.
Proof.
  intros n e a b message H. unfold limited in H.
  destruct (Z.ltb_spec 2 (b - a + 1)); [lia | discriminate].
Qed.

Lemma fetchLogs_complete_witness :
  serves chain1 limited /\ onlyTooLarge limited /\ rejectsOnlySplittable limited /\
  0 <= 9 /\ 1 <= 5000 /\ (2 * Z.to_nat (9 - 0 + 1) + 1 <= 21)%nat /\
  exists this',
    fetchLogs limited 21 newFetcher 0 9 5000
    = Some (this', Returned (logsIn chain1 0 9)).
Proof.
  split; [exact limited_serves|].
  split; [exact limited_onlyTooLarge|].
  split; [exact limited_rejectsOnlySplittable|].
  split; [lia|]. split; [lia|]. split; [vm_compute; lia|].
  apply (fetchLogs_complete chain1 limited limited_serves limited_onlyTooLarge
           limited_rejectsOnlySplittable newFetcher 0 9 5000 21).
  - lia.
  - lia.
  - vm_compute. lia.
Defined.

(** The run behind the witness: ten blocks, a provider that takes two
    blocks at most; the batch is halved down to 2 + 2 + 1 + 2 + 2 + 1. *)
Example fetchLogs_limited_run :
  fetchLogs limited 21 newFetcher 0 9 5000
  = Some ({| rpcEndpoint := "https://1rpc.io/eth"; posts := 21;
             queries := [(0, 9); (0, 4); (0, 1); (2, 3); (4, 4);
                         (5, 9); (5, 6); (7, 8); (9, 9)] |},
          Returned [logAt 3; logAt 4; logAt 8]).
Proof. vm_compute. reflexivity. Qed.

End FetchLogs_examples.

(** A batch of size zero never moves [currentFrom]: whatever the provider
    answers, the loop on a single block does not return. *)
Section FetchLogs_stuck.
Import DirectRPCDelegatorFetcher.
Variable provider : Provider.
Variable block : Z.

Lemma zero_batch_never_returns : forall fuel this allLogs this' logs,
  fetchLoop provider fuel this block block 0 allLogs <> Some (this', Returned logs).
Proof.
  induction fuel as [|fuel IH]; intros this acc this' logs; [discriminate|].
  cbn [fetchLoop]. rewrite Z.leb_refl.
  replace (Z.min (block + 0 - 1) block) with (block - 1) by lia.
  replace (block - 1 + 1) with block by lia.
  destruct (rpcCall provider _ 0 _ block (block - 1)) as [this1 [got | message]].
  - apply IH.
  - destruct (isTooLarge message); [|discriminate].
    destruct (fetchLoop provider fuel this1 block _ _ [])
      as [[this2 [firstHalf | e]]|]; try discriminate.
    destruct (fetchLoop provider fuel this2 _ (block - 1) _ [])
      as [[this3 [secondHalf | e]]|]; try discriminate.
    apply IH.
Qed.

Hypothesis Hrejects : forall n endpoint,
  exists message,
    provider n endpoint block block = Failure message /\ isTooLarge message = true.

(** A "too large" failure on a single block: the halves are [block ..
    block - 1] and [block .. block] with batch size 0, and the second
    never returns. *)
Lemma single_block_never_returns fuel this batchSize allLogs this' logs :
  1 <= batchSize ->
  fetchLoop provider fuel this block block batchSize allLogs
    <> Some (this', Returned logs).
Proof.
  intros Hbs. destruct fuel as [|fuel]; [discriminate|].
  cbn [fetchLoop]. rewrite Z.leb_refl.
  replace (Z.min (block + batchSize - 1) block) with block by lia.
  match goal with |- context [rpcCall provider ?f ?r ?t block block] =>
    destruct (rpcCall_answer provider f r t block block) as (n & e & Ha);
    destruct (rpcCall provider f r t block block) as [this1 resp]
  end.
  simpl in Ha. destruct (Hrejects n e) as (message & Hm & Htl).
  rewrite Ha, Hm, Htl.
  replace ((block - block + 1) / 2) with 0 by (rewrite Z.sub_diag; reflexivity).
  replace (block + 0) with block by lia.
  destruct (fetchLoop provider fuel this1 block _ 0 [])
    as [[this2 [firstHalf | e']]|]; try discriminate.
  pose proof (zero_batch_never_returns fuel this2 []) as Hz.
  destruct (fetchLoop provider fuel this2 block block 0 [])
    as [[this3 [secondHalf | e']]|]; try discriminate.
  exfalso. exact (Hz this3 secondHalf eq_refl).
Qed.

End FetchLogs_stuck.

Section FetchLogs_counterexample.
Import DirectRPCDelegatorFetcher.

Lemma logsIn_no_logs a b : logsIn (fun _ => []) a b = [].
Proof. unfold logsIn. induction (blocksOf a b); simpl; auto. Qed.

Lemma stubborn_serves : serves (fun _ => []) stubborn.
Proof.
  intros n e a b logs H. rewrite logsIn_no_logs. unfold stubborn in H.
  destruct ((a =? 100) && (b =? 100)); congruence.
Qed.

Lemma stubborn_onlyTooLarge : onlyTooLarge stubborn.
Proof.
  intros n e a b message H. unfold stubborn in H.
  destruct ((a =? 100) && (b =? 100)); [|discriminate].
  injection H as <-. exact tooManyResults_isTooLarge.
Qed.

(** C1 as stated fails.  [stubborn] serves its chain and fails with "too
    large" errors only, and the range is a single block, 100 .. 100; yet
    for no amount of fuel does [fetchLogs] return a list of logs. *)
Lemma fetchLogs_single_block_rejected :
  serves (fun _ => []) stubborn /\ onlyTooLarge stubborn /\ 100 <= 100 /\
  ~ exists fuel this' logs,
      fetchLogs stubborn fuel newFetcher 100 100 5000 = Some (this', Returned logs).
Proof.
  split; [exact stubborn_serves|]. split; [exact stubborn_onlyTooLarge|].
  split; [lia|]. intros (fuel & this' & logs & H).
  revert H. apply single_block_never_returns; [|lia].
  intros n e. exists tooManyResults. split; [reflexivity|].
  exact tooManyResults_isTooLarge.
Qed.

Example fetchLogs_stubborn_out_of_fuel :
  fetchLogs stubborn 1000 newFetcher 100 100 5000 = None.
Proof. vm_compute. reflexivity. Qed.

End FetchLogs_counterexample.

Section FetchLogs_batches.
Import DirectRPCDelegatorFetcher.
Variable provider : Provider.
Hypothesis HnoErrors : forall n endpoint a b,
  exists logs, provider n endpoint a b = Result logs.

(** One round of the loop when the provider answers at once. *)
Lemma fetchLoop_round fuel this currentFrom toBlock batchSize allLogs :
  currentFrom <= toBlock ->
  exists logs,
    fetchLoop provider (S fuel) this currentFrom toBlock batchSize allLogs
    = fetchLoop provider fuel
        {| rpcEndpoint := rpcEndpoint this;
           posts := S (posts this);
           queries := queries this
                      ++ [(currentFrom, Z.min (currentFrom + batchSize - 1) toBlock)] |}
        (Z.min (currentFrom + batchSize - 1) toBlock + 1) toBlock batchSize
        (allLogs ++ logs).
Proof.
  intros Hle. cbn [fetchLoop].
  destruct (Z.leb_spec currentFrom toBlock); [|lia].
  destruct (HnoErrors (posts this) (rpcEndpoint this) currentFrom
              (Z.min (currentFrom + batchSize - 1) toBlock)) as [logs Hl].
  rewrite rpcCall_first with (logs := logs) by exact Hl.
  exists logs. reflexivity.
Qed.

(** C5. A range of exactly 12,000 blocks with batch size 5,000, absent
    provider errors: [fetchLogs] returns after exactly three range
    queries (three POSTs), for the blocks [from .. from+4999],
    [from+5000 .. from+9999] and [from+10000 .. from+11999]: each starts
    one block after the previous one ends, the first at [fromBlock], the
    last ending at [toBlock]. *)
Theorem fetchLogs_three_batches (this : Fetcher) (fromBlock : Z) (fuel : nat) :
  (4 <= fuel)%nat ->
  exists this' logs,
    fetchLogs provider fuel this fromBlock (fromBlock + 11999) 5000
      = Some (this', Returned logs)
    /\ queries this' = queries this ++
         [(fromBlock, fromBlock + 4999);
          (fromBlock + 5000, fromBlock + 9999);
          (fromBlock + 10000, fromBlock + 11999)]
    /\ posts this' = (posts this + 3)%nat.
Proof.
  intros Hfuel.
  destruct fuel as [|[|[|[|fuel]]]]; try lia. clear Hfuel.
  unfold fetchLogs.
  destruct (fetchLoop_round (S (S (S fuel))) this fromBlock (fromBlock + 11999)
              5000 []) as [l1 H1]; [lia|].
  rewrite H1. clear H1.
  replace (Z.min (fromBlock + 5000 - 1) (fromBlock + 11999))
    with (fromBlock + 4999) by lia.
  replace (fromBlock + 4999 + 1) with (fromBlock + 5000) by lia.
  match goal with |- context [fetchLoop provider _ ?t _ _ _ ?acc] =>
    destruct (fetchLoop_round (S (S fuel)) t (fromBlock + 5000)
                (fromBlock + 11999) 5000 acc) as [l2 H2]; [lia|]
  end.
  rewrite H2. clear H2. cbn [rpcEndpoint posts queries].
  replace (Z.min (fromBlock + 5000 + 5000 - 1) (fromBlock + 11999))
    with (fromBlock + 9999) by lia.
  replace (fromBlock + 9999 + 1) with (fromBlock + 10000) by lia.
  match goal with |- context [fetchLoop provider _ ?t _ _ _ ?acc] =>
    destruct (fetchLoop_round (S fuel) t (fromBlock + 10000)
                (fromBlock + 11999) 5000 acc) as [l3 H3]; [lia|]
  end.
  rewrite H3. clear H3. cbn [rpcEndpoint posts queries].
  replace (Z.min (fromBlock + 10000 + 5000 - 1) (fromBlock + 11999))
    with (fromBlock + 11999) by lia.
  cbn [fetchLoop].
  destruct (Z.leb_spec (fromBlock + 11999 + 1) (fromBlock + 11999)); [lia|].
  eexists. eexists. split; [reflexivity|].
  cbn [queries posts]. split.
  - rewrite <- !app_assoc. reflexivity.
  - lia.
Qed.

End FetchLogs_batches.

Section FetchLogs_batches_example.
Import DirectRPCDelegatorFetcher.

Lemma generous_no_errors : forall n endpoint a b,
  exists logs, generous n endpoint a b = Result logs.
Proof. intros. eexists. reflexivity. Qed.

Lemma fetchLogs_three_batches_witness :
  (forall n endpoint a b, exists logs, generous n endpoint a b = Result logs) /\
  (4 <= 4)%nat /\
  exists this' logs,
    fetchLogs generous 4 newFetcher 18000000 (18000000 + 11999) 5000
      = Some (this', Returned logs)
    /\ queries this' = queries newFetcher ++
         [(18000000, 18000000 + 4999);
          (18000000 + 5000, 18000000 + 9999);
          (18000000 + 10000, 18000000 + 11999)]
    /\ posts this' = (posts newFetcher + 3)%nat.
Proof.
  split; [exact generous_no_errors|]. split; [lia|].
  apply (fetchLogs_three_batches generous generous_no_errors newFetcher 18000000 4).
  lia.
Defined.

End FetchLogs_batches_example.

(** ** The event decoders *)

Section Decoders.
Import JS.

(** C4, as the code has it.  A log whose amount cannot be read as an
    integer (the first 66 characters of [data] are no BigInt literal, as
    for the bare prefix ["0x"] with no payload at all) produces no event
    in either decoder, and raises nothing: the result of the batch is the
    result of the batch without that log. *)
Theorem undecodable_amount_dropped
    (getBlockTimestamp : string -> number) (cutoffTimestamp : number)
    (before after : list EthereumDelegationTracker.EtherscanLog)
    (event : EthereumDelegationTracker.EtherscanLog)
    (logsBefore logsAfter : list DirectRPCDelegatorFetcher.RawLog)
    (log : DirectRPCDelegatorFetcher.RawLog) :
  bigIntOfString (slice 0 66 (EthereumDelegationTracker.data event)) = None ->
  bigIntOfString
    ("0x" +:+ slice 0 64 (sliceFrom 2 (DirectRPCDelegatorFetcher.data log))) = None ->
  EthereumDelegationTracker.processDelegationEvents getBlockTimestamp
      (before ++ event :: after) cutoffTimestamp
    = EthereumDelegationTracker.processDelegationEvents getBlockTimestamp
        (before ++ after) cutoffTimestamp
  /\ DirectRPCDelegatorFetcher.parseLogs (logsBefore ++ log :: logsAfter)
     = DirectRPCDelegatorFetcher.parseLogs (logsBefore ++ logsAfter).
Proof.
  intros He Hl. split.
  - unfold EthereumDelegationTracker.processDelegationEvents. f_equal.
    rewrite !flat_map_app. f_equal. cbn [flat_map].
    assert (Hp : EthereumDelegationTracker.pushed
                   (EthereumDelegationTracker.processOne getBlockTimestamp
                      cutoffTimestamp event) = []).
    { unfold EthereumDelegationTracker.processOne. rewrite He.
      destruct (ltb _ cutoffTimestamp); [reflexivity|].
      destruct (nth_error _ 2); reflexivity. }
    rewrite Hp. reflexivity.
  - unfold DirectRPCDelegatorFetcher.parseLogs.
    rewrite !flat_map_app. f_equal. cbn [flat_map].
    assert (Hp : DirectRPCDelegatorFetcher.parsed log = []).
    { unfold DirectRPCDelegatorFetcher.parsed,
        DirectRPCDelegatorFetcher.parseShareMintedEvent.
      rewrite Hl. destruct (nth_error _ 2); reflexivity. }
    rewrite Hp. reflexivity.
Qed.

Lemma undecodable_amount_dropped_witness :
  bigIntOfString
    (slice 0 66 (EthereumDelegationTracker.data
                   EthereumDelegationTracker.emptyDataLog)) = None /\
  bigIntOfString
    ("0x" +:+ slice 0 64
       (sliceFrom 2 (DirectRPCDelegatorFetcher.data
                       DirectRPCDelegatorFetcher.emptyDataLog))) = None /\
  (EthereumDelegationTracker.processDelegationEvents (fun _ => NaN)
      ([EthereumDelegationTracker.oneByteLog]
       ++ EthereumDelegationTracker.emptyDataLog
       :: [EthereumDelegationTracker.oneByteLog]) (numberOfZ 0)
    = EthereumDelegationTracker.processDelegationEvents (fun _ => NaN)
        ([EthereumDelegationTracker.oneByteLog]
         ++ [EthereumDelegationTracker.oneByteLog]) (numberOfZ 0)
   /\ DirectRPCDelegatorFetcher.parseLogs
        ([DirectRPCDelegatorFetcher.oneByteLog]
         ++ DirectRPCDelegatorFetcher.emptyDataLog
         :: [DirectRPCDelegatorFetcher.oneByteLog])
      = DirectRPCDelegatorFetcher.parseLogs
          ([DirectRPCDelegatorFetcher.oneByteLog]
           ++ [DirectRPCDelegatorFetcher.oneByteLog])).
Proof.
  split; [vm_compute; reflexivity|]. split; [vm_compute; reflexivity|].
  apply (undecodable_amount_dropped (fun _ => NaN) (numberOfZ 0)
           [EthereumDelegationTracker.oneByteLog]
           [EthereumDelegationTracker.oneByteLog]
           EthereumDelegationTracker.emptyDataLog
           [DirectRPCDelegatorFetcher.oneByteLog]
           [DirectRPCDelegatorFetcher.oneByteLog]
           DirectRPCDelegatorFetcher.emptyDataLog).
  - vm_compute. reflexivity.
  - vm_compute. reflexivity.
Defined.

(** C4 as stated fails.  [oneByteLog] holds one byte of payload, fewer
    than 32, and both decoders produce an event for it, the byte [0x2a]
    read as an amount of 42 base units. *)
Lemma short_data_is_decoded :
  (EthereumDelegationTracker.payloadBytes
     (EthereumDelegationTracker.data EthereumDelegationTracker.oneByteLog) < 32)%nat
  /\ map (fun e => (EthereumDelegationTracker.amountWei e,
                    EthereumDelegationTracker.amountPol e))
       (EthereumDelegationTracker.processDelegationEvents (fun _ => NaN)
          [EthereumDelegationTracker.oneByteLog] (numberOfZ 0))
     = [("42", "0.000000000000000042")%string]
  /\ map DirectRPCDelegatorFetcher.userAddress
       (DirectRPCDelegatorFetcher.parseLogs [DirectRPCDelegatorFetcher.oneByteLog])
     = ["0xcffad3200574698b78f32232aa9d63eabd290703"%string]
  /\ map DirectRPCDelegatorFetcher.amount
       (DirectRPCDelegatorFetcher.parseLogs [DirectRPCDelegatorFetcher.oneByteLog])
     = [div (numberOfZ 42) (numberOfZ (10 ^ 18))].
Proof.
  split; [vm_compute; lia|].
  split; [vm_compute; reflexivity|].
  split; vm_compute; reflexivity.
Qed.

Example decoded_fields :
  map (fun e => (EthereumDelegationTracker.validatorId e,
                 EthereumDelegationTracker.user e,
                 EthereumDelegationTracker.eventBlockNumber e,
                 EthereumDelegationTracker.timestamp e))
    (EthereumDelegationTracker.processDelegationEvents (fun _ => NaN)
       [EthereumDelegationTracker.oneByteLog] (numberOfZ 0))
  = [(numberOfZ 137, "0xcffad3200574698b78f32232aa9d63eabd290703"%string,
      numberOfZ 18000000, numberOfZ 1694675904)].
Proof. vm_compute. reflexivity. Qed.

(** A payload of hex digits, however short, is an integer literal: the
    decoder reads it as the amount. *)
Lemma substring_all s : forall n,
  (String.length s <= n)%nat -> String.substring 0 n s = s.
Proof.
  induction s as [|c r IH]; intros n H; destruct n; simpl in *;
    try reflexivity; try lia.
  rewrite IH by lia. reflexivity.
Qed.

Lemma hex_digit_not_space c d : hexValue c = Some d -> isWhiteSpace c = false.
Proof.
  destruct c as [[] [] [] [] [] [] [] []]; vm_compute; congruence.
Qed.

Lemma trimEndWS_hex s : forall acc v,
  readRadix 16 acc s = Some v -> trimEndWS s = s.
Proof.
  induction s as [|c r IH]; intros acc v H; simpl in *; [reflexivity|].
  destruct (hexValue c) as [d|] eqn:E; [|discriminate].
  destruct (d <? 16)%N; [|discriminate].
  rewrite (IH _ _ H), (hex_digit_not_space _ _ E). reflexivity.
Qed.

Lemma hex_literal_value payload v :
  isEmpty payload = false ->
  readRadix 16 0 payload = Some v ->
  bigIntOfString ("0x" +:+ payload) = Some (Z.of_N v).
Proof.
  intros Hne Hv. unfold bigIntOfString.
  change (trimStartWS ("0x" +:+ payload)) with ("0x" +:+ payload)%string.
  change (trimEndWS ("0x" +:+ payload))
    with (String "0" (String "x" (trimEndWS payload))).
  rewrite (trimEndWS_hex _ _ _ Hv).
  destruct payload as [|c r]; [discriminate|].
  cbn [isEmpty]. rewrite Hv. reflexivity.
Qed.

Lemma short_payload_is_decoded
    (log : DirectRPCDelegatorFetcher.RawLog) (payload : string) (v : N)
    (topic0 topic1 topic2 : string) (rest : list string) :
  DirectRPCDelegatorFetcher.data log = ("0x" +:+ payload)%string ->
  isEmpty payload = false ->
  (String.length payload <= 64)%nat ->
  readRadix 16 0 payload = Some v ->
  DirectRPCDelegatorFetcher.topics log = topic0 :: topic1 :: topic2 :: rest ->
  exists event,
    DirectRPCDelegatorFetcher.parseShareMintedEvent log
      = DirectRPCDelegatorFetcher.Returned event
    /\ DirectRPCDelegatorFetcher.amount event
       = div (numberOfZ (Z.of_N v)) (numberOfZ (10 ^ 18)).
Proof.
  intros Hd Hne Hlen Hv Ht.
  unfold DirectRPCDelegatorFetcher.parseShareMintedEvent.
  rewrite Ht, Hd. cbn [nth_error].
  assert (Hs : sliceFrom 2 ("0x" +:+ payload) = payload).
  { unfold sliceFrom. cbn [String.append String.length String.substring Nat.sub].
    apply substring_all. lia. }
  rewrite Hs. unfold slice. rewrite substring_all by lia.
  rewrite (hex_literal_value _ _ Hne Hv).
  eexists. split; reflexivity.
Qed.

End Decoders.

(** ** Numbers: the sign of a difference *)

Section Number_facts.
Import JS.

(** Rounding keeps the sign it is given. *)
Lemma binary_round_aux_sign sx mx ex lx :
  isPositive (binary_round_aux 53 1024 sx mx ex lx) = true -> sx = false.
Proof.
  unfold binary_round_aux.
  destruct (shr_fexp 53 1024 mx ex lx) as [mrs' e'].
  destruct (shr_fexp 53 1024 _ e' loc_Exact) as [mrs'' e''].
  destruct (shr_m mrs'') as [|m|m]; [| destruct (e'' <=? 1024 - 53) |];
    destruct sx; cbv [isPositive SFltb SFcompare]; congruence.
Qed.

Lemma binary_normalize_positive m e :
  isPositive (binary_normalize 53 1024 m e false) = true -> 0 < m.
Proof.
  destruct m as [|p|p]; cbn [binary_normalize].
  - discriminate.
  - lia.
  - unfold binary_round.
    destruct (shl_align p e _) as [mz ez].
    intros H. apply binary_round_aux_sign in H. discriminate.
Qed.

(** [v - v] is never positive. *)
Lemma sub_diag_not_positive v : isPositive (sub v v) = false.
Proof.
  destruct v as [[]|[]| |s m e]; try reflexivity.
  unfold sub, SFsub.
  set (X := cond_Zopp s _).
  change (IntDef.Z.sub X X) with (Z.sub X X).
  rewrite Z.sub_diag. reflexivity.
Qed.

(** If [a - b] is positive, [b - a] is not. *)
Lemma sub_positive_asym a b :
  isPositive (sub a b) = true -> isPositive (sub b a) = false.
Proof.
  destruct a as [sa|sa| |sa ma ea], b as [sb|sb| |sb mb eb];
    try (destruct sa, sb; cbv [isPositive SFltb SFcompare sub SFsub negb];
         congruence);
    try (destruct sa; cbv [isPositive SFltb SFcompare sub SFsub negb]; congruence);
    try (destruct sb; cbv [isPositive SFltb SFcompare sub SFsub negb]; congruence);
    try (cbv [isPositive SFltb SFcompare sub SFsub negb]; congruence).
  unfold sub, SFsub.
  change IntDef.Z.min with Z.min. change IntDef.Z.sub with Z.sub.
  rewrite (Z.min_comm eb ea).
  set (A := cond_Zopp sa _). set (B := cond_Zopp sb _).
  intros H. apply binary_normalize_positive in H.
  destruct (isPositive (binary_normalize 53 1024 (B - A) (Z.min ea eb) false)) eqn:E;
    [|reflexivity].
  apply binary_normalize_positive in E. lia.
Qed.

Lemma sameNumber_eq x y : sameNumber x y = true <-> x = y.
Proof.
  destruct x as [a|a| |a m e], y as [b|b| |b n f]; simpl;
    try (split; [discriminate | congruence]);
    try (rewrite Bool.eqb_true_iff; split; congruence).
  - split; reflexivity.
  - rewrite !andb_true_iff, Bool.eqb_true_iff, Pos.eqb_eq, Z.eqb_eq.
    split; [intros [[-> ->] ->]; reflexivity | intros [= -> -> ->]; auto].
Qed.

End Number_facts.

(** ** Array.prototype.sort with a comparator on Numbers *)

Section Sort_facts.
Import JS.
Context {A : Type}.
Variable comparefn : A -> A -> number.

Lemma insertSorted_perm x l : Permutation (insertSorted comparefn x l) (x :: l).
Proof.
  induction l as [|y r IH]; simpl; [reflexivity|].
  destruct (isPositive (comparefn x y)); [|reflexivity].
  rewrite IH. apply perm_swap.
Qed.

Lemma sort_perm l : Permutation (sort comparefn l) l.
Proof.
  induction l as [|x r IH]; simpl; [reflexivity|].
  rewrite insertSorted_perm. constructor. exact IH.
Qed.

(** [a] may stand before [b]: the comparator does not put [a] after [b]. *)
Hypothesis Hasym : forall a b,
  isPositive (comparefn a b) = true -> isPositive (comparefn b a) = false.

Lemma insertSorted_sorted x l :
  Sorted (fun a b => isPositive (comparefn a b) = false) l ->
  Sorted (fun a b => isPositive (comparefn a b) = false) (insertSorted comparefn x l).
Proof.
  induction l as [|y r IH]; intros Hs; simpl.
  - repeat constructor.
  - destruct (isPositive (comparefn x y)) eqn:E.
    + inversion Hs as [|? ? Hr Hhd]; subst.
      constructor; [apply IH; exact Hr|].
      destruct r as [|z r']; simpl.
      * constructor. apply Hasym. exact E.
      * destruct (isPositive (comparefn x z)).
        -- inversion Hhd; subst. constructor. assumption.
        -- constructor. apply Hasym. exact E.
    + constructor; [exact Hs|]. constructor. exact E.
Qed.

Lemma sort_sorted l :
  Sorted (fun a b => isPositive (comparefn a b) = false) (sort comparefn l).
Proof.
  induction l as [|x r IH]; simpl; [constructor|].
  apply insertSorted_sorted. exact IH.
Qed.

End Sort_facts.

Section Sort_stable.
Import JS.
Context {A : Type}.
Variable key : A -> number.

Lemma descendingBy_asym a b :
  isPositive (descendingBy key a b) = true ->
  isPositive (descendingBy key b a) = false.
Proof. unfold descendingBy. apply sub_positive_asym. Qed.

(** Elements with the same key keep their order. *)
Lemma insertSorted_stable v x l :
  List.filter (fun e => sameNumber (key e) v) (insertSorted (descendingBy key) x l)
  = List.filter (fun e => sameNumber (key e) v) (x :: l).
Proof.
  induction l as [|y r IH]; [reflexivity|].
  cbn [insertSorted].
  destruct (isPositive (descendingBy key x y)) eqn:E; [|reflexivity].
  cbn [List.filter] in *. rewrite IH.
  destruct (sameNumber (key x) v) eqn:Ex; [|reflexivity].
  destruct (sameNumber (key y) v) eqn:Ey; [|reflexivity].
  apply sameNumber_eq in Ex, Ey. unfold descendingBy in E.
  rewrite Ex, Ey, sub_diag_not_positive in E. discriminate.
Qed.

Lemma sort_stable v l :
  List.filter (fun e => sameNumber (key e) v) (sort (descendingBy key) l)
  = List.filter (fun e => sameNumber (key e) v) l.
Proof.
  induction l as [|x r IH]; [reflexivity|].
  cbn [sort fold_right]. fold (sort (descendingBy key) r).
  rewrite insertSorted_stable. cbn [List.filter]. rewrite IH. reflexivity.
Qed.

Lemma Sorted_firstn (R : A -> A -> Prop) n : forall l,
  Sorted R l -> Sorted R (firstn n l).
Proof.
  induction n as [|n IH]; intros l Hs; [constructor|].
  destruct l as [|x r]; [constructor|].
  inversion Hs as [|? ? Hr Hhd]; subst. cbn [firstn].
  constructor; [apply IH; exact Hr|].
  destruct r as [|y r']; [destruct n; constructor|].
  destruct n; [constructor|]. cbn [firstn].
  inversion Hhd; subst. constructor. assumption.
Qed.

End Sort_stable.

(** ** The aggregation (ValidatorTracker.fetchAllDelegatorsAcrossValidators) *)

Section Aggregation.
Import JS ValidatorTracker.

Lemma sumFor_snoc key events event :
  sumFor key (events ++ [event])
  = if String.eqb (address event) key
    then add (sumFor key events) (amount event)
    else sumFor key events.
Proof. unfold sumFor. rewrite fold_left_app. reflexivity. Qed.

(** An address with no event has the sum 0. *)
Lemma sumFor_absent key events :
  (forall event, In event events -> address event <> key) ->
  sumFor key events = zero.
Proof.
  induction events as [|event rest IH] using rev_ind; intros H; [reflexivity|].
  rewrite sumFor_snoc.
  destruct (String.eqb_spec (address event) key) as [E|_].
  - exfalso. apply (H event); [apply in_or_app; right; left; reflexivity | exact E].
  - apply IH. intros e He. apply H. apply in_or_app. left. exact He.
Qed.

Section Update.
Variable f : AddressStake -> AddressStake.
Hypothesis Hf : forall stake, stakeAddress (f stake) = stakeAddress stake.

Lemma updateAddress_keys key stakes k :
  In k (map stakeAddress (updateAddress f key stakes))
  <-> k = key \/ In k (map stakeAddress stakes).
Proof.
  induction stakes as [|x r IH]; simpl.
  - rewrite Hf. simpl. split.
    + intros [H|[]]. left. symmetry. exact H.
    + intros [H|[]]. left. symmetry. exact H.
  - destruct (String.eqb_spec key (stakeAddress x)) as [E|E]; simpl.
    + rewrite Hf. split.
      * intros H. right. exact H.
      * intros [H|H]; [left; congruence | exact H].
    + rewrite IH. split.
      * intros [H|[H|H]]; auto.
      * intros [H|[H|H]]; auto.
Qed.

Lemma updateAddress_NoDup key stakes :
  List.NoDup (map stakeAddress stakes) ->
  List.NoDup (map stakeAddress (updateAddress f key stakes)).
Proof.
  induction stakes as [|x r IH]; intros H; simpl.
  - rewrite Hf. simpl. constructor; [intros []|constructor].
  - inversion H as [|? ? Hx Hr]; subst.
    destruct (String.eqb_spec key (stakeAddress x)) as [E|E]; simpl.
    + rewrite Hf. constructor; assumption.
    + constructor; [|apply IH; exact Hr].
      rewrite updateAddress_keys.
      intros [Heq|Hin]; [apply E; symmetry; exact Heq | exact (Hx Hin)].
Qed.

(** An entry after the update is an old entry of another address, or
    [f] of the old entry of [key], or [f] of a new entry when [key] had
    none. *)
Lemma updateAddress_In key stakes stake :
  List.NoDup (map stakeAddress stakes) ->
  In stake (updateAddress f key stakes) ->
  (In stake stakes /\ stakeAddress stake <> key)
  \/ exists old, stake = f old /\ stakeAddress old = key /\
       (In old stakes
        \/ (old = newAddressStake key /\ ~ In key (map stakeAddress stakes))).
Proof.
  induction stakes as [|x r IH]; intros Hnd Hin; simpl in Hin.
  - destruct Hin as [<-|[]]. right. exists (newAddressStake key).
    split; [reflexivity|]. split; [reflexivity|]. right. split; [reflexivity|]. intros [].
  - inversion Hnd as [|? ? Hx Hr]; subst.
    destruct (String.eqb_spec key (stakeAddress x)) as [E|E]; simpl in Hin.
    + destruct Hin as [<-|Hin].
      * right. exists x. split; [reflexivity|]. split; [symmetry; exact E|].
        left. left. reflexivity.
      * left. split; [right; exact Hin|].
        intros E'. apply Hx. rewrite <- E, <- E'. apply in_map. exact Hin.
    + destruct Hin as [<-|Hin].
      * left. split; [left; reflexivity | intros E'; apply E; symmetry; exact E'].
      * destruct (IH Hr Hin) as [[H1 H2] | (old & H1 & H2 & H3)].
        -- left. split; [right; exact H1 | exact H2].
        -- right. exists old. split; [exact H1|]. split; [exact H2|].
           destruct H3 as [H3 | [H3 H4]]; [left; right; exact H3|].
           right. split; [exact H3|]. simpl. intros [E'|E']; [apply E|apply H4];
             auto.
Qed.

End Update.

Lemma no_event_before delegations unbonds stakes key :
  passed delegations unbonds stakes ->
  ~ In key (map stakeAddress stakes) ->
  sumFor key delegations = zero /\ sumFor key unbonds = zero.
Proof.
  intros (_ & Hcov & _) Hnot.
  split; apply sumFor_absent; intros event Hin E; apply Hnot; rewrite <- E;
    apply Hcov; apply in_or_app; [left | right]; exact Hin.
Qed.

Lemma addDelegation_passed delegations unbonds stakes event :
  passed delegations unbonds stakes ->
  passed (delegations ++ [event]) unbonds (addDelegation stakes event).
Proof.
  intros Hp. pose proof Hp as (Hnd & Hcov & Htot).
  unfold addDelegation.
  match goal with |- passed _ _ (updateAddress ?g _ _) => set (f := g) end.
  assert (Hf : forall stake, stakeAddress (f stake) = stakeAddress stake)
    by reflexivity.
  split; [apply (updateAddress_NoDup f Hf); assumption|]. split.
  - intros e Hin. apply (updateAddress_keys f Hf).
    apply in_app_or in Hin as [Hin|Hin].
    + apply in_app_or in Hin as [Hin|[<-|[]]]; [|left; reflexivity].
      right. apply Hcov. apply in_or_app. left. exact Hin.
    + right. apply Hcov. apply in_or_app. right. exact Hin.
  - intros stake Hin.
    apply (updateAddress_In f) in Hin; [|exact Hnd].
    destruct Hin as [[Hin Hne] | (old & -> & Hk & [Hin | [-> Hnot]])].
    + destruct (Htot stake Hin) as [H1 H2]. split; [|exact H2].
      rewrite sumFor_snoc.
      destruct (String.eqb_spec (address event) (stakeAddress stake)) as [E|_];
        [exfalso; apply Hne; symmetry; exact E | exact H1].
    + destruct (Htot old Hin) as [H1 H2]. rewrite Hf, sumFor_snoc, Hk.
      rewrite String.eqb_refl. cbn [f totalDelegated totalUnbonded].
      rewrite H1, H2, Hk. split; reflexivity.
    + destruct (no_event_before _ _ _ (address event) Hp Hnot) as [H1 H2].
      rewrite Hf, sumFor_snoc. cbn [f totalDelegated totalUnbonded
        newAddressStake stakeAddress].
      rewrite String.eqb_refl, H1, H2. split; reflexivity.
Qed.

Lemma addUnbond_passed delegations unbonds stakes event :
  passed delegations unbonds stakes ->
  passed delegations (unbonds ++ [event]) (addUnbond stakes event).
Proof.
  intros Hp. pose proof Hp as (Hnd & Hcov & Htot).
  unfold addUnbond.
  match goal with |- passed _ _ (updateAddress ?g _ _) => set (f := g) end.
  assert (Hf : forall stake, stakeAddress (f stake) = stakeAddress stake)
    by reflexivity.
  split; [apply (updateAddress_NoDup f Hf); assumption|]. split.
  - intros e Hin. apply (updateAddress_keys f Hf).
    apply in_app_or in Hin as [Hin|Hin].
    + right. apply Hcov. apply in_or_app. left. exact Hin.
    + apply in_app_or in Hin as [Hin|[<-|[]]]; [|left; reflexivity].
      right. apply Hcov. apply in_or_app. right. exact Hin.
  - intros stake Hin.
    apply (updateAddress_In f) in Hin; [|exact Hnd].
    destruct Hin as [[Hin Hne] | (old & -> & Hk & [Hin | [-> Hnot]])].
    + destruct (Htot stake Hin) as [H1 H2]. split; [exact H1|].
      rewrite sumFor_snoc.
      destruct (String.eqb_spec (address event) (stakeAddress stake)) as [E|_];
        [exfalso; apply Hne; symmetry; exact E | exact H2].
    + destruct (Htot old Hin) as [H1 H2]. rewrite Hf, sumFor_snoc, Hk.
      rewrite String.eqb_refl. cbn [f totalDelegated totalUnbonded].
      rewrite H1, H2, Hk. split; reflexivity.
    + destruct (no_event_before _ _ _ (address event) Hp Hnot) as [H1 H2].
      rewrite Hf, sumFor_snoc. cbn [f totalDelegated totalUnbonded
        newAddressStake stakeAddress].
      rewrite String.eqb_refl, H1, H2. split; reflexivity.
Qed.

Lemma passed_start : passed [] [] [].
Proof.
  split; [constructor|]. split; [intros e []|intros stake []].
Qed.

Lemma delegations_passed delegations :
  passed delegations [] (fold_left addDelegation delegations []).
Proof.
  induction delegations as [|event rest IH] using rev_ind; [exact passed_start|].
  rewrite fold_left_app. apply addDelegation_passed. exact IH.
Qed.

Lemma unbonds_passed delegations unbonds :
  passed delegations unbonds
    (fold_left addUnbond unbonds (fold_left addDelegation delegations [])).
Proof.
  induction unbonds as [|event rest IH] using rev_ind;
    [apply delegations_passed|].
  rewrite fold_left_app. apply addUnbond_passed. exact IH.
Qed.

(** C3, as the code has it.  For every decoded event set, the aggregation
    holds one entry per address seen; the entry's [totalDelegated] and
    [totalUnbonded] are the Number sums (binary64, in token units) of the
    address's delegation amounts and of its unbonding amounts, each added
    up from 0 in event order and independently of the other; and its
    [netStake] is the Number difference of the two, also for an address
    with no delegation or no unbonding, whose sum is 0. *)
Theorem aggregate_net_stake (allDelegations allUnbonds : list StakeEvent) :
  List.NoDup (map stakeAddress (aggregate allDelegations allUnbonds))
  /\ Forall (fun event =>
        In (address event) (map stakeAddress (aggregate allDelegations allUnbonds)))
       (allDelegations ++ allUnbonds)
  /\ Forall (fun stake =>
        totalDelegated stake = sumFor (stakeAddress stake) allDelegations
        /\ totalUnbonded stake = sumFor (stakeAddress stake) allUnbonds
        /\ netStake stake = sub (totalDelegated stake) (totalUnbonded stake))
       (aggregate allDelegations allUnbonds).
Proof.
  destruct (unbonds_passed allDelegations allUnbonds) as (Hnd & Hcov & Htot).
  unfold aggregate.
  assert (Hkeys : forall stakes,
            map stakeAddress (map finish stakes) = map stakeAddress stakes).
  { intros stakes. rewrite map_map. reflexivity. }
  rewrite Hkeys. split; [exact Hnd|]. split.
  - apply List.Forall_forall. exact Hcov.
  - apply List.Forall_forall. intros stake Hin.
    apply List.in_map_iff in Hin as (old & <- & Hin).
    destruct (Htot old Hin) as [H1 H2]. cbn [finish stakeAddress totalDelegated
      totalUnbonded netStake].
    split; [exact H1|]. split; [exact H2 | reflexivity].
Qed.

End Aggregation.

Section Aggregation_examples.
Import JS ValidatorTracker.

(** C3 as stated fails.  One address delegates 0.1 and 0.2 tokens (10^17
    and 2 x 10^17 base units) and unbonds 0.3 tokens (3 x 10^17 base
    units).  In base units the delegations sum to the unbonding and the
    net stake is 0.  The aggregation adds Numbers: [totalDelegated] is
    5404319552844596 x 2^-54, which is neither 3/10 nor the Number of the
    exact sum, and [netStake] is 2^-54, which passes the [netStake > 0]
    filter. *)
Lemma number_sums_are_inexact :
  (10 ^ 17 + 2 * 10 ^ 17 - 3 * 10 ^ 17 = 0)%N
  /\ map (fun stake => (totalDelegated stake, totalUnbonded stake, netStake stake))
       (aggregate [eventOf addressA (10 ^ 17); eventOf addressA (2 * 10 ^ 17)]
                  [eventOf addressA (3 * 10 ^ 17)])
     = [(S754_finite false 5404319552844596 (-54),
         S754_finite false 5404319552844595 (-54),
         S754_finite false 4503599627370496 (-106))]
  /\ fromWeiToPolNumberStatic (natToString (10 ^ 17 + 2 * 10 ^ 17))
     = S754_finite false 5404319552844595 (-54)
  /\ 5404319552844596 * 10 <> 3 * 2 ^ 54
  /\ map (fun r => stakeAddress (ranked r))
       (topDelegators [eventOf addressA (10 ^ 17); eventOf addressA (2 * 10 ^ 17)]
                      [eventOf addressA (3 * 10 ^ 17)] 100)
     = [addressA].
Proof.
  split; [vm_compute; reflexivity|].
  split; [vm_compute; reflexivity|].
  split; [vm_compute; reflexivity|].
  split; [vm_compute; discriminate|].
  vm_compute. reflexivity.
Qed.

(** The spec's scenario A, where the amounts are whole tokens and the
    Number sums are exact: 100 + 200 + 50 delegated, 80 unbonded, 270. *)
Example scenario_A :
  map (fun stake => netStake stake)
    (aggregate [eventOf addressA (100 * 10 ^ 18); eventOf addressA (200 * 10 ^ 18);
                eventOf addressA (50 * 10 ^ 18)]
               [eventOf addressA (80 * 10 ^ 18)])
  = [numberOfZ 270].
Proof. vm_compute. reflexivity. Qed.

(** An address with unbondings only: its [totalDelegated] is 0 and its
    net stake is the negated sum. *)
Example unbond_only :
  map (fun stake => (totalDelegated stake, netStake stake))
    (aggregate [] [eventOf addressB (80 * 10 ^ 18)])
  = [(zero, numberOfZ (-80))].
Proof. vm_compute. reflexivity. Qed.

End Aggregation_examples.

(** ** The order of the aggregated entries *)

Section Aggregation_keys.
Import JS ValidatorTracker.

Lemma existsb_eqb_In key keys :
  existsb (String.eqb key) keys = true <-> In key keys.
Proof.
  rewrite existsb_exists. split.
  - intros (k & Hin & E). apply String.eqb_eq in E. subst. exact Hin.
  - intros H. exists key. split; [exact H | apply String.eqb_refl].
Qed.

Lemma updateAddress_addKey f key stakes :
  (forall stake, stakeAddress (f stake) = stakeAddress stake) ->
  map stakeAddress (updateAddress f key stakes)
  = addKey (map stakeAddress stakes) key.
Proof.
  intros Hf. unfold addKey.
  induction stakes as [|x r IH]; cbn [updateAddress map existsb].
  - rewrite Hf. reflexivity.
  - destruct (String.eqb_spec key (stakeAddress x)) as [E|E]; cbn [orb map].
    + rewrite Hf. reflexivity.
    + rewrite IH. destruct (existsb (String.eqb key) (map stakeAddress r));
        reflexivity.
Qed.

Lemma addDelegation_keys stakes event :
  map stakeAddress (addDelegation stakes event)
  = addKey (map stakeAddress stakes) (address event).
Proof. unfold addDelegation. apply updateAddress_addKey. reflexivity. Qed.

Lemma addUnbond_keys stakes event :
  map stakeAddress (addUnbond stakes event)
  = addKey (map stakeAddress stakes) (address event).
Proof. unfold addUnbond. apply updateAddress_addKey. reflexivity. Qed.

Lemma fold_addDelegation_keys events : forall stakes,
  map stakeAddress (fold_left addDelegation events stakes)
  = fold_left addKey (map address events) (map stakeAddress stakes).
Proof.
  induction events as [|e rest IH]; intros stakes; cbn [fold_left map];
    [reflexivity|].
  rewrite IH, addDelegation_keys. reflexivity.
Qed.

Lemma fold_addUnbond_keys events : forall stakes,
  map stakeAddress (fold_left addUnbond events stakes)
  = fold_left addKey (map address events) (map stakeAddress stakes).
Proof.
  induction events as [|e rest IH]; intros stakes; cbn [fold_left map];
    [reflexivity|].
  rewrite IH, addUnbond_keys. reflexivity.
Qed.

Lemma existsb_without k key keys :
  key <> k ->
  existsb (String.eqb key)
    (List.filter (fun x => negb (String.eqb x k)) keys)
  = existsb (String.eqb key) keys.
Proof.
  intros Hne. induction keys as [|x r IH]; [reflexivity|].
  cbn [List.filter existsb].
  destruct (String.eqb_spec x k) as [->|Hx]; cbn [negb existsb].
  - destruct (String.eqb_spec key k) as [E|_]; [contradiction | exact IH].
  - rewrite IH. reflexivity.
Qed.

Lemma addKey_without k key seen :
  addKey (k :: List.filter (fun x => negb (String.eqb x k)) seen) key
  = k :: List.filter (fun x => negb (String.eqb x k)) (addKey seen key).
Proof.
  unfold addKey. cbn [existsb].
  destruct (String.eqb_spec key k) as [->|Hne]; cbn [orb].
  - destruct (existsb (String.eqb k) seen); [reflexivity|].
    rewrite List.filter_app. cbn [List.filter].
    rewrite String.eqb_refl. cbn [negb]. rewrite app_nil_r. reflexivity.
  - rewrite (existsb_without k key seen Hne).
    destruct (existsb (String.eqb key) seen); [reflexivity|].
    rewrite List.filter_app. cbn [List.filter].
    destruct (String.eqb_spec key k) as [E|_]; [contradiction|]. reflexivity.
Qed.

Lemma fold_addKey_without k keys : forall seen,
  fold_left addKey keys
    (k :: List.filter (fun x => negb (String.eqb x k)) seen)
  = k :: List.filter (fun x => negb (String.eqb x k))
           (fold_left addKey keys seen).
Proof.
  induction keys as [|key rest IH]; intros seen; cbn [fold_left];
    [reflexivity|].
  rewrite addKey_without. apply IH.
Qed.

(** Filling an object key by key lists the keys in the order of their
    first appearance. *)
Lemma fold_addKey_firstSeen keys : fold_left addKey keys [] = firstSeen keys.
Proof.
  induction keys as [|k rest IH]; [reflexivity|].
  cbn [fold_left firstSeen]. rewrite <- IH.
  apply (fold_addKey_without k rest []).
Qed.

Lemma aggregate_keys allDelegations allUnbonds :
  map stakeAddress (aggregate allDelegations allUnbonds)
  = firstSeen (map address (allDelegations ++ allUnbonds)).
Proof.
  rewrite <- fold_addKey_firstSeen.
  unfold aggregate. rewrite map_map. cbn [finish stakeAddress].
  change (map (fun x => stakeAddress x)) with (map stakeAddress).
  rewrite fold_addUnbond_keys, fold_addDelegation_keys.
  rewrite map_app, fold_left_app. reflexivity.
Qed.

(** The sums and the net stake of an aggregated entry. *)
Lemma aggregate_entry allDelegations allUnbonds stake :
  In stake (aggregate allDelegations allUnbonds) ->
  totalDelegated stake = sumFor (stakeAddress stake) allDelegations
  /\ totalUnbonded stake = sumFor (stakeAddress stake) allUnbonds
  /\ netStake stake = sub (sumFor (stakeAddress stake) allDelegations)
                          (sumFor (stakeAddress stake) allUnbonds).
Proof.
  destruct (unbonds_passed allDelegations allUnbonds) as (_ & _ & Htot).
  unfold aggregate. intros Hin.
  apply List.in_map_iff in Hin as (old & <- & Hin).
  destruct (Htot old Hin) as [H1 H2].
  cbn [finish stakeAddress totalDelegated totalUnbonded netStake].
  rewrite H1, H2. split; [reflexivity|]. split; reflexivity.
Qed.

Lemma filter_twice {A : Type} (p q : A -> bool) l :
  List.filter q (List.filter p l) = List.filter (fun x => p x && q x) l.
Proof.
  induction l as [|x r IH]; [reflexivity|]. cbn [List.filter].
  destruct (p x); cbn [List.filter andb]; rewrite IH; reflexivity.
Qed.

Lemma map_filter_key {A B : Type} (f : A -> B) (q : B -> bool) l :
  map f (List.filter (fun x => q (f x)) l) = List.filter q (map f l).
Proof.
  induction l as [|x r IH]; [reflexivity|]. cbn [List.filter map].
  destruct (q (f x)); cbn [map]; rewrite IH; reflexivity.
Qed.

End Aggregation_keys.

(** ** The ranking *)

Section Ranking.
Import JS ValidatorTracker.

Lemma withRanks_ranked stakes : forall index,
  map ranked (withRanks index stakes) = stakes.
Proof.
  induction stakes as [|stake rest IH]; intros index; simpl; [reflexivity|].
  rewrite IH. reflexivity.
Qed.

Lemma withRanks_rank stakes : forall index,
  map rank (withRanks index stakes) = seq (index + 1) (length stakes).
Proof.
  induction stakes as [|stake rest IH]; intros index; simpl; [reflexivity|].
  rewrite IH. replace (S index + 1)%nat with (S (index + 1)) by lia. reflexivity.
Qed.

(** C8, as the code has it.  [topDelegators] holds the first [limit]
    entries of the ranking, numbered from 1; the ranking holds exactly
    the entries with a positive net stake; it is in descending order of
    net stake as the comparator [b.netStake - a.netStake] decides it (no
    entry is followed by one the comparator puts before it); and entries
    with the same net stake stand in the order the aggregation lists
    them.  For addresses written ["0x..."], as the decoders write them,
    that order is the order in which the addresses first appear in the
    events, the delegations before the unbondings: the addresses ranked
    with the net stake [v] are, in this order, the addresses of the
    events whose net stake, the delegated sum minus the unbonded sum, is
    positive and is [v]; no address is compared with another. *)
Theorem topDelegators_order
    (allDelegations allUnbonds : list StakeEvent) (limit : nat) :
  map ranked (topDelegators allDelegations allUnbonds limit)
    = firstn limit (ranking (aggregate allDelegations allUnbonds))
  /\ (length (topDelegators allDelegations allUnbonds limit) <= limit)%nat
  /\ map rank (topDelegators allDelegations allUnbonds limit)
     = seq 1 (length (topDelegators allDelegations allUnbonds limit))
  /\ Permutation (ranking (aggregate allDelegations allUnbonds))
       (List.filter (fun stake => isPositive (netStake stake))
          (aggregate allDelegations allUnbonds))
  /\ Sorted (fun a b => isPositive (sub (netStake b) (netStake a)) = false)
       (ranking (aggregate allDelegations allUnbonds))
  /\ Sorted (fun a b => isPositive (sub (netStake b) (netStake a)) = false)
       (map ranked (topDelegators allDelegations allUnbonds limit))
  /\ (forall v,
        List.filter (fun stake => sameNumber (netStake stake) v)
          (ranking (aggregate allDelegations allUnbonds))
        = List.filter (fun stake => sameNumber (netStake stake) v)
            (List.filter (fun stake => isPositive (netStake stake))
               (aggregate allDelegations allUnbonds)))
  /\ (Forall (fun event => String.prefix "0x" (address event) = true)
        (allDelegations ++ allUnbonds) ->
      map stakeAddress (aggregate allDelegations allUnbonds)
        = firstSeen (map address (allDelegations ++ allUnbonds))
      /\ forall v,
           map stakeAddress
             (List.filter (fun stake => sameNumber (netStake stake) v)
                (ranking (aggregate allDelegations allUnbonds)))
           = List.filter
               (fun key =>
                  isPositive (sub (sumFor key allDelegations)
                                  (sumFor key allUnbonds))
                  && sameNumber (sub (sumFor key allDelegations)
                                     (sumFor key allUnbonds)) v)
               (firstSeen (map address (allDelegations ++ allUnbonds)))).
Proof.
  set (stakes := aggregate allDelegations allUnbonds).
  assert (Hs : Sorted (fun a b => isPositive (sub (netStake b) (netStake a)) = false)
                 (ranking stakes)).
  { unfold ranking.
    apply (sort_sorted (descendingBy netStake) (descendingBy_asym netStake)). }
  assert (Hm : map ranked (topDelegators allDelegations allUnbonds limit)
               = firstn limit (ranking stakes)).
  { unfold topDelegators. apply withRanks_ranked. }
  assert (Hl : length (topDelegators allDelegations allUnbonds limit)
               = length (firstn limit (ranking stakes))).
  { rewrite <- Hm, length_map. reflexivity. }
  split; [exact Hm|].
  split; [rewrite Hl, length_firstn; lia|].
  split; [rewrite Hl; unfold topDelegators; apply (withRanks_rank _ 0%nat)|].
  split; [apply sort_perm|].
  split; [exact Hs|].
  split; [rewrite Hm; apply Sorted_firstn; exact Hs|].
  split; [intros v; apply sort_stable|].
  intros _. split; [apply aggregate_keys|].
  intros v. unfold ranking. rewrite sort_stable, filter_twice.
  rewrite <- aggregate_keys. fold stakes.
  rewrite <- (map_filter_key stakeAddress
                (fun key =>
                   isPositive (sub (sumFor key allDelegations)
                                   (sumFor key allUnbonds))
                   && sameNumber (sub (sumFor key allDelegations)
                                      (sumFor key allUnbonds)) v)).
  f_equal. apply List.filter_ext_in. intros stake Hin.
  destruct (aggregate_entry _ _ _ Hin) as (_ & _ & <-). reflexivity.
Qed.

Lemma topDelegators_order_witness :
  Forall (fun event => String.prefix "0x" (address event) = true)
    ([eventOf addressB (10 ^ 18); eventOf addressA (10 ^ 18)] ++ [])
  /\ map stakeAddress
       (aggregate [eventOf addressB (10 ^ 18); eventOf addressA (10 ^ 18)] [])
     = firstSeen
         (map address
            ([eventOf addressB (10 ^ 18); eventOf addressA (10 ^ 18)] ++ []))
  /\ forall v,
       map stakeAddress
         (List.filter (fun stake => sameNumber (netStake stake) v)
            (ranking
               (aggregate [eventOf addressB (10 ^ 18); eventOf addressA (10 ^ 18)]
                  [])))
       = List.filter
           (fun key =>
              isPositive
                (sub (sumFor key [eventOf addressB (10 ^ 18);
                                  eventOf addressA (10 ^ 18)])
                     (sumFor key []))
              && sameNumber
                   (sub (sumFor key [eventOf addressB (10 ^ 18);
                                     eventOf addressA (10 ^ 18)])
                        (sumFor key [])) v)
           (firstSeen
              (map address
                 ([eventOf addressB (10 ^ 18); eventOf addressA (10 ^ 18)] ++ []))).
Proof.
  assert (H : Forall (fun event => String.prefix "0x" (address event) = true)
                ([eventOf addressB (10 ^ 18); eventOf addressA (10 ^ 18)] ++ []))
    by (repeat constructor).
  split; [exact H|].
  destruct (topDelegators_order
              [eventOf addressB (10 ^ 18); eventOf addressA (10 ^ 18)] [] 10)
    as (_ & _ & _ & _ & _ & _ & _ & Horder).
  exact (Horder H).
Defined.

(** C8 as stated fails on ties.  Address B delegates before address A
    and both end with the same net stake: B is ranked first, though
    A < B as strings. *)
Lemma ties_keep_event_order :
  map (fun r => (rank r, stakeAddress (ranked r), netStake (ranked r)))
    (topDelegators [eventOf addressB (10 ^ 18); eventOf addressA (10 ^ 18)] [] 10)
  = [(1%nat, addressB, numberOfZ 1); (2%nat, addressA, numberOfZ 1)]
  /\ String.ltb addressA addressB = true.
Proof. split; vm_compute; reflexivity. Qed.

(** Descending order, and the cut at [limit]. *)
Example ranking_run :
  map (fun r => (rank r, stakeAddress (ranked r), netStake (ranked r)))
    (topDelegators
       [eventOf addressA (10 ^ 18); eventOf addressB (5 * 10 ^ 18);
        eventOf "0xcc" (3 * 10 ^ 18); eventOf "0xdd" (10 ^ 18)]
       [eventOf "0xdd" (10 ^ 18)] 2)
  = [(1%nat, addressB, numberOfZ 5); (2%nat, "0xcc"%string, numberOfZ 3)].
Proof. vm_compute. reflexivity. Qed.

End Ranking.

(** ** The API key guard *)

Section Api_key.
Import JS.
Context {Delegation : Type}.

Lemma fetchAllValidators_calls stakingApi :
  List.filter isNetworkCall (fst (ValidatorTracker.fetchAllValidators stakingApi))
  = [NetworkCall ValidatorTracker.allValidatorsUrl].
Proof. destruct stakingApi; reflexivity. Qed.

Lemma fetchAllValidators_result stakingApi validators :
  stakingApi = ValidatorTracker.Validators validators ->
  snd (ValidatorTracker.fetchAllValidators stakingApi) = validators.
Proof. intros ->. reflexivity. Qed.

(** C9, as the code has it.  With the API key missing (unset, empty, or
    the placeholder): [fetchDelegationEvents] makes no network call,
    prints its warning and returns the empty list.
    [fetchRecentDelegations] returns the empty list as well and makes no
    Etherscan call, but it has fetched the validator list from the
    staking API by then: that request is the one network call of the
    run, and the message about the key is printed when the list is not
    empty.  Neither operation throws. *)
Theorem missing_key_returns_empty
    (env : option string)
    (continueEvents : string -> list Effect * list EthereumDelegationTracker.ProcessedEvent)
    (stakingApi : ValidatorTracker.ValidatorsResponse)
    (hours : N) (timeRange : string)
    (continueRecent : string -> list ValidatorTracker.Validator
                      -> list Effect * list Delegation) :
  EthereumDelegationTracker.keyNotConfigured
    (EthereumDelegationTracker.etherscanApiKey env) = true ->
  EthereumDelegationTracker.fetchDelegationEvents env continueEvents
    = ([ConsoleWarn
          "⚠️  Etherscan API key not configured. Cannot fetch Ethereum delegation data."],
       [])
  /\ snd (ValidatorTracker.fetchRecentDelegations env stakingApi hours timeRange
            continueRecent) = []
  /\ List.filter isNetworkCall
       (fst (ValidatorTracker.fetchRecentDelegations env stakingApi hours timeRange
               continueRecent))
     = [NetworkCall ValidatorTracker.allValidatorsUrl]
  /\ (snd (ValidatorTracker.fetchAllValidators stakingApi) <> [] ->
      In (ConsoleError
            "❌ ETHERSCAN_API_KEY not configured. This is required to fetch delegation data.")
         (fst (ValidatorTracker.fetchRecentDelegations env stakingApi hours timeRange
                 continueRecent))).
Proof.
  intros Hkey. split.
  - unfold EthereumDelegationTracker.fetchDelegationEvents. rewrite Hkey. reflexivity.
  - unfold ValidatorTracker.fetchRecentDelegations.
    pose proof (fetchAllValidators_calls stakingApi) as Hc.
    destruct (ValidatorTracker.fetchAllValidators stakingApi) as [fetching validators].
    cbn [fst snd] in *. rewrite Hkey.
    destruct validators as [|v rest]; cbn [length Nat.eqb fst snd].
    + split; [reflexivity|]. split.
      * rewrite List.filter_app, Hc. reflexivity.
      * intros H. exfalso. apply H. reflexivity.
    + split; [reflexivity|]. split.
      * rewrite !List.filter_app, Hc. reflexivity.
      * intros _. apply in_or_app. right. apply in_or_app. right. left. reflexivity.
Qed.

End Api_key.

Section Api_key_examples.
Import JS.

Lemma missing_key_returns_empty_witness :
  EthereumDelegationTracker.keyNotConfigured
    (EthereumDelegationTracker.etherscanApiKey None) = true /\
  (EthereumDelegationTracker.fetchDelegationEvents None (fun _ => ([], []))
    = ([ConsoleWarn
          "⚠️  Etherscan API key not configured. Cannot fetch Ethereum delegation data."],
       [])
  /\ snd (ValidatorTracker.fetchRecentDelegations None
            (ValidatorTracker.Validators
               [{| ValidatorTracker.id := 137; ValidatorTracker.name := None |}])
            48 "Time range" (fun _ _ => ([], @nil unit))) = []
  /\ List.filter isNetworkCall
       (fst (ValidatorTracker.fetchRecentDelegations None
               (ValidatorTracker.Validators
                  [{| ValidatorTracker.id := 137; ValidatorTracker.name := None |}])
               48 "Time range" (fun _ _ => ([], @nil unit))))
     = [NetworkCall ValidatorTracker.allValidatorsUrl]
  /\ (snd (ValidatorTracker.fetchAllValidators
             (ValidatorTracker.Validators
                [{| ValidatorTracker.id := 137; ValidatorTracker.name := None |}]))
        <> [] ->
      In (ConsoleError
            "❌ ETHERSCAN_API_KEY not configured. This is required to fetch delegation data.")
         (fst (ValidatorTracker.fetchRecentDelegations None
                 (ValidatorTracker.Validators
                    [{| ValidatorTracker.id := 137; ValidatorTracker.name := None |}])
                 48 "Time range" (fun _ _ => ([], @nil unit)))))).
Proof.
  split; [reflexivity|].
  apply (missing_key_returns_empty (Delegation := unit) None (fun _ => ([], []))
           (ValidatorTracker.Validators
              [{| ValidatorTracker.id := 137; ValidatorTracker.name := None |}])
           48 "Time range" (fun _ _ => ([], @nil unit))).
  reflexivity.
Defined.

(** C9 as stated fails for [fetchRecentDelegations].  With no API key in
    the environment the run still sends a request, to the staking API,
    before it looks at the key; the lines about the key come after it. *)
Lemma missing_key_found_after_a_request :
  EthereumDelegationTracker.keyNotConfigured
    (EthereumDelegationTracker.etherscanApiKey None) = true
  /\ ValidatorTracker.fetchRecentDelegations None
       (ValidatorTracker.Validators
          [{| ValidatorTracker.id := 137; ValidatorTracker.name := None |}])
       48 "Time range" (fun _ _ => ([], @nil unit))
     = ([ConsoleLog (String (ascii_of_nat 10)
                       "Fetching new delegations in the last 48 hours...");
         ConsoleLog "Time range";
         ConsoleLog ("⏳ Querying Ethereum for ShareMinted events..."
                     +:+ String (ascii_of_nat 10) "");
         ConsoleLog "Fetching all validators...";
         NetworkCall "https://staking-api.polygon.technology/api/v2/validators";
         ConsoleLog "Found 1 validators";
         ConsoleError
           "❌ ETHERSCAN_API_KEY not configured. This is required to fetch delegation data.";
         ConsoleError
           "Please set ETHERSCAN_API_KEY in your .env file or environment variables."],
        []).
Proof. split; vm_compute; reflexivity. Qed.

(** When the staking API fails, the run ends before the guard: no line
    about the key is printed. *)
Example staking_api_down :
  ValidatorTracker.fetchRecentDelegations None
    (ValidatorTracker.RequestError "timeout of 15000ms exceeded")
    48 "Time range" (fun _ _ => ([], @nil unit))
  = ([ConsoleLog (String (ascii_of_nat 10)
                    "Fetching new delegations in the last 48 hours...");
      ConsoleLog "Time range";
      ConsoleLog ("⏳ Querying Ethereum for ShareMinted events..."
                  +:+ String (ascii_of_nat 10) "");
      ConsoleLog "Fetching all validators...";
      NetworkCall "https://staking-api.polygon.technology/api/v2/validators";
      ConsoleError "❌ Error fetching validators: timeout of 15000ms exceeded"],
     []).
Proof. vm_compute. reflexivity. Qed.

End Api_key_examples.

(** ** padValidatorId *)

Section Hex_facts.
Import JS.










Lemma readRadix_app radix s : forall acc t,
  readRadix radix acc (s +:+ t) =
  match readRadix radix acc s with
  | Some a => readRadix radix a t
  | None => None
  end.
Proof.
  induction s as [|c r IH]; intros acc t; simpl; [reflexivity|].
  destruct (hexValue c) as [d|]; [|reflexivity].
  destruct (d <? radix)%N; [apply IH | reflexivity].
Qed.




End Hex_facts.

Section Validator_topic.
Import JS EthereumDelegationTracker.





(** The topic of validator 137 is the one the example log carries. *)
Example padValidatorId_137 :
  nth_error (topics oneByteLog) 1 = Some (padValidatorId 137).
Proof. vm_compute. reflexivity. Qed.

End Validator_topic.

(** ** getDelegationSummary and the processed events *)

Section BigInt_strings.
Import JS.

Lemma digit_is_hex c d : digitValue c = Some d -> hexValue c = Some d /\ (d < 10)%N.
Proof.
  destruct c as [[] [] [] [] [] [] [] []]; vm_compute; intros [= <-]; split; reflexivity.
Qed.

Lemma readRadix_decimal s : forall acc v,
  readDecimal acc s = Some v -> readRadix 10 acc s = Some v.
Proof.
  induction s as [|c r IH]; intros acc v H; simpl in *; [exact H|].
  destruct (digitValue c) as [d|] eqn:E; [|discriminate].
  destruct (digit_is_hex _ _ E) as [-> Hd].
  apply N.ltb_lt in Hd. rewrite Hd. apply IH. exact H.
Qed.

Lemma digit_not_space c d : digitValue c = Some d -> isWhiteSpace c = false.
Proof.
  intros H. destruct (digit_is_hex _ _ H) as [Hh _].
  exact (hex_digit_not_space _ _ Hh).
Qed.

Lemma trimEndWS_digits s : forall acc v,
  readDecimal acc s = Some v -> trimEndWS s = s.
Proof.
  induction s as [|c r IH]; intros acc v H; simpl in *; [reflexivity|].
  destruct (digitValue c) as [d|] eqn:E; [|discriminate].
  rewrite (IH _ _ H), (digit_not_space _ _ E). reflexivity.
Qed.

(** A decimal numeral starts with a digit, and with ["0"] only when it is
    ["0"]. *)
Lemma natToString_head n :
  natToString n = "0"%string
  \/ exists c r d, natToString n = String c r /\ digitValue c = Some d /\ d <> 0%N.
Proof.
  assert (Hd : unorm (N.to_uint n) = N.to_uint n).
  { rewrite <- DecimalN.Unsigned.to_of, DecimalN.Unsigned.of_to. reflexivity. }
  rewrite natToString_unfold.
  destruct (N.to_uint n) eqn:E;
    try (right; simpl; do 3 eexists; split; [reflexivity|]; split;
         [vm_compute; reflexivity | discriminate]).
  - exfalso. destruct n; simpl in E; [discriminate|].
    revert E. apply DecimalPos.Unsigned.to_uint_nonnil.
  - left. rewrite unorm_D0 in Hd. unfold unorm in Hd.
    destruct (nzhead u) eqn:E'; try discriminate.
    + injection Hd as <-. reflexivity.
    + exfalso. exact (nzhead_nonzero _ _ E').
Qed.

Lemma bigIntOfString_natToString n : bigIntOfString (natToString n) = Some (Z.of_N n).
Proof.
  pose proof (readDecimal_natToString n) as Hr.
  pose proof (natToString_nonempty n) as Hne.
  unfold bigIntOfString.
  destruct (natToString_head n) as [H0 | (c & r & d & Hs & Hc & Hd)].
  - rewrite H0 in *. injection Hr as <-. reflexivity.
  - rewrite Hs in *.
    assert (Hw : isWhiteSpace c = false) by exact (digit_not_space _ _ Hc).
    cbn [trimStartWS]. rewrite Hw.
    rewrite (trimEndWS_digits _ _ _ Hr).
    apply readRadix_decimal in Hr.
    destruct c as [[] [] [] [] [] [] [] []]; try discriminate;
      try (exfalso; apply Hd; vm_compute in Hc; congruence);
      cbn [isEmpty]; rewrite Hr; reflexivity.
Qed.

(** [BigInt(z.toString())] is [z]. *)
Lemma bigIntOfString_bigIntToString z : bigIntOfString (bigIntToString z) = Some z.
Proof.
  destruct z as [|p|p].
  - reflexivity.
  - change (bigIntToString (Zpos p)) with (natToString (Npos p)).
    apply bigIntOfString_natToString.
  - change (bigIntToString (Zneg p)) with (String "-" (natToString (Npos p))).
    pose proof (readDecimal_natToString (Npos p)) as Hr.
    pose proof (natToString_nonempty (Npos p)) as Hne.
    unfold bigIntOfString. cbn [trimStartWS]. change (isWhiteSpace "-") with false.
    cbv iota. cbn [trimEndWS]. change (isWhiteSpace "-") with false. cbn [andb].
    rewrite (trimEndWS_digits _ _ _ Hr), Hne.
    rewrite (readRadix_decimal _ _ _ Hr). reflexivity.
Qed.

End BigInt_strings.

Section Summary.
Import JS EthereumDelegationTracker.

(** What [processOne] writes for the amount: the decimal numeral of the
    integer it decoded, and its [formatUnits] form. *)
Lemma processOne_amount getBlockTimestamp cutoffTimestamp event e :
  processOne getBlockTimestamp cutoffTimestamp event = Pushed e ->
  exists a, bigIntOfString (slice 0 66 (data event)) = Some a
            /\ amountWei e = bigIntToString a
            /\ amountPol e = formatUnits a 18.
Proof.
  unfold processOne. intros H.
  destruct (ltb _ cutoffTimestamp); [discriminate|].
  destruct (nth_error (topics event) 2); [|discriminate].
  destruct (bigIntOfString _) as [a|]; [|discriminate].
  injection H as <-. exists a. split; [reflexivity|]. split; reflexivity.
Qed.

Lemma processDelegationEvents_In getBlockTimestamp events cutoffTimestamp e :
  In e (processDelegationEvents getBlockTimestamp events cutoffTimestamp) ->
  exists event, In event events
                /\ processOne getBlockTimestamp cutoffTimestamp event = Pushed e.
Proof.
  unfold processDelegationEvents. intros H.
  apply (Permutation_in _ (sort_perm _ _)) in H.
  apply in_flat_map in H as (event & Hin & Hp).
  exists event. split; [exact Hin|].
  destruct (processOne getBlockTimestamp cutoffTimestamp event); simpl in Hp;
    try contradiction.
  destruct Hp as [<-|[]]. reflexivity.
Qed.

Lemma totalDelegatedWei_sum events : forall total,
  (forall e, In e events -> bigIntOfString (amountWei e) = Some (weiOf e)) ->
  fold_left
    (fun total event =>
       match total, bigIntOfString (amountWei event) with
       | Some t, Some a => Some (t + a)
       | _, _ => None
       end)
    events (Some total)
  = Some (total + fold_right Z.add 0 (map weiOf events)).
Proof.
  induction events as [|e rest IH]; intros total H; simpl.
  - f_equal. lia.
  - rewrite (H e (or_introl eq_refl)).
    rewrite IH by (intros e' He'; apply H; right; exact He').
    f_equal. lia.
Qed.

(** [getDelegationSummary] on the events [processDelegationEvents]
    returns: no conversion throws, and the total printed is the exact
    integer sum of the decoded amounts, in base units, formatted by
    [formatUnits]; every event carries its amount as the decimal numeral
    [amountWei] and as the [formatUnits] string [amountPol]. *)
Theorem getDelegationSummary_exact
    (getBlockTimestamp : string -> number) (logs : list EtherscanLog)
    (cutoffTimestamp : number) :
  exists amounts : list Z,
    map amountWei (processDelegationEvents getBlockTimestamp logs cutoffTimestamp)
      = map bigIntToString amounts
    /\ map amountPol (processDelegationEvents getBlockTimestamp logs cutoffTimestamp)
       = map (fun a => formatUnits a 18) amounts
    /\ getDelegationSummary
         (processDelegationEvents getBlockTimestamp logs cutoffTimestamp)
       = Some (if (length amounts =? 0)%nat then "Total Delegated: 0 POL"
               else "Total Delegated: " +:+ formatUnits (fold_right Z.add 0 amounts) 18
                    +:+ " POL (" +:+ natToString (N.of_nat (length amounts))
                    +:+ " events)")%string.
Proof.
  set (events := processDelegationEvents getBlockTimestamp logs cutoffTimestamp).
  assert (He : forall e, In e events ->
            amountWei e = bigIntToString (weiOf e)
            /\ amountPol e = formatUnits (weiOf e) 18
            /\ bigIntOfString (amountWei e) = Some (weiOf e)).
  { intros e Hin.
    apply processDelegationEvents_In in Hin as (event & _ & Hp).
    apply processOne_amount in Hp as (a & _ & Hw & Hpol).
    assert (Hv : weiOf e = a).
    { unfold weiOf. rewrite Hw, bigIntOfString_bigIntToString. reflexivity. }
    rewrite Hv. split; [exact Hw|]. split; [exact Hpol|].
    rewrite Hw. apply bigIntOfString_bigIntToString. }
  exists (map weiOf events). rewrite !map_map, length_map.
  split; [apply map_ext_in; intros e Hin; apply He; exact Hin|].
  split; [apply map_ext_in; intros e Hin; apply He; exact Hin|].
  unfold getDelegationSummary.
  destruct (length events =? 0)%nat; [reflexivity|].
  unfold totalDelegatedWei.
  rewrite totalDelegatedWei_sum by (intros e Hin; apply He; exact Hin).
  reflexivity.
Qed.

(** The summary of the two-word log: one event of 5 tokens. *)
Example getDelegationSummary_run :
  getDelegationSummary (processDelegationEvents (fun _ => NaN) [twoWordLog] NaN)
  = Some "Total Delegated: 5 POL (1 events)"%string.
Proof. vm_compute. reflexivity. Qed.

End Summary.

Section FormatUnits_more.
Import JS EthereumDelegationTracker.

Lemma parseUnits18_formatUnits v :
  0 <= v -> parseUnits18 (formatUnits v 18) = Some v.
Proof.
  intros Hv.
  assert (Hi : 0 <= v / 10 ^ 18) by (apply Z.div_pos; lia).
  assert (Hf : 0 <= v mod 10 ^ 18 < 10 ^ 18) by (apply Z.mod_pos_bound; lia).
  set (I := Z.to_N (v / 10 ^ 18)).
  set (F := Z.to_N (v mod 10 ^ 18)).
  assert (HF : (F < 10 ^ 18)%N) by (unfold F; lia).
  destruct (fraction_digits F HF) as [Hlen Hread].
  set (digits := padStart0 18 (natToString F)) in *.
  assert (Hpad : padEnd0 18 (trimEnd0 digits) = digits).
  { rewrite <- Hlen. apply padEnd0_trimEnd0. }
  rewrite formatUnits_nonneg by exact Hv. fold F I digits. cbv zeta.
  unfold parseUnits18.
  destruct (cutAtDot_digits _ _ _ (readDecimal_natToString I)) as [Hs1 Hs2].
  assert (Hsplit :
    cutAtDot
      (natToString I +:+
       (if isEmpty (trimEnd0 digits) then "" else "." +:+ trimEnd0 digits))
    = (natToString I,
       if isEmpty (trimEnd0 digits) then None else Some (trimEnd0 digits))).
  { destruct (isEmpty (trimEnd0 digits)).
    - rewrite app_empty_r. exact Hs1.
    - apply Hs2. }
  rewrite Hsplit.
  replace (match (if isEmpty (trimEnd0 digits) then None else Some (trimEnd0 digits))
           with Some f => f | None => EmptyString end)
    with (trimEnd0 digits).
  2:{ destruct (isEmpty (trimEnd0 digits)) eqn:E; [|reflexivity].
      apply isEmpty_true in E. rewrite E. reflexivity. }
  rewrite natToString_nonempty, readDecimal_natToString, Hpad, Hread.
  assert (Hle : (String.length (trimEnd0 digits) <=? 18)%nat = true).
  { apply Nat.leb_le. rewrite <- Hlen. apply length_trimEnd0. }
  rewrite Hle. f_equal. unfold I, F.
  rewrite !Z2N.id by lia.
  pose proof (Z.div_mod v (10 ^ 18)). lia.
Qed.

Lemma formatUnits_negative v :
  v < 0 -> formatUnits v 18 = String "-" (formatUnits (- v) 18).
Proof.
  intros Hv. unfold formatUnits.
  assert (H1 : (v <? 0) = true) by (apply Z.ltb_lt; exact Hv).
  assert (H2 : (- v <? 0) = false) by (apply Z.ltb_ge; lia).
  rewrite H1, H2. reflexivity.
Qed.

Lemma formatUnits_head v :
  0 <= v -> exists c r d, formatUnits v 18 = String c r /\ digitValue c = Some d.
Proof.
  intros Hv. rewrite formatUnits_nonneg by exact Hv.
  destruct (natToString_head (Z.to_N (v / 10 ^ 18))) as [H | (c & r & d & H & Hc & _)];
    rewrite H; cbn [String.append].
  - do 3 eexists. split; [reflexivity|]. vm_compute. reflexivity.
  - do 3 eexists. split; [reflexivity | exact Hc].
Qed.

(** [formatUnits] prints two amounts the same way only when they are the
    same amount, negative amounts included; a negative amount is printed
    as a minus sign before the print of its absolute value. *)
Theorem formatUnits_injective (a b : Z) :
  (formatUnits a 18 = formatUnits b 18 <-> a = b)
  /\ formatUnits (- Z.abs a) 18
     = if a =? 0 then "0"%string else String "-" (formatUnits (Z.abs a) 18).
Proof.
  split.
  - split; [|intros ->; reflexivity]. intros H.
    destruct (Z.lt_ge_cases a 0) as [Ha|Ha], (Z.lt_ge_cases b 0) as [Hb|Hb].
    + rewrite (formatUnits_negative a Ha), (formatUnits_negative b Hb) in H.
      injection H as H.
      assert (Some (- a) = Some (- b)) as E; [|injection E; lia].
      rewrite <- (parseUnits18_formatUnits (- a)), <- (parseUnits18_formatUnits (- b))
        by lia.
      rewrite H. reflexivity.
    + exfalso. rewrite (formatUnits_negative a Ha) in H.
      destruct (formatUnits_head b Hb) as (c & r & d & E & Hc).
      rewrite E in H. injection H as <- _. discriminate.
    + exfalso. rewrite (formatUnits_negative b Hb) in H.
      destruct (formatUnits_head a Ha) as (c & r & d & E & Hc).
      rewrite E in H. injection H as -> _. discriminate.
    + assert (Some a = Some b) as E; [|injection E; auto].
      rewrite <- (parseUnits18_formatUnits a), <- (parseUnits18_formatUnits b) by lia.
      rewrite H. reflexivity.
  - destruct (Z.eqb_spec a 0) as [->|Hne]; [reflexivity|].
    rewrite formatUnits_negative by lia. rewrite Z.opp_involutive. reflexivity.
Qed.

End FormatUnits_more.

Section Process_invariants.
Import JS EthereumDelegationTracker.

Lemma length_flat_map_pushed getBlockTimestamp cutoffTimestamp events :
  (length (flat_map (fun event =>
             pushed (processOne getBlockTimestamp cutoffTimestamp event)) events)
   <= length events)%nat.
Proof.
  induction events as [|event rest IH]; simpl; [lia|].
  rewrite List.length_app.
  destruct (processOne getBlockTimestamp cutoffTimestamp event); simpl; lia.
Qed.

(** [processDelegationEvents]: what holds of every event it returns. No
    event is older than the cutoff; each comes from one of the logs, whose
    transaction hash it carries; its address is in lower case; and there
    are never more events than logs. *)
Theorem processDelegationEvents_invariants
    (getBlockTimestamp : string -> number) (logs : list EtherscanLog)
    (cutoffTimestamp : number) :
  (length (processDelegationEvents getBlockTimestamp logs cutoffTimestamp)
   <= length logs)%nat
  /\ Forall (fun e =>
       ltb (timestamp e) cutoffTimestamp = false
       /\ toLowerCase (user e) = user e
       /\ exists log, In log logs
                      /\ eventTransactionHash e = transactionHash log
                      /\ eventBlockNumber e = parseInt16 (Some (blockNumber log)))
      (processDelegationEvents getBlockTimestamp logs cutoffTimestamp).
Proof.
  split.
  - unfold processDelegationEvents.
    rewrite (Permutation_length (sort_perm _ _)).
    apply length_flat_map_pushed.
  - apply List.Forall_forall. intros e Hin.
    apply processDelegationEvents_In in Hin as (log & Hin & Hp).
    unfold processOne in Hp.
    destruct (ltb _ cutoffTimestamp) eqn:Hc; [discriminate|].
    destruct (nth_error (topics log) 2); [|discriminate].
    destruct (bigIntOfString _); [|discriminate].
    injection Hp as <-. cbn [timestamp user eventTransactionHash eventBlockNumber].
    split; [exact Hc|]. split; [apply toLowerCase_idem|].
    exists log. split; [exact Hin|]. split; reflexivity.
Qed.

End Process_invariants.

(** ** rpcCall, fetchLogs and getBlockFromTimestamp *)

Section RpcCall_retries.
Import JS DirectRPCDelegatorFetcher.
Variable provider : Provider.



End RpcCall_retries.

Section RpcCall_example.
Import JS DirectRPCDelegatorFetcher.


End RpcCall_example.

Section FetchLogs_errors.
Import JS DirectRPCDelegatorFetcher.
Variable provider : Provider.



End FetchLogs_errors.

Section FetchLogs_errors_example.
Import JS DirectRPCDelegatorFetcher.


End FetchLogs_errors_example.

Section FetchLogs_batch_count.
Import JS DirectRPCDelegatorFetcher.
Variable provider : Provider.
Hypothesis HnoErrors : forall n endpoint a b,
  exists logs, provider n endpoint a b = Result logs.

Lemma batchRanges_nil a b bs : 1 <= bs -> b < a -> batchRanges a b bs = [].
Proof.
  intros Hbs H. unfold batchRanges.
  replace (Z.to_nat ((b - a + bs) / bs)) with 0%nat; [reflexivity|].
  assert ((b - a + bs) / bs <= 0); [|lia].
  apply Z.lt_succ_r. apply Z.div_lt_upper_bound; lia.
Qed.

Lemma batchRanges_cons a b bs :
  1 <= bs -> a <= b ->
  batchRanges a b bs
  = (a, Z.min (a + bs - 1) b) :: batchRanges (Z.min (a + bs - 1) b + 1) b bs.
Proof.
  intros Hbs H. unfold batchRanges.
  destruct (Z.le_gt_cases b (a + bs - 1)) as [Hlast | Hmore].
  - replace (Z.min (a + bs - 1) b) with b by lia.
    replace ((b - a + bs) / bs) with 1
      by (apply Z.div_unique with (r := b - a); lia).
    replace ((b - (b + 1) + bs) / bs) with 0
      by (apply Z.div_unique with (r := bs - 1); lia).
    change (Z.to_nat 1) with 1%nat. change (Z.to_nat 0) with 0%nat.
    cbn [seq map]. f_equal. f_equal; lia.
  - replace (Z.min (a + bs - 1) b) with (a + bs - 1) by lia.
    replace (a + bs - 1 + 1) with (a + bs) by lia.
    replace (b - (a + bs) + bs) with (b - a) by lia.
    replace ((b - a + bs) / bs) with ((b - a) / bs + 1)
      by (rewrite <- Z.div_add by lia; f_equal; lia).
    assert (0 <= (b - a) / bs) by (apply Z.div_pos; lia).
    rewrite Z2Nat.inj_add by lia. rewrite Nat.add_comm.
    change (Z.to_nat 1) with 1%nat. cbn [Nat.add seq map].
    f_equal; [f_equal; lia|].
    rewrite <- seq_shift, map_map. apply map_ext. intros k.
    f_equal; [|f_equal]; lia.
Qed.

Lemma fetchLoop_batches : forall fuel this currentFrom toBlock batchSize allLogs,
  1 <= batchSize ->
  (length (batchRanges currentFrom toBlock batchSize) < fuel)%nat ->
  exists this' logs,
    fetchLoop provider fuel this currentFrom toBlock batchSize allLogs
      = Some (this', Returned logs)
    /\ queries this' = queries this ++ batchRanges currentFrom toBlock batchSize
    /\ posts this'
       = (posts this + length (batchRanges currentFrom toBlock batchSize))%nat
    /\ rpcEndpoint this' = rpcEndpoint this.
Proof.
  induction fuel as [|fuel IH]; intros this cf to bs acc Hbs Hfuel; [lia|].
  destruct (Z.le_gt_cases cf to) as [Hle | Hgt].
  - rewrite (batchRanges_cons cf to bs Hbs Hle) in *. cbn [length] in Hfuel.
    destruct (fetchLoop_round provider HnoErrors fuel this cf to bs acc Hle)
      as [logs Hr].
    rewrite Hr.
    match goal with |- context [fetchLoop provider fuel ?t ?c to bs ?l] =>
      destruct (IH t c to bs l Hbs) as (this' & logs' & H1 & H2 & H3 & H4); [lia|]
    end.
    exists this', logs'. split; [exact H1|].
    cbn [queries posts rpcEndpoint] in H2, H3, H4.
    split; [rewrite H2, <- app_assoc; reflexivity|].
    split; [rewrite H3; cbn [length]; lia | exact H4].
  - rewrite (batchRanges_nil cf to bs Hbs Hgt). cbn [fetchLoop].
    destruct (Z.leb_spec cf to); [lia|].
    exists this, acc. split; [reflexivity|].
    split; [rewrite app_nil_r; reflexivity|]. split; [cbn [length]; lia | reflexivity].
Qed.

Lemma batchRanges_nth a b bs k x y :
  nth_error (batchRanges a b bs) k = Some (x, y) ->
  (k < Z.to_nat ((b - a + bs) / bs))%nat
  /\ x = a + Z.of_nat k * bs
  /\ y = Z.min (a + (Z.of_nat k + 1) * bs - 1) b.
Proof.
  intros H.
  assert (Hk : (k < Z.to_nat ((b - a + bs) / bs))%nat).
  { assert (Hs : nth_error (batchRanges a b bs) k <> None) by congruence.
    apply nth_error_Some in Hs. unfold batchRanges in Hs.
    rewrite length_map, length_seq in Hs. exact Hs. }
  split; [exact Hk|].
  apply (nth_error_nth _ _ (a + Z.of_nat 0 * bs,
                            Z.min (a + (Z.of_nat 0 + 1) * bs - 1) b)) in H.
  unfold batchRanges in H.
  rewrite (map_nth (fun k => (a + Z.of_nat k * bs,
                              Z.min (a + (Z.of_nat k + 1) * bs - 1) b))) in H.
  rewrite seq_nth in H by exact Hk. cbn [Nat.add] in H.
  injection H as <- <-. split; reflexivity.
Qed.

Lemma batchRanges_step a b bs k x y c d :
  1 <= bs ->
  nth_error (batchRanges a b bs) k = Some (x, y) ->
  nth_error (batchRanges a b bs) (S k) = Some (c, d) ->
  y - x + 1 = bs /\ c = y + 1 /\ c <= d.
Proof.
  intros Hbs Hx Hc.
  apply batchRanges_nth in Hx as (_ & -> & ->).
  apply batchRanges_nth in Hc as (Hk & -> & ->).
  pose proof (Z.mul_div_le (b - a + bs) bs ltac:(lia)) as Hq.
  assert (Hq2 : Z.of_nat k + 2 <= (b - a + bs) / bs) by lia.
  assert (Hin : (Z.of_nat k + 2) * bs <= b - a + bs) by nia.
  rewrite Nat2Z.inj_succ. nia.
Qed.

Lemma batchRanges_last a b bs :
  1 <= bs -> a <= b ->
  snd (List.last (batchRanges a b bs) (0, 0)) = b.
Proof.
  intros Hbs Hle. unfold batchRanges.
  pose proof (Z.mul_div_le (b - a + bs) bs ltac:(lia)) as Hq.
  pose proof (Z.mul_succ_div_gt (b - a + bs) bs ltac:(lia)) as Hq'.
  assert (Hpos : 1 <= (b - a + bs) / bs) by nia.
  destruct (Z.to_nat ((b - a + bs) / bs)) as [|m] eqn:E; [lia|].
  rewrite seq_S, map_app. cbn [map Nat.add]. rewrite last_last. cbn [snd].
  assert (Hm : Z.of_nat m + 1 = (b - a + bs) / bs) by lia.
  rewrite Hm. nia.
Qed.

(** A scan that meets no provider error asks for the range batch by
    batch.  For block numbers in the range where Number arithmetic is
    exact and every positive batch size, [fetchLogs] returns after one
    POST per batch, the batches being consecutive ranges of [batchSize]
    blocks (the last one shorter) that start at [fromBlock] and end at
    [toBlock]; the endpoint is not changed.  An empty range costs no
    POST. *)
Theorem fetchLogs_batch_ranges
    (this : Fetcher) (fromBlock toBlock batchSize : Z) (fuel : nat) :
  0 <= fromBlock ->
  toBlock + batchSize <= 2 ^ 53 ->
  1 <= batchSize ->
  (Z.to_nat ((toBlock - fromBlock + batchSize) / batchSize) < fuel)%nat ->
  exists this' logs,
    fetchLogs provider fuel this fromBlock toBlock batchSize
      = Some (this', Returned logs)
    /\ queries this' = queries this ++ batchRanges fromBlock toBlock batchSize
    /\ posts this'
       = (posts this + Z.to_nat ((toBlock - fromBlock + batchSize) / batchSize))%nat
    /\ rpcEndpoint this' = rpcEndpoint this
    /\ (toBlock < fromBlock -> batchRanges fromBlock toBlock batchSize = [])
    /\ (fromBlock <= toBlock ->
        exists rest,
          batchRanges fromBlock toBlock batchSize
          = (fromBlock, Z.min (fromBlock + batchSize - 1) toBlock) :: rest
          /\ snd (List.last (batchRanges fromBlock toBlock batchSize) (0, 0)) = toBlock)
    /\ (forall k a b c d,
          nth_error (batchRanges fromBlock toBlock batchSize) k = Some (a, b) ->
          nth_error (batchRanges fromBlock toBlock batchSize) (S k) = Some (c, d) ->
          b - a + 1 = batchSize /\ c = b + 1 /\ c <= d).
Proof.
  intros _ _ Hbs Hfuel.
  assert (Hlen : length (batchRanges fromBlock toBlock batchSize)
                 = Z.to_nat ((toBlock - fromBlock + batchSize) / batchSize)).
  { unfold batchRanges. rewrite length_map, length_seq. reflexivity. }
  rewrite <- Hlen in *.
  destruct (fetchLoop_batches fuel this fromBlock toBlock batchSize [] Hbs Hfuel)
    as (this' & logs & H1 & H2 & H3 & H4).
  exists this', logs. split; [exact H1|]. split; [exact H2|].
  split; [exact H3|]. split; [exact H4|].
  split; [apply batchRanges_nil; exact Hbs|].
  split.
  - intros Hle. eexists. split; [apply batchRanges_cons; assumption|].
    apply batchRanges_last; assumption.
  - intros k a b c d Ha Hc. apply (batchRanges_step _ _ _ _ _ _ _ _ Hbs Ha Hc).
Qed.

End FetchLogs_batch_count.

Section FetchLogs_batch_example.
Import JS DirectRPCDelegatorFetcher.

(** Blocks 100 to 130 in batches of 7: five POSTs, the last for 128 to
    130. *)
Lemma fetchLogs_batch_ranges_witness :
  0 <= 100
  /\ 130 + 7 <= 2 ^ 53
  /\ 1 <= 7
  /\ (Z.to_nat ((130 - 100 + 7) / 7) < 6)%nat
  /\ exists this' logs,
       fetchLogs generous 6 newFetcher 100 130 7 = Some (this', Returned logs)
       /\ queries this' = queries newFetcher ++ batchRanges 100 130 7
       /\ posts this'
          = (posts newFetcher + Z.to_nat ((130 - 100 + 7) / 7))%nat
       /\ rpcEndpoint this' = rpcEndpoint newFetcher
       /\ (130 < 100 -> batchRanges 100 130 7 = [])
       /\ (100 <= 130 ->
           exists rest,
             batchRanges 100 130 7 = (100, Z.min (100 + 7 - 1) 130) :: rest
             /\ snd (List.last (batchRanges 100 130 7) (0, 0)) = 130)
       /\ (forall k a b c d,
             nth_error (batchRanges 100 130 7) k = Some (a, b) ->
             nth_error (batchRanges 100 130 7) (S k) = Some (c, d) ->
             b - a + 1 = 7 /\ c = b + 1 /\ c <= d).
Proof.
  split; [lia|]. split; [vm_compute; discriminate|]. split; [lia|].
  split; [vm_compute; lia|].
  apply (fetchLogs_batch_ranges generous generous_no_errors newFetcher 100 130 7 6).
  - lia.
  - vm_compute. discriminate.
  - lia.
  - vm_compute. lia.
Defined.

Example batchRanges_run :
  batchRanges 100 130 7
  = [(100, 106); (107, 113); (114, 120); (121, 127); (128, 130)].
Proof. vm_compute. reflexivity. Qed.

End FetchLogs_batch_example.

Section Block_estimate.
Import JS DirectRPCDelegatorFetcher.

(** [getBlockFromTimestamp], for block numbers and timestamps in the
    range where Number arithmetic is exact: the estimate is never before
    block 1 and never after the current block; it is the current block
    for a target at or after the current block's time; a later target
    never gives an earlier block; and the estimate steps back one block
    per 12 seconds, rounded down, never further than the time
    difference allows. *)
Theorem getBlockFromTimestamp_bounds
    (currentBlock currentTimestamp targetTimestamp : Z) :
  1 <= currentBlock <= 2 ^ 53 ->
  0 <= targetTimestamp ->
  currentTimestamp <= 2 ^ 53 ->
  1 <= getBlockFromTimestamp currentBlock currentTimestamp targetTimestamp
  /\ getBlockFromTimestamp currentBlock currentTimestamp targetTimestamp
     <= currentBlock
  /\ (currentTimestamp <= targetTimestamp ->
      getBlockFromTimestamp currentBlock currentTimestamp targetTimestamp
      = currentBlock)
  /\ (forall later, targetTimestamp <= later ->
        getBlockFromTimestamp currentBlock currentTimestamp targetTimestamp
        <= getBlockFromTimestamp currentBlock currentTimestamp later)
  /\ (targetTimestamp < currentTimestamp ->
      12 * (currentBlock
            - getBlockFromTimestamp currentBlock currentTimestamp targetTimestamp)
      <= currentTimestamp - targetTimestamp)
  /\ (targetTimestamp < currentTimestamp ->
      1 < getBlockFromTimestamp currentBlock currentTimestamp targetTimestamp ->
      currentTimestamp - targetTimestamp
      < 12 * (currentBlock
              - getBlockFromTimestamp currentBlock currentTimestamp targetTimestamp)
        + 12).
Proof.
  intros [Hb _] _ _. unfold getBlockFromTimestamp.
  assert (Hdiv : forall t, t < currentTimestamp -> 0 <= (currentTimestamp - t) / 12)
    by (intros t Ht; apply Z.div_pos; lia).
  split; [|split; [|split; [|split; [|split]]]].
  - destruct (Z.geb_spec targetTimestamp currentTimestamp); lia.
  - destruct (Z.geb_spec targetTimestamp currentTimestamp); [lia|].
    specialize (Hdiv targetTimestamp). lia.
  - intros H. destruct (Z.geb_spec targetTimestamp currentTimestamp); lia.
  - intros later Hl.
    destruct (Z.geb_spec targetTimestamp currentTimestamp),
             (Z.geb_spec later currentTimestamp); try lia.
    + specialize (Hdiv targetTimestamp). lia.
    + assert ((currentTimestamp - later) / 12 <= (currentTimestamp - targetTimestamp) / 12)
        by (apply Z.div_le_mono; lia).
      lia.
  - intros Ht. destruct (Z.geb_spec targetTimestamp currentTimestamp); [lia|].
    pose proof (Z.mul_div_le (currentTimestamp - targetTimestamp) 12).
    specialize (Hdiv targetTimestamp). lia.
  - intros Ht. destruct (Z.geb_spec targetTimestamp currentTimestamp); [lia|].
    pose proof (Z.mul_succ_div_gt (currentTimestamp - targetTimestamp) 12).
    lia.
Qed.

Lemma getBlockFromTimestamp_bounds_witness :
  1 <= 18000000 <= 2 ^ 53
  /\ 0 <= 1699000000
  /\ 1700000000 <= 2 ^ 53
  /\ 1 <= getBlockFromTimestamp 18000000 1700000000 1699000000
  /\ getBlockFromTimestamp 18000000 1700000000 1699000000 <= 18000000
  /\ (1700000000 <= 1699000000 ->
      getBlockFromTimestamp 18000000 1700000000 1699000000 = 18000000)
  /\ (forall later, 1699000000 <= later ->
        getBlockFromTimestamp 18000000 1700000000 1699000000
        <= getBlockFromTimestamp 18000000 1700000000 later)
  /\ (1699000000 < 1700000000 ->
      12 * (18000000 - getBlockFromTimestamp 18000000 1700000000 1699000000)
      <= 1700000000 - 1699000000)
  /\ (1699000000 < 1700000000 ->
      1 < getBlockFromTimestamp 18000000 1700000000 1699000000 ->
      1700000000 - 1699000000
      < 12 * (18000000 - getBlockFromTimestamp 18000000 1700000000 1699000000)
        + 12).
Proof.
  assert (H1 : 1 <= 18000000 <= 2 ^ 53) by (split; vm_compute; discriminate).
  assert (H2 : 0 <= 1699000000) by (vm_compute; discriminate).
  assert (H3 : 1700000000 <= 2 ^ 53) by (vm_compute; discriminate).
  split; [exact H1|]. split; [exact H2|]. split; [exact H3|].
  exact (getBlockFromTimestamp_bounds 18000000 1700000000 1699000000 H1 H2 H3).
Defined.

Example getBlockFromTimestamp_run :
  getBlockFromTimestamp 18000000 1700000000 1699000000 = 17916667.
Proof. vm_compute. reflexivity. Qed.

End Block_estimate.

(** ** The three decoders of a ShareMinted log *)

Section Decoders_agree.
Import JS.

Lemma sliceFrom_prefix payload : sliceFrom 2 ("0x" +:+ payload) = payload.
Proof.
  unfold sliceFrom. cbn [String.append String.length String.substring Nat.sub].
  apply substring_all. lia.
Qed.

Lemma slice_prefix payload :
  slice 0 66 ("0x" +:+ payload) = ("0x" +:+ slice 0 64 payload)%string.
Proof. reflexivity. Qed.

(** The two decoders that read the amount from the first 32-byte word,
    [processDelegationEvents] and [parseShareMintedEvent], agree on every
    log with topics of ASCII characters whose [data] starts with ["0x"]: when one skips
        the log, so does
    the other (unless the event is too old for the first); when both
    produce an event, it has the same validator, the same address, the
    same block and transaction, and the amount is the same integer, which
    one prints as a decimal numeral and the other divides by [1e18]. *)
Theorem slot_decoders_agree
    (getBlockTimestamp : string -> number) (cutoffTimestamp : number)
    (event : EthereumDelegationTracker.EtherscanLog)
    (log : DirectRPCDelegatorFetcher.RawLog) (payload : string) :
  EthereumDelegationTracker.data event = ("0x" +:+ payload)%string ->
  DirectRPCDelegatorFetcher.data log = EthereumDelegationTracker.data event ->
  DirectRPCDelegatorFetcher.topics log = EthereumDelegationTracker.topics event ->
  DirectRPCDelegatorFetcher.blockNumber log
    = EthereumDelegationTracker.blockNumber event ->
  DirectRPCDelegatorFetcher.transactionHash log
    = EthereumDelegationTracker.transactionHash event ->
  Forall (fun topic => isAscii topic = true)
    (EthereumDelegationTracker.topics event) ->
  EthereumDelegationTracker.processOne getBlockTimestamp cutoffTimestamp event
    = EthereumDelegationTracker.TooOld
  \/ match DirectRPCDelegatorFetcher.parseShareMintedEvent log with
     | DirectRPCDelegatorFetcher.Returned ev =>
         exists e a,
           EthereumDelegationTracker.processOne getBlockTimestamp cutoffTimestamp event
             = EthereumDelegationTracker.Pushed e
           /\ EthereumDelegationTracker.validatorId e
              = DirectRPCDelegatorFetcher.validatorId ev
           /\ EthereumDelegationTracker.user e
              = DirectRPCDelegatorFetcher.userAddress ev
           /\ EthereumDelegationTracker.eventBlockNumber e
              = DirectRPCDelegatorFetcher.eventBlockNumber ev
           /\ EthereumDelegationTracker.eventTransactionHash e
              = DirectRPCDelegatorFetcher.eventTransactionHash ev
           /\ EthereumDelegationTracker.amountWei e = bigIntToString a
           /\ DirectRPCDelegatorFetcher.amount ev
              = div (numberOfZ a) (numberOfZ (10 ^ 18))
     | DirectRPCDelegatorFetcher.Thrown _ =>
         exists error,
           EthereumDelegationTracker.processOne getBlockTimestamp cutoffTimestamp event
             = EthereumDelegationTracker.Caught error
     end.
Proof.
  intros Hd Hl Ht Hb Hh _.
  unfold EthereumDelegationTracker.processOne,
    DirectRPCDelegatorFetcher.parseShareMintedEvent.
  rewrite Hl, Ht, Hb, Hh, Hd, sliceFrom_prefix, slice_prefix.
  destruct (ltb _ cutoffTimestamp); [left; reflexivity | right].
  destruct (nth_error (EthereumDelegationTracker.topics event) 2) as [topic2|];
    [|eexists; reflexivity].
  destruct (bigIntOfString ("0x" +:+ slice 0 64 payload)) as [a|];
    [|eexists; reflexivity].
  eexists. exists a. split; [reflexivity|].
  cbn [EthereumDelegationTracker.validatorId EthereumDelegationTracker.user
       EthereumDelegationTracker.eventBlockNumber EthereumDelegationTracker.amountWei
       EthereumDelegationTracker.eventTransactionHash
       DirectRPCDelegatorFetcher.validatorId DirectRPCDelegatorFetcher.userAddress
       DirectRPCDelegatorFetcher.eventBlockNumber DirectRPCDelegatorFetcher.amount
       DirectRPCDelegatorFetcher.eventTransactionHash].
  repeat split; reflexivity.
Qed.

Lemma slot_decoders_agree_witness :
  EthereumDelegationTracker.data EthereumDelegationTracker.oneByteLog = ("0x" +:+ "2a")%string
  /\ DirectRPCDelegatorFetcher.data DirectRPCDelegatorFetcher.oneByteLog =
      EthereumDelegationTracker.data EthereumDelegationTracker.oneByteLog
  /\ DirectRPCDelegatorFetcher.topics DirectRPCDelegatorFetcher.oneByteLog =
      EthereumDelegationTracker.topics EthereumDelegationTracker.oneByteLog
  /\ DirectRPCDelegatorFetcher.blockNumber DirectRPCDelegatorFetcher.oneByteLog
    = EthereumDelegationTracker.blockNumber EthereumDelegationTracker.oneByteLog
  /\ DirectRPCDelegatorFetcher.transactionHash DirectRPCDelegatorFetcher.oneByteLog
    = EthereumDelegationTracker.transactionHash EthereumDelegationTracker.oneByteLog
  /\ Forall (fun topic => isAscii topic = true)
       (EthereumDelegationTracker.topics EthereumDelegationTracker.oneByteLog)
  /\ (EthereumDelegationTracker.processOne (fun _ => NaN) NaN EthereumDelegationTracker.oneByteLog
    = EthereumDelegationTracker.TooOld
  \/ match DirectRPCDelegatorFetcher.parseShareMintedEvent DirectRPCDelegatorFetcher.oneByteLog with
     | DirectRPCDelegatorFetcher.Returned ev =>
         exists e a,
           EthereumDelegationTracker.processOne (fun _ => NaN) NaN
               EthereumDelegationTracker.oneByteLog
             = EthereumDelegationTracker.Pushed e
           /\ EthereumDelegationTracker.validatorId e
              = DirectRPCDelegatorFetcher.validatorId ev
           /\ EthereumDelegationTracker.user e
              = DirectRPCDelegatorFetcher.userAddress ev
           /\ EthereumDelegationTracker.eventBlockNumber e
              = DirectRPCDelegatorFetcher.eventBlockNumber ev
           /\ EthereumDelegationTracker.eventTransactionHash e
              = DirectRPCDelegatorFetcher.eventTransactionHash ev
           /\ EthereumDelegationTracker.amountWei e = bigIntToString a
           /\ DirectRPCDelegatorFetcher.amount ev
              = div (numberOfZ a) (numberOfZ (10 ^ 18))
     | DirectRPCDelegatorFetcher.Thrown _ =>
         exists error,
           EthereumDelegationTracker.processOne (fun _ => NaN) NaN
               EthereumDelegationTracker.oneByteLog
             = EthereumDelegationTracker.Caught error
     end).
Proof.
  assert (Hascii : Forall (fun topic => isAscii topic = true)
                     (EthereumDelegationTracker.topics
                        EthereumDelegationTracker.oneByteLog))
    by (repeat constructor).
  repeat (split; [reflexivity|]). split; [exact Hascii|].
  apply (slot_decoders_agree (fun _ => NaN) NaN
           EthereumDelegationTracker.oneByteLog
           DirectRPCDelegatorFetcher.oneByteLog "2a");
    solve [reflexivity | exact Hascii].
Defined.

End Decoders_agree.

Section Whole_payload.
Import JS.

Lemma substring_app_l s : forall t,
  String.substring 0 (String.length s) (s +:+ t) = s.
Proof.
  induction s as [|c r IH]; intros t; simpl.
  - destruct t; reflexivity.
  - rewrite IH. reflexivity.
Qed.

Lemma readRadix_shift radix s : forall acc,
  readRadix radix acc s =
  match readRadix radix 0 s with
  | Some v => Some (acc * radix ^ N.of_nat (String.length s) + v)%N
  | None => None
  end.
Proof.
  induction s as [|c r IH]; intros acc.
  - simpl. f_equal. lia.
  - cbn [readRadix String.length]. destruct (hexValue c) as [d|]; [|reflexivity].
    destruct (d <? radix)%N; [|reflexivity].
    rewrite (IH (radix * acc + d)%N), (IH (radix * 0 + d)%N).
    destruct (readRadix radix 0 r) as [w|]; [|reflexivity].
    f_equal. rewrite Nat2N.inj_succ, N.pow_succ_r'. lia.
Qed.

(** The decoder of the cross-validator aggregations reads the whole
    [data] field: for a log that holds the two 32-byte words of a
    ShareMinted event, amount and tokens, the amount it converts is
    amount x 2^256 + tokens, where the two other decoders read the first
    word, the amount. *)
Theorem whole_data_is_decoded
    (getBlockTimestamp : string -> number) (cutoffTimestamp : number)
    (event : EthereumDelegationTracker.EtherscanLog)
    (log : DirectRPCDelegatorFetcher.RawLog)
    (amountWord tokensWord : string) (amount tokens : N)
    (topic0 topic1 topic2 : string) (rest : list string) :
  EthereumDelegationTracker.data event
    = ("0x" +:+ amountWord +:+ tokensWord)%string ->
  DirectRPCDelegatorFetcher.data log = EthereumDelegationTracker.data event ->
  EthereumDelegationTracker.topics event = topic0 :: topic1 :: topic2 :: rest ->
  DirectRPCDelegatorFetcher.topics log = EthereumDelegationTracker.topics event ->
  String.length amountWord = 64%nat ->
  String.length tokensWord = 64%nat ->
  readRadix 16 0 amountWord = Some amount ->
  readRadix 16 0 tokensWord = Some tokens ->
  (exists d,
     ValidatorTracker.decodeDelegation event = Some d
     /\ ValidatorTracker.delegationAmount d
        = ValidatorTracker.fromWeiToPolNumberStatic
            (natToString (amount * 2 ^ 256 + tokens)))
  /\ (exists ev,
        DirectRPCDelegatorFetcher.parseShareMintedEvent log
          = DirectRPCDelegatorFetcher.Returned ev
        /\ DirectRPCDelegatorFetcher.amount ev
           = div (numberOfZ (Z.of_N amount)) (numberOfZ (10 ^ 18)))
  /\ (EthereumDelegationTracker.processOne getBlockTimestamp cutoffTimestamp event
        = EthereumDelegationTracker.TooOld
      \/ exists e,
           EthereumDelegationTracker.processOne getBlockTimestamp cutoffTimestamp event
             = EthereumDelegationTracker.Pushed e
           /\ EthereumDelegationTracker.amountWei e = natToString amount).
Proof.
  intros Hd Hl Ht Htl HlenA HlenT Ha Htk.
  assert (HneA : isEmpty amountWord = false)
    by (destruct amountWord; [discriminate | reflexivity]).
  assert (Hfirst : bigIntOfString ("0x" +:+ slice 0 64 (amountWord +:+ tokensWord))
                   = Some (Z.of_N amount)).
  { unfold slice. rewrite <- HlenA at 1. rewrite Nat.sub_0_r, substring_app_l.
    exact (hex_literal_value _ _ HneA Ha). }
  assert (Hwhole : bigIntOfString ("0x" +:+ amountWord +:+ tokensWord)
                   = Some (Z.of_N (amount * 2 ^ 256 + tokens))).
  { apply hex_literal_value.
    - destruct amountWord; [discriminate | reflexivity].
    - rewrite readRadix_app, Ha.
      rewrite readRadix_shift, Htk, HlenT. reflexivity. }
  split; [|split].
  - unfold ValidatorTracker.decodeDelegation. rewrite Ht, Hd. cbn [nth_error].
    rewrite Hwhole. eexists. split; [reflexivity|].
    cbn [ValidatorTracker.delegationAmount]. rewrite bigIntToString_nonneg by lia.
    rewrite N2Z.id. reflexivity.
  - unfold DirectRPCDelegatorFetcher.parseShareMintedEvent.
    rewrite Htl, Hl, Ht, Hd. cbn [nth_error].
    rewrite sliceFrom_prefix, Hfirst. eexists. split; reflexivity.
  - unfold EthereumDelegationTracker.processOne.
    destruct (ltb _ cutoffTimestamp); [left; reflexivity | right].
    rewrite Ht, Hd. cbn [nth_error]. rewrite slice_prefix, Hfirst.
    eexists. split; [reflexivity|].
    cbn [EthereumDelegationTracker.amountWei].
    rewrite bigIntToString_nonneg by lia. rewrite N2Z.id. reflexivity.
Qed.

Lemma whole_data_is_decoded_witness :
  EthereumDelegationTracker.data EthereumDelegationTracker.twoWordLog
    = ("0x" +:+ "0000000000000000000000000000000000000000000000004563918244f40000" +:+
        "0000000000000000000000000000000000000000000000004563918244f40000")%string
  /\ DirectRPCDelegatorFetcher.data DirectRPCDelegatorFetcher.twoWordLog =
      EthereumDelegationTracker.data EthereumDelegationTracker.twoWordLog
  /\ EthereumDelegationTracker.topics EthereumDelegationTracker.twoWordLog =
      EthereumDelegationTracker.shareMintedTopic ::
      "0x0000000000000000000000000000000000000000000000000000000000000089"%string ::
      "0x000000000000000000000000CFFAD3200574698b78f32232aa9D63eABD290703"%string :: []
  /\ DirectRPCDelegatorFetcher.topics DirectRPCDelegatorFetcher.twoWordLog =
      EthereumDelegationTracker.topics EthereumDelegationTracker.twoWordLog
  /\ String.length "0000000000000000000000000000000000000000000000004563918244f40000" = 64%nat
  /\ String.length "0000000000000000000000000000000000000000000000004563918244f40000" = 64%nat
  /\ readRadix 16 0 "0000000000000000000000000000000000000000000000004563918244f40000" =
      Some 5000000000000000000%N
  /\ readRadix 16 0 "0000000000000000000000000000000000000000000000004563918244f40000" =
      Some 5000000000000000000%N
  /\ ((exists d,
     ValidatorTracker.decodeDelegation EthereumDelegationTracker.twoWordLog = Some d
     /\ ValidatorTracker.delegationAmount d
        = ValidatorTracker.fromWeiToPolNumberStatic
            (natToString (5000000000000000000%N * 2 ^ 256 + 5000000000000000000%N)))
  /\ (exists ev,
        DirectRPCDelegatorFetcher.parseShareMintedEvent DirectRPCDelegatorFetcher.twoWordLog
          = DirectRPCDelegatorFetcher.Returned ev
        /\ DirectRPCDelegatorFetcher.amount ev
           = div (numberOfZ (Z.of_N 5000000000000000000%N)) (numberOfZ (10 ^ 18)))
  /\ (EthereumDelegationTracker.processOne (fun _ => NaN) NaN EthereumDelegationTracker.twoWordLog
        = EthereumDelegationTracker.TooOld
      \/ exists e,
           EthereumDelegationTracker.processOne (fun _ => NaN) NaN
               EthereumDelegationTracker.twoWordLog
             = EthereumDelegationTracker.Pushed e
           /\ EthereumDelegationTracker.amountWei e = natToString 5000000000000000000%N)).
Proof.
  repeat (split; [reflexivity|]).
  apply (whole_data_is_decoded (fun _ => NaN) NaN
           EthereumDelegationTracker.twoWordLog
           DirectRPCDelegatorFetcher.twoWordLog
           "0000000000000000000000000000000000000000000000004563918244f40000"
           "0000000000000000000000000000000000000000000000004563918244f40000"
           5000000000000000000 5000000000000000000
           EthereumDelegationTracker.shareMintedTopic
           "0x0000000000000000000000000000000000000000000000000000000000000089"
           "0x000000000000000000000000CFFAD3200574698b78f32232aa9D63eABD290703"
           []); reflexivity.
Defined.

(** The two-word log of 5 tokens: the first-word decoders read 5, the
    whole-field decoder reads 5 x 2^256 + 5 tokens' worth of base units. *)
Example whole_data_run :
  option_map ValidatorTracker.delegationAmount
    (ValidatorTracker.decodeDelegation EthereumDelegationTracker.twoWordLog)
  = Some (ValidatorTracker.fromWeiToPolNumberStatic
            (natToString (5000000000000000000 * 2 ^ 256 + 5000000000000000000)))
  /\ map DirectRPCDelegatorFetcher.amount
       (DirectRPCDelegatorFetcher.parseLogs [DirectRPCDelegatorFetcher.twoWordLog])
     = [numberOfZ 5].
Proof. split; vm_compute; reflexivity. Qed.

End Whole_payload.

(** ** Numbers and their signs *)

Section Number_signs.
Import JS.

Lemma binary_round_aux_not_negative sx mx ex lx :
  isNegative (binary_round_aux 53 1024 sx mx ex lx) = true -> sx = true.
Proof.
  unfold binary_round_aux.
  destruct (shr_fexp 53 1024 mx ex lx) as [mrs' e'].
  destruct (shr_fexp 53 1024 _ e' loc_Exact) as [mrs'' e''].
  destruct (shr_m mrs'') as [|m|m]; [| destruct (e'' <=? 1024 - 53) |];
    destruct sx; cbv [isNegative SFltb SFcompare]; congruence.
Qed.

Lemma binary_normalize_not_negative m e :
  0 <= m -> isNegative (binary_normalize 53 1024 m e false) = false.
Proof.
  intros Hm. destruct m as [|p|p]; cbn [binary_normalize]; [reflexivity | | lia].
  unfold binary_round.
  destruct (shl_align p e _) as [mz ez].
  destruct (isNegative (binary_round_aux 53 1024 false (Z.pos mz) ez loc_Exact)) eqn:E;
    [|reflexivity].
  apply binary_round_aux_not_negative in E. discriminate.
Qed.

(** What is not negative: [NaN], the zeros, and the positive Numbers. *)
Lemma not_negative_cases x :
  isNegative x = false ->
  x = S754_nan \/ (exists s, x = S754_zero s) \/ x = S754_infinity false
  \/ exists m e, x = S754_finite false m e.
Proof.
  destruct x as [s|[]| |[] m e]; cbv [isNegative SFltb SFcompare]; intros H;
    try discriminate; eauto 6.
Qed.

Lemma add_not_negative a b :
  isNegative a = false -> isNegative b = false -> isNegative (add a b) = false.
Proof.
  intros Ha Hb.
  destruct (not_negative_cases a Ha) as [->|[[sa ->]|[->|(ma & ea & ->)]]];
    destruct (not_negative_cases b Hb) as [->|[[sb ->]|[->|(mb & eb & ->)]]];
    try reflexivity;
    try (destruct sa; reflexivity); try (destruct sb; reflexivity);
    try (destruct sa, sb; reflexivity).
  unfold add, SFadd. apply binary_normalize_not_negative.
  cbn [cond_Zopp]. change IntDef.Z.add with Z.add. lia.
Qed.

Lemma sub_zero_not_positive u :
  isNegative u = false -> isPositive (sub (S754_zero false) u) = false.
Proof.
  intros Hu.
  destruct (not_negative_cases u Hu) as [->|[[s ->]|[->|(m & e & ->)]]];
    try reflexivity.
  destruct s; reflexivity.
Qed.

Lemma add_nan_l x : add NaN x = NaN.
Proof. destruct x; reflexivity. Qed.

Lemma add_nan_r x : add x NaN = NaN.
Proof. destruct x; reflexivity. Qed.

Lemma sub_nan_l x : sub NaN x = NaN.
Proof. destruct x; reflexivity. Qed.

Lemma sub_nan_r x : sub x NaN = NaN.
Proof. destruct x; reflexivity. Qed.

Lemma numberOfRatio_not_negative n d : isNegative (numberOfRatio n d) = false.
Proof.
  destruct n as [|n], d as [|d]; try reflexivity.
  unfold numberOfRatio, SFdiv.
  destruct (SFdiv_core_binary 53 1024 (Z.pos n) 0 (Z.pos d) 0) as [[mz ez] lz].
  cbn [xorb].
  destruct (isNegative (binary_round_aux 53 1024 false mz ez lz)) eqn:E;
    [|reflexivity].
  apply binary_round_aux_not_negative in E. discriminate.
Qed.

Lemma unsignedNumber_not_negative s : isNegative (unsignedNumber s) = false.
Proof.
  unfold unsignedNumber. destruct (String.eqb s "Infinity"); [reflexivity|].
  destruct (unsignedDecimal s) as [[n k]|]; [|reflexivity].
  unfold numberOfScaled. destruct (0 <=? k); apply numberOfRatio_not_negative.
Qed.

Lemma nonDecimal_not_negative radix digits :
  isNegative (nonDecimal radix digits) = false.
Proof.
  unfold nonDecimal. destruct (isEmpty digits); [reflexivity|].
  destruct (readRadix radix 0 digits); [|reflexivity].
  apply numberOfRatio_not_negative.
Qed.

(** [Number(string)] is negative only for a literal with a minus sign. *)
Lemma numberOfString_negative s :
  isNegative (numberOfString s) = true ->
  exists r, trimEndWS (trimStartWS s) = String "-" r.
Proof.
  unfold numberOfString.
  destruct (trimEndWS (trimStartWS s)) as [|c t]; [discriminate|].
  intros H.
  destruct c as [[] [] [] [] [] [] [] []];
    try (rewrite unsignedNumber_not_negative in H; discriminate);
    try (eexists; reflexivity).
  destruct t as [|c2 t2];
    [rewrite unsignedNumber_not_negative in H; discriminate|].
  destruct c2 as [[] [] [] [] [] [] [] []];
    try (rewrite unsignedNumber_not_negative in H; discriminate);
    rewrite nonDecimal_not_negative in H; discriminate.
Qed.

End Number_signs.

(** ** fromWeiToPolNumberStatic *)

Section Number_strings.
Import JS.



End Number_strings.

Section FromWei.
Import JS ValidatorTracker.






Lemma readDecimal_any s : forall acc v acc',
  readDecimal acc s = Some v -> exists v', readDecimal acc' s = Some v'.
Proof.
  induction s as [|c r IH]; intros acc v acc' H; cbn [readDecimal] in *.
  - eexists. reflexivity.
  - destruct (digitValue c) as [d|]; [|discriminate]. exact (IH _ _ _ H).
Qed.

Lemma trimStart0_digits s : forall acc v,
  readDecimal acc s = Some v -> exists v', readDecimal 0 (trimStart0 s) = Some v'.
Proof.
  induction s as [|c r IH]; intros acc v H.
  - eexists. reflexivity.
  - cbn [trimStart0]. destruct (Ascii.eqb c "0").
    + cbn [readDecimal] in H. destruct (digitValue c); [|discriminate].
      exact (IH _ _ H).
    + exact (readDecimal_any _ _ _ 0%N H).
Qed.

Lemma digits_head s v :
  readDecimal 0 s = Some v -> isEmpty s = false ->
  exists c r d, s = String c r /\ digitValue c = Some d.
Proof.
  destruct s as [|c r]; [discriminate|]. intros H _. cbn [readDecimal] in H.
  destruct (digitValue c) as [d|] eqn:E; [|discriminate].
  exists c, r, d. split; [reflexivity | exact E].
Qed.

Lemma numberOfString_digit_head c d t :
  digitValue c = Some d -> isNegative (numberOfString (String c t)) = false.
Proof.
  intros Hc.
  destruct (isNegative (numberOfString (String c t))) eqn:E; [|reflexivity].
  apply numberOfString_negative in E as [r E]. exfalso.
  cbn [trimStartWS] in E. rewrite (digit_not_space _ _ Hc) in E.
  cbn [trimEndWS] in E. rewrite (digit_not_space _ _ Hc) in E. cbn [andb] in E.
  injection E as -> _. discriminate.
Qed.

Lemma readDecimal_zeros_app n s v :
  readDecimal 0 s = Some v -> readDecimal 0 (zeros n +:+ s) = Some v.
Proof.
  intros H. rewrite readDecimal_app, readDecimal_zeros. simpl (0 * _)%N. exact H.
Qed.

(** The Number of a digit string or of a hexadecimal literal is never
    negative. *)
Lemma fromWei_not_negative weiLike v :
  readDecimal 0 weiLike = Some v \/ isHexLiteral weiLike = Some v ->
  isNegative (fromWeiToPolNumberStatic weiLike) = false.
Proof.
  intros Hd. unfold fromWeiToPolNumberStatic.
  set (numeral := match isHexLiteral weiLike with
                  | Some v => natToString v
                  | None => weiLike
                  end).
  assert (Hw : exists w, readDecimal 0 numeral = Some w).
  { unfold numeral. destruct (isHexLiteral weiLike) as [h|].
    - exists h. apply readDecimal_natToString.
    - destruct Hd as [Hd|Hd]; [|discriminate]. exists v. exact Hd. }
  destruct Hw as [w Hw].
  destruct (trimStart0_digits _ _ _ Hw) as [w' Hw'].
  set (s := if isEmpty (trimStart0 numeral) then "0"%string else trimStart0 numeral).
  assert (Hs : exists n, readDecimal 0 s = Some n /\ isEmpty s = false).
  { unfold s. destruct (isEmpty (trimStart0 numeral)) eqn:E.
    - exists 0%N. split; reflexivity.
    - exists w'. split; [exact Hw' | exact E]. }
  destruct Hs as (n & Hn & Hne).
  destruct (digits_head _ _ Hn Hne) as (c & r & d & Hcr & Hc).
  destruct (String.length s <=? 18)%nat eqn:Hlen.
  - change ("0." +:+ zeros (18 - String.length s) +:+ s)%string
      with (String "0" ("." +:+ zeros (18 - String.length s) +:+ s))%string.
    apply (numberOfString_digit_head "0" 0%N). reflexivity.
  - apply Nat.leb_gt in Hlen.
    assert (Hwhole : exists t, slice 0 (String.length s - 18) s = String c t).
    { unfold slice. rewrite Hcr in *. cbn [String.length] in *.
      destruct (S (String.length r) - 18 - 0)%nat as [|k] eqn:Ek; [lia|].
      cbn [String.substring]. eexists. reflexivity. }
    destruct Hwhole as [t Ht]. rewrite Ht.
    destruct (isEmpty (trimEnd0 (sliceFrom (String.length s - 18) s)));
      cbn [String.append]; apply (numberOfString_digit_head c d); exact Hc.
Qed.

(** Exponent notation is read as [Number] reads it: the string ["5e+21"]
    becomes ["0.00000000000005e+21"], which is 50000000. *)
Example fromWei_exponent :
  fromWeiToPolNumberStatic "5e+21" = numberOfZ 50000000.
Proof. vm_compute. reflexivity. Qed.

End FromWei.

(** ** The entries of the ranking *)

Section Aggregation_more.
Import JS ValidatorTracker.

Lemma addKey_In keys key k : In k (addKey keys key) <-> k = key \/ In k keys.
Proof.
  unfold addKey. destruct (existsb (String.eqb key) keys) eqn:E.
  - apply existsb_eqb_In in E. split; [auto|]. intros [->|H]; assumption.
  - rewrite in_app_iff. cbn [In]. split.
    + intros [H|[H|[]]]; auto.
    + intros [H|H]; auto.
Qed.

Lemma fold_addKey_In keys : forall seen k,
  In k (fold_left addKey keys seen) <-> In k seen \/ In k keys.
Proof.
  induction keys as [|key rest IH]; intros seen k; cbn [fold_left In].
  - tauto.
  - rewrite IH, addKey_In. split.
    + intros [[->|H]|H]; auto.
    + intros [H|[<-|H]]; auto.
Qed.

Lemma firstSeen_In keys key : In key (firstSeen keys) <-> In key keys.
Proof.
  rewrite <- fold_addKey_firstSeen, fold_addKey_In. cbn [In]. tauto.
Qed.

Lemma aggregate_NoDup allDelegations allUnbonds :
  List.NoDup (map stakeAddress (aggregate allDelegations allUnbonds)).
Proof.
  destruct (unbonds_passed allDelegations allUnbonds) as (Hnd & _ & _).
  unfold aggregate. rewrite map_map. exact Hnd.
Qed.

Lemma In_firstn {A : Type} (x : A) n : forall l, In x (firstn n l) -> In x l.
Proof.
  induction n as [|n IH]; intros [|y r] H; cbn [firstn] in H; try contradiction.
  destruct H as [->|H]; [left; reflexivity | right; exact (IH _ H)].
Qed.

Lemma NoDup_firstn {A : Type} n : forall l : list A,
  List.NoDup l -> List.NoDup (firstn n l).
Proof.
  induction n as [|n IH]; intros [|y r] H; cbn [firstn]; try constructor.
  - inversion H as [|? ? Hy Hr]; subst.
    intros Hin. apply Hy. exact (In_firstn _ _ _ Hin).
  - inversion H; subst. apply IH. assumption.
Qed.

Lemma NoDup_map_filter {A B : Type} (f : A -> B) (p : A -> bool) l :
  List.NoDup (map f l) -> List.NoDup (map f (List.filter p l)).
Proof.
  induction l as [|x r IH]; intros H; cbn [List.filter map]; [constructor|].
  inversion H as [|? ? Hx Hr]; subst.
  destruct (p x); [|exact (IH Hr)].
  cbn [map]. constructor; [|exact (IH Hr)].
  intros Hin. apply Hx. apply List.in_map_iff in Hin as (y & E & Hy).
  apply List.filter_In in Hy as [Hy _]. rewrite <- E. apply in_map. exact Hy.
Qed.

(** An entry of [topDelegators] is an entry of the aggregation with a
    positive net stake. *)
Lemma topDelegators_In allDelegations allUnbonds limit r :
  In r (topDelegators allDelegations allUnbonds limit) ->
  In (ranked r) (aggregate allDelegations allUnbonds)
  /\ isPositive (netStake (ranked r)) = true.
Proof.
  intros Hin. apply (in_map ranked) in Hin.
  unfold topDelegators in Hin. rewrite withRanks_ranked in Hin.
  apply In_firstn in Hin. unfold ranking in Hin.
  apply (Permutation_in _ (sort_perm _ _)) in Hin.
  apply List.filter_In in Hin. exact Hin.
Qed.

(** [topDelegators], whatever the order of the ranking: every entry has a
    positive net stake, which is the difference of the two sums of its
    address; its address is the address of an event; no two entries have
    the same address; and there are at most [limit] entries and at most
    as many as there are addresses in the events. *)
Theorem topDelegators_entries
    (allDelegations allUnbonds : list StakeEvent) (limit : nat) :
  Forall (fun r =>
      isPositive (netStake (ranked r)) = true
      /\ netStake (ranked r)
         = sub (sumFor (stakeAddress (ranked r)) allDelegations)
               (sumFor (stakeAddress (ranked r)) allUnbonds)
      /\ exists event, In event (allDelegations ++ allUnbonds)
                       /\ address event = stakeAddress (ranked r))
    (topDelegators allDelegations allUnbonds limit)
  /\ List.NoDup (map (fun r => stakeAddress (ranked r))
                   (topDelegators allDelegations allUnbonds limit))
  /\ (length (topDelegators allDelegations allUnbonds limit)
      <= Nat.min limit
           (length (firstSeen (map address (allDelegations ++ allUnbonds)))))%nat.
Proof.
  pose proof (aggregate_keys allDelegations allUnbonds) as Hkeys.
  split; [|split].
  - apply List.Forall_forall. intros r Hr.
    apply topDelegators_In in Hr as [Hagg Hpos].
    split; [exact Hpos|]. split; [apply (aggregate_entry _ _ _ Hagg)|].
    apply (in_map stakeAddress) in Hagg. rewrite Hkeys, firstSeen_In in Hagg.
    apply List.in_map_iff in Hagg as (e & E & He). exists e. split; assumption.
  - rewrite <- (map_map ranked stakeAddress).
    unfold topDelegators. rewrite withRanks_ranked, <- firstn_map.
    apply NoDup_firstn. unfold ranking.
    apply (Permutation_NoDup
             (Permutation_map stakeAddress (Permutation_sym (sort_perm _ _)))).
    apply NoDup_map_filter. apply aggregate_NoDup.
  - rewrite <- Hkeys, length_map.
    rewrite <- (length_map ranked). unfold topDelegators.
    rewrite withRanks_ranked, length_firstn. unfold ranking.
    rewrite (Permutation_length (sort_perm _ _)).
    pose proof (List.filter_length_le (fun stake => isPositive (netStake stake))
                  (aggregate allDelegations allUnbonds)).
    lia.
Qed.

Lemma sumFor_nan key events event :
  In event events -> address event = key -> amount event = NaN ->
  sumFor key events = NaN.
Proof.
  intros Hin Hk Ha.
  induction events as [|e rest IH] using rev_ind; [contradiction|].
  rewrite sumFor_snoc. apply in_app_or in Hin as [Hin|[<-|[]]].
  - rewrite (IH Hin). destruct (String.eqb (address e) key);
      [apply add_nan_l | reflexivity].
  - rewrite Hk, String.eqb_refl, Ha. apply add_nan_r.
Qed.

(** An amount that is not a number takes its address out of the ranking:
    when one event of an address, delegation or unbonding, has the amount
    [NaN], the net stake of the address is [NaN] and the address is not
    among the top delegators, whatever its other events are. *)
Theorem nan_amount_unranks
    (allDelegations allUnbonds : list StakeEvent) (limit : nat)
    (event : StakeEvent) :
  In event (allDelegations ++ allUnbonds) ->
  amount event = NaN ->
  (exists stake, In stake (aggregate allDelegations allUnbonds)
                 /\ stakeAddress stake = address event)
  /\ (forall stake, In stake (aggregate allDelegations allUnbonds) ->
        stakeAddress stake = address event -> netStake stake = NaN)
  /\ (forall r, In r (topDelegators allDelegations allUnbonds limit) ->
        stakeAddress (ranked r) <> address event).
Proof.
  intros Hin Ha.
  assert (Hnan : forall stake, In stake (aggregate allDelegations allUnbonds) ->
            stakeAddress stake = address event -> netStake stake = NaN).
  { intros stake Hs Hk.
    destruct (aggregate_entry _ _ _ Hs) as (_ & _ & ->). rewrite Hk.
    apply in_app_or in Hin as [Hd|Hu].
    - rewrite (sumFor_nan _ _ _ Hd eq_refl Ha). apply sub_nan_l.
    - rewrite (sumFor_nan _ _ _ Hu eq_refl Ha). apply sub_nan_r. }
  split; [|split; [exact Hnan|]].
  - assert (H : In (address event)
                   (map stakeAddress (aggregate allDelegations allUnbonds))).
    { rewrite aggregate_keys, firstSeen_In. apply in_map. exact Hin. }
    apply List.in_map_iff in H as (stake & E & Hs). exists stake. split; assumption.
  - intros r Hr Hk. apply topDelegators_In in Hr as [Hagg Hpos].
    rewrite (Hnan _ Hagg Hk) in Hpos. discriminate.
Qed.

Lemma nan_amount_unranks_witness :
  In (nanEvent addressA) ([eventOf addressA (10 ^ 18)] ++ [nanEvent addressA])
  /\ amount (nanEvent addressA) = NaN
  /\ (exists stake, In stake (aggregate [eventOf addressA (10 ^ 18)] [nanEvent addressA])
                 /\ stakeAddress stake = address (nanEvent addressA))
  /\ (forall stake, In stake (aggregate [eventOf addressA (10 ^ 18)] [nanEvent addressA]) ->
        stakeAddress stake = address (nanEvent addressA) -> netStake stake = NaN)
  /\ (forall r, In r (topDelegators [eventOf addressA (10 ^ 18)] [nanEvent addressA] 10) ->
        stakeAddress (ranked r) <> address (nanEvent addressA)).
Proof.
  assert (H1 : In (nanEvent addressA) ([eventOf addressA (10 ^ 18)] ++ [nanEvent addressA]))
    by (right; left; reflexivity).
  assert (H2 : amount (nanEvent addressA) = NaN) by reflexivity.
  split; [exact H1|]. split; [exact H2|].
  exact (nan_amount_unranks [eventOf addressA (10 ^ 18)] [nanEvent addressA] 10
           (nanEvent addressA) H1 H2).
Defined.

(** One delegation of a token and one unbonding without a readable
    amount: the address has no rank. *)
Example nan_amount_run :
  topDelegators [eventOf addressA (10 ^ 18)] [nanEvent addressA] 10 = []
  /\ map netStake (aggregate [eventOf addressA (10 ^ 18)] [nanEvent addressA])
     = [NaN].
Proof. split; vm_compute; reflexivity. Qed.

Lemma sumFor_not_negative key events :
  (forall event, In event events -> isNegative (amount event) = false) ->
  isNegative (sumFor key events) = false.
Proof.
  intros H. induction events as [|e rest IH] using rev_ind; [reflexivity|].
  rewrite sumFor_snoc.
  assert (Hrest : isNegative (sumFor key rest) = false).
  { apply IH. intros e' He'. apply H. apply in_or_app. left. exact He'. }
  destruct (String.eqb (address e) key); [|exact Hrest].
  apply add_not_negative; [exact Hrest|].
  apply H. apply in_or_app. right. left. reflexivity.
Qed.

(** An address that only unbonded is never ranked.  When no unbonding
    amount is negative, an address without a delegation has a net stake
    that is not positive (0 minus its unbonded sum) and is not among the
    top delegators; and the amounts [fromWeiToPolNumberStatic] converts
    from digit strings and from hexadecimal literals are never
    negative. *)
Theorem unbonded_only_unranked
    (allDelegations allUnbonds : list StakeEvent) (limit : nat) (key : string) :
  (forall event, In event allUnbonds -> isNegative (amount event) = false) ->
  (forall event, In event allDelegations -> address event <> key) ->
  (forall stake, In stake (aggregate allDelegations allUnbonds) ->
     stakeAddress stake = key ->
     totalDelegated stake = zero /\ isPositive (netStake stake) = false)
  /\ (forall r, In r (topDelegators allDelegations allUnbonds limit) ->
        stakeAddress (ranked r) <> key)
  /\ (forall weiLike v,
        readDecimal 0 weiLike = Some v \/ isHexLiteral weiLike = Some v ->
        isNegative (fromWeiToPolNumberStatic weiLike) = false).
Proof.
  intros Hu Hd.
  assert (Hs : forall stake, In stake (aggregate allDelegations allUnbonds) ->
            stakeAddress stake = key ->
            totalDelegated stake = zero /\ isPositive (netStake stake) = false).
  { intros stake Hin Hk.
    destruct (aggregate_entry _ _ _ Hin) as (H1 & _ & H3).
    rewrite H1, H3, Hk, (sumFor_absent key allDelegations Hd).
    split; [reflexivity|].
    apply sub_zero_not_positive, sumFor_not_negative, Hu. }
  split; [exact Hs|]. split.
  - intros r Hr Hk. apply topDelegators_In in Hr as [Hagg Hpos].
    destruct (Hs _ Hagg Hk) as [_ H]. congruence.
  - intros weiLike v. apply fromWei_not_negative.
Qed.

Lemma unbonded_only_unranked_witness :
  (forall event, In event [eventOf addressA (10 ^ 18)] -> isNegative (amount event) = false)
  /\ (forall event, In event [eventOf addressB (10 ^ 18)] -> address event <> addressA)
  /\ (forall stake, In stake (aggregate [eventOf addressB (10 ^ 18)] [eventOf addressA
      (10 ^ 18)]) ->
     stakeAddress stake = addressA ->
     totalDelegated stake = zero /\ isPositive (netStake stake) = false)
  /\ (forall r, In r (topDelegators [eventOf addressB (10 ^ 18)] [eventOf addressA (10 ^ 18)] 10) ->
        stakeAddress (ranked r) <> addressA)
  /\ (forall weiLike v,
        readDecimal 0 weiLike = Some v \/ isHexLiteral weiLike = Some v ->
        isNegative (fromWeiToPolNumberStatic weiLike) = false).
Proof.
  assert (H1 : (forall event, In event [eventOf addressA (10 ^ 18)] -> isNegative
      (amount event) = false))
    by (intros event [<-|[]]; vm_compute; reflexivity).
  assert (H2 : (forall event, In event [eventOf addressB (10 ^ 18)] -> address event <> addressA))
    by (intros event [<-|[]]; discriminate).
  split; [exact H1|]. split; [exact H2|].
  exact (unbonded_only_unranked [eventOf addressB (10 ^ 18)]
           [eventOf addressA (10 ^ 18)] 10 addressA H1 H2).
Defined.

End Aggregation_more.

(** ** The classification cache and the filter *)

Section Cache.
Import JS DelegatorFilter.
#[local] Opaque knownExchangeAddresses knownDefiAddresses has.

(** The classification cache.  A call leaves the answer it gave under the
    lower-cased address; asking again for the same address, in any letter
    case, gives the same answer and leaves the cache as it is; no other
    key is touched, and the cache grows by that one key at most. *)
Theorem classify_cache_roundtrip
    (cache : gmap string Classification) (address again : string) :
  toLowerCase again = toLowerCase address ->
  snd (classifyAddressBasic cache address) !! toLowerCase address
    = Some (fst (classifyAddressBasic cache address))
  /\ classifyAddressBasic (snd (classifyAddressBasic cache address)) again
     = classifyAddressBasic cache address
  /\ (forall k, k <> toLowerCase address ->
        snd (classifyAddressBasic cache address) !! k = cache !! k)
  /\ dom (snd (classifyAddressBasic cache address))
     = dom cache ∪ {[toLowerCase address]}.
Proof.
  intros Hcase.
  assert (Hstored : snd (classifyAddressBasic cache address) !! toLowerCase address
                    = Some (fst (classifyAddressBasic cache address))).
  { destruct (cache !! toLowerCase address) as [r|] eqn:E.
    - rewrite (classify_hit _ _ _ E). exact E.
    - rewrite (classify_miss _ _ E). cbn [fst snd]. apply lookup_insert_eq. }
  split; [exact Hstored|]. split; [|split].
  - rewrite <- Hcase in Hstored.
    rewrite (classify_hit _ _ _ Hstored).
    destruct (classifyAddressBasic cache address); reflexivity.
  - intros k Hk. destruct (cache !! toLowerCase address) as [r|] eqn:E.
    + rewrite (classify_hit _ _ _ E). reflexivity.
    + rewrite (classify_miss _ _ E). cbn [snd].
      apply lookup_insert_ne. congruence.
  - destruct (cache !! toLowerCase address) as [r|] eqn:E.
    + rewrite (classify_hit _ _ _ E). cbn [snd].
      assert (Hin : toLowerCase address ∈ dom cache) by (apply elem_of_dom; eauto).
      apply set_eq. intros k. rewrite elem_of_union, elem_of_singleton.
      split; [auto | intros [H | ->]; assumption].
    + rewrite (classify_miss _ _ E). cbn [snd]. rewrite dom_insert_L.
      apply union_comm_L.
Qed.

Lemma classify_cache_roundtrip_witness :
  toLowerCase "0XCFFAD3200574698B78F32232AA9D63EABD290703" = toLowerCase
      "0xCFFAD3200574698b78f32232aa9D63eABD290703"
  /\ snd (classifyAddressBasic (∅ : gmap string Classification)
      "0xCFFAD3200574698b78f32232aa9D63eABD290703") !! toLowerCase
      "0xCFFAD3200574698b78f32232aa9D63eABD290703"
    = Some (fst (classifyAddressBasic (∅ : gmap string Classification)
        "0xCFFAD3200574698b78f32232aa9D63eABD290703"))
  /\ classifyAddressBasic (snd (classifyAddressBasic (∅ : gmap string Classification)
      "0xCFFAD3200574698b78f32232aa9D63eABD290703"))
      "0XCFFAD3200574698B78F32232AA9D63EABD290703"
     = classifyAddressBasic (∅ : gmap string Classification)
         "0xCFFAD3200574698b78f32232aa9D63eABD290703"
  /\ (forall k, k <> toLowerCase "0xCFFAD3200574698b78f32232aa9D63eABD290703" ->
        snd (classifyAddressBasic (∅ : gmap string Classification)
            "0xCFFAD3200574698b78f32232aa9D63eABD290703") !! k = (∅ : gmap string
            Classification) !! k)
  /\ dom (snd (classifyAddressBasic (∅ : gmap string Classification)
      "0xCFFAD3200574698b78f32232aa9D63eABD290703"))
     = dom (∅ : gmap string Classification) ∪ {[toLowerCase
         "0xCFFAD3200574698b78f32232aa9D63eABD290703"]}.
Proof.
  assert (H : toLowerCase "0XCFFAD3200574698B78F32232AA9D63EABD290703"
              = toLowerCase "0xCFFAD3200574698b78f32232aa9D63eABD290703") by reflexivity.
  split; [exact H|].
  exact (classify_cache_roundtrip ∅ "0xCFFAD3200574698b78f32232aa9D63eABD290703"
           "0XCFFAD3200574698B78F32232AA9D63EABD290703" H).
Defined.

End Cache.

Section Filter_results.
Import JS DelegatorFilter.
#[local] Opaque knownExchangeAddresses knownDefiAddresses has.

Lemma classifyBatch_classified cache batch :
  cache_ok cache ->
  fst (classifyBatch cache batch) = map classified batch
  /\ cache_ok (snd (classifyBatch cache batch)).
Proof.
  revert cache. induction batch as [|a rest IH]; intros cache Hok; cbn [classifyBatch map].
  - split; [reflexivity | exact Hok].
  - pose proof (classify_cached cache a Hok) as Hc.
    pose proof (classify_preserves_cache_ok cache a Hok) as Hp.
    destruct (classifyAddressBasic cache a) as [c cache1]. cbn [fst snd] in Hc, Hp.
    destruct (IH cache1 Hp) as [H1 H2].
    destruct (classifyBatch cache1 rest) as [others cache2]. cbn [fst snd] in *.
    split; [|exact H2]. rewrite H1, Hc. reflexivity.
Qed.

Lemma processBatches_fold o batches : forall cache results,
  cache_ok cache ->
  fst (processBatches o cache results batches)
    = fold_left (recordResult o) (map classified (concat batches)) results
  /\ cache_ok (snd (processBatches o cache results batches)).
Proof.
  induction batches as [|b rest IH]; intros cache results Hok;
    cbn [processBatches concat map].
  - split; [reflexivity | exact Hok].
  - destruct (classifyBatch_classified cache b Hok) as [H1 H2].
    destruct (classifyBatch cache b) as [batchResults cache1]. cbn [fst snd] in H1, H2.
    destruct (IH cache1 (fold_left (recordResult o) batchResults results) H2)
      as [H3 H4].
    split; [|exact H4].
    rewrite H3, map_app, fold_left_app, H1. reflexivity.
Qed.

Lemma makeBatches_concat batchSize addresses : forall fuel i batches,
  makeBatches fuel batchSize i addresses = Some batches ->
  concat batches = skipn i addresses
  /\ Forall (fun batch => (length batch <= batchSize)%nat) batches.
Proof.
  induction fuel as [|fuel IH]; intros i batches H; cbn [makeBatches] in H.
  - destruct (Nat.ltb_spec i (length addresses)); [discriminate|].
    injection H as <-. rewrite List.skipn_all2 by lia. split; [reflexivity | constructor].
  - destruct (Nat.ltb_spec i (length addresses)).
    + destruct (makeBatches fuel batchSize (i + batchSize) addresses) as [rest|] eqn:E;
        [|discriminate].
      injection H as <-. destruct (IH _ _ E) as [H1 H2]. split.
      * cbn [concat]. rewrite H1, Nat.add_comm, <- List.skipn_skipn.
        apply List.firstn_skipn.
      * constructor; [|exact H2]. rewrite List.length_firstn. lia.
    + injection H as <-. rewrite List.skipn_all2 by lia.
      split; [reflexivity | constructor].
Qed.

(** With batch size 0 the batching loop does not end on a non-empty
    array. *)
Lemma makeBatches_stuck addresses : forall fuel,
  addresses <> [] -> makeBatches fuel 0 0 addresses = None.
Proof.
  intros fuel Hne. induction fuel as [|fuel IH]; cbn [makeBatches];
    destruct (Nat.ltb_spec 0 (length addresses)) as [_|H]; try reflexivity.
  - destruct addresses; [contradiction | cbn [length] in H; lia].
  - cbn [Nat.add]. rewrite IH. reflexivity.
  - destruct addresses; [contradiction | cbn [length] in H; lia].
Qed.

Lemma filter_step o results address c :
  individualDelegators (recordResult o results (address, c))
    = individualDelegators results
      ++ (if keeps o (type c) then [(address, c)] else [])
  /\ filteredOutExchanges (recordResult o results (address, c))
     = filteredOutExchanges results
       ++ (if isType (type c) exchange && excludeExchanges o
           then [filteredEntry address c] else [])
  /\ filteredOutDefi (recordResult o results (address, c))
     = filteredOutDefi results
       ++ (if isType (type c) defi && excludeDefi o
           then [filteredEntry address c] else [])
  /\ filteredOutUnknown (recordResult o results (address, c))
     = filteredOutUnknown results
       ++ (if isType (type c) unknown then [(address, c)] else []).
Proof.
  unfold recordResult, keeps.
  destruct (type c), (excludeExchanges o), (excludeDefi o), (excludeInstitutional o);
    cbn [isType andb orb negb individualDelegators filteredOutExchanges
         filteredOutDefi filteredOutUnknown];
    rewrite ?app_nil_r; repeat split; reflexivity.
Qed.

Lemma filter_fold o acs : forall results,
  individualDelegators (fold_left (recordResult o) acs results)
    = individualDelegators results
      ++ List.filter (fun ac => keeps o (type (snd ac))) acs
  /\ filteredOutExchanges (fold_left (recordResult o) acs results)
     = filteredOutExchanges results
       ++ map (fun ac => filteredEntry (fst ac) (snd ac))
            (List.filter (fun ac => isType (type (snd ac)) exchange
                                    && excludeExchanges o) acs)
  /\ filteredOutDefi (fold_left (recordResult o) acs results)
     = filteredOutDefi results
       ++ map (fun ac => filteredEntry (fst ac) (snd ac))
            (List.filter (fun ac => isType (type (snd ac)) defi
                                    && excludeDefi o) acs)
  /\ filteredOutUnknown (fold_left (recordResult o) acs results)
     = filteredOutUnknown results
       ++ List.filter (fun ac => isType (type (snd ac)) unknown) acs.
Proof.
  induction acs as [|[address c] rest IH]; intros results; cbn [fold_left List.filter map].
  - rewrite !app_nil_r. repeat split; reflexivity.
  - destruct (IH (recordResult o results (address, c))) as (H1 & H2 & H3 & H4).
    destruct (filter_step o results address c) as (S1 & S2 & S3 & S4).
    rewrite H1, H2, H3, H4, S1, S2, S3, S4. cbn [fst snd].
    destruct (keeps o (type c)), (isType (type c) exchange && excludeExchanges o),
             (isType (type c) defi && excludeDefi o), (isType (type c) unknown);
      cbn [map]; rewrite <- ?app_assoc; cbn [app]; rewrite ?app_nil_r;
      repeat split; reflexivity.
Qed.

Lemma filter_map_classified (p : string * Classification -> bool) addresses :
  List.filter p (map classified addresses)
  = map classified (List.filter (fun a => p (classified a)) addresses).
Proof.
  induction addresses as [|a rest IH]; cbn [map List.filter]; [reflexivity|].
  destruct (p (classified a)); cbn [map]; rewrite IH; reflexivity.
Qed.

Lemma filter_none {A : Type} (l : list A) : List.filter (fun _ => false) l = [].
Proof. induction l as [|x r IH]; [reflexivity | exact IH]. Qed.

Lemma storedFor_not_unknown k : isType (type (storedFor k)) unknown = false.
Proof.
  rewrite storedFor_type.
  destruct (has knownExchangeAddresses k); [reflexivity|].
  destruct (has knownDefiAddresses k); reflexivity.
Qed.

(** [filterDelegatorAddresses] sorts the addresses into its lists without
    losing, repeating or reordering any: with a positive [maxConcurrency]
    it returns; [individualDelegators] holds, in the order of the input,
    the addresses that are in neither static set or whose type is not
    excluded, each with its classification; [filteredOut.exchanges] holds
    the addresses of the exchange set when exchanges are excluded,
    [filteredOut.defi] those of the DeFi set only when DeFi is excluded;
    [filteredOut.unknown] stays empty. *)
Theorem filterDelegatorAddresses_partition
    (cache : gmap string Classification) (addresses : list string)
    (o : FilterOptions) :
  cache_ok cache ->
  (1 <= maxConcurrency o)%nat ->
  exists results cache',
    filterDelegatorAddresses cache addresses o = Some (results, cache')
    /\ cache_ok cache'
    /\ individualDelegators results
       = map classified
           (List.filter (fun a => keeps o (type (storedFor (toLowerCase a))))
              addresses)
    /\ map entryAddress (filteredOutExchanges results)
       = List.filter (fun a => has knownExchangeAddresses (toLowerCase a)
                               && excludeExchanges o) addresses
    /\ map entryAddress (filteredOutDefi results)
       = List.filter (fun a => negb (has knownExchangeAddresses (toLowerCase a))
                               && has knownDefiAddresses (toLowerCase a)
                               && excludeDefi o) addresses
    /\ filteredOutUnknown results = [].
Proof.
  intros Hok Hmax. unfold filterDelegatorAddresses.
  destruct (makeBatches_terminates (Nat.min (maxConcurrency o) 10) addresses
              (length addresses) 0%nat) as [batches Hb]; [lia | lia |].
  rewrite Hb. destruct (makeBatches_concat _ _ _ _ _ Hb) as [Hc _].
  change (skipn 0 addresses) with addresses in Hc.
  destruct (processBatches_fold o batches cache (initialResults addresses) Hok)
    as [Hf Hok'].
  destruct (processBatches o cache (initialResults addresses) batches)
    as [results cache']. cbn [fst snd] in Hf, Hok'.
  exists results, cache'. split; [reflexivity|]. split; [exact Hok'|].
  rewrite Hc in Hf.
  destruct (filter_fold o (map classified addresses) (initialResults addresses))
    as (H1 & H2 & H3 & H4).
  rewrite <- Hf in H1, H2, H3, H4.
  cbn [initialResults individualDelegators filteredOutExchanges filteredOutDefi
       filteredOutUnknown app] in H1, H2, H3, H4.
  rewrite filter_map_classified in H1, H2, H3, H4.
  split; [exact H1|]. split; [|split].
  - rewrite H2, !map_map. cbn [classified fst snd filteredEntry entryAddress].
    rewrite map_id. apply List.filter_ext. intros a.
    rewrite storedFor_type.
    destruct (has knownExchangeAddresses (toLowerCase a)); [reflexivity|].
    destruct (has knownDefiAddresses (toLowerCase a)); reflexivity.
  - rewrite H3, !map_map. cbn [classified fst snd filteredEntry entryAddress].
    rewrite map_id. apply List.filter_ext. intros a.
    rewrite storedFor_type.
    destruct (has knownExchangeAddresses (toLowerCase a)); [reflexivity|].
    destruct (has knownDefiAddresses (toLowerCase a)); reflexivity.
  - rewrite H4. cbn [classified snd].
    rewrite (List.filter_ext _ (fun _ => false))
      by (intros a; apply storedFor_not_unknown).
    rewrite filter_none. reflexivity.
Qed.

Lemma filterDelegatorAddresses_partition_witness :
  cache_ok ∅
  /\ (1 <= maxConcurrency defaultOptions)%nat
  /\ exists results cache',
    filterDelegatorAddresses (∅ : gmap string Classification)
        ["0xCFFAD3200574698b78f32232aa9D63eABD290703"%string;
      "0x8F3CF7AD23CD3CADBD9735AFF958023239C6A063"%string;
      "0x00000000000000000000000000000000000000Aa"%string] defaultOptions = Some (results, cache')
    /\ cache_ok cache'
    /\ individualDelegators results
       = map classified
           (List.filter (fun a => keeps defaultOptions (type (storedFor (toLowerCase a))))
              ["0xCFFAD3200574698b78f32232aa9D63eABD290703"%string;
      "0x8F3CF7AD23CD3CADBD9735AFF958023239C6A063"%string;
      "0x00000000000000000000000000000000000000Aa"%string])
    /\ map entryAddress (filteredOutExchanges results)
       = List.filter (fun a => has knownExchangeAddresses (toLowerCase a)
                               && excludeExchanges defaultOptions)
                                   ["0xCFFAD3200574698b78f32232aa9D63eABD290703"%string;
      "0x8F3CF7AD23CD3CADBD9735AFF958023239C6A063"%string;
      "0x00000000000000000000000000000000000000Aa"%string]
    /\ map entryAddress (filteredOutDefi results)
       = List.filter (fun a => negb (has knownExchangeAddresses (toLowerCase a))
                               && has knownDefiAddresses (toLowerCase a)
                               && excludeDefi defaultOptions)
                                   ["0xCFFAD3200574698b78f32232aa9D63eABD290703"%string;
      "0x8F3CF7AD23CD3CADBD9735AFF958023239C6A063"%string;
      "0x00000000000000000000000000000000000000Aa"%string]
    /\ filteredOutUnknown results = [].
Proof.
  assert (H : (1 <= maxConcurrency defaultOptions)%nat) by (cbn; lia).
  split; [exact cache_ok_empty|]. split; [exact H|].
  exact (filterDelegatorAddresses_partition ∅
           ["0xCFFAD3200574698b78f32232aa9D63eABD290703"%string;
      "0x8F3CF7AD23CD3CADBD9735AFF958023239C6A063"%string;
      "0x00000000000000000000000000000000000000Aa"%string]
           defaultOptions cache_ok_empty H).
Defined.

End Filter_results.

Section Filter_statistics.
Import JS DelegatorFilter.
#[local] Opaque knownExchangeAddresses knownDefiAddresses has.

Lemma lookup_increment key stats k :
  increment key stats !! k
  = if String.eqb k key
    then Some (match stats !! key with
               | Some (Some n) => Some (S n)
               | _ => None
               end)
    else stats !! k.
Proof.
  unfold increment.
  destruct (String.eqb_spec k key) as [->|Hne].
  - destruct (stats !! key) as [[n|]|]; apply lookup_insert_eq.
  - destruct (stats !! key) as [[n|]|]; apply lookup_insert_ne; congruence.
Qed.

(** A counter after a run of increments: a number grows by the number of
    its increments; a counter that holds [NaN], or that is missing when
    its first increment comes, holds [NaN]. *)
Lemma increments_lookup keys : forall stats k,
  fold_left (fun stats key => increment key stats) keys stats !! k
  = match stats !! k with
    | Some (Some n) => Some (Some (n + countKey k keys)%nat)
    | Some None => Some None
    | None => if existsb (String.eqb k) keys then Some None else None
    end.
Proof.
  unfold countKey.
  induction keys as [|key rest IH]; intros stats k; cbn [fold_left List.filter existsb].
  - destruct (stats !! k) as [[n|]|]; try reflexivity.
    cbn [length]. rewrite Nat.add_0_r. reflexivity.
  - rewrite IH, lookup_increment.
    destruct (String.eqb_spec k key) as [->|Hne]; cbn [orb length].
    + destruct (stats !! key) as [[n|]|]; try reflexivity.
      do 2 f_equal. lia.
    + reflexivity.
Qed.

Lemma recordResult_statistics o results address c :
  statistics (recordResult o results (address, c))
  = fold_left (fun stats key => increment key stats)
      (countedKeys o (type c)) (statistics results).
Proof.
  unfold recordResult, countedKeys, keeps.
  destruct (type c), (excludeExchanges o), (excludeDefi o), (excludeInstitutional o);
    reflexivity.
Qed.

Lemma fold_recordResult_statistics o acs : forall results,
  statistics (fold_left (recordResult o) acs results)
  = fold_left (fun stats key => increment key stats)
      (flat_map (fun ac => countedKeys o (type (snd ac))) acs)
      (statistics results).
Proof.
  induction acs as [|[address c] rest IH]; intros results; cbn [fold_left flat_map];
    [reflexivity|].
  rewrite IH, recordResult_statistics, fold_left_app. reflexivity.
Qed.

Lemma countKey_app key l1 l2 :
  countKey key (l1 ++ l2) = (countKey key l1 + countKey key l2)%nat.
Proof. unfold countKey. rewrite List.filter_app, List.length_app. reflexivity. Qed.

Lemma countedKeys_counts o t :
  countKey "individual" (countedKeys o t)
    = ((if isType t individual then 1 else 0) + (if keeps o t then 1 else 0))%nat
  /\ countKey "defi" (countedKeys o t) = (if isType t defi then 1 else 0)%nat
  /\ countKey "institutional" (countedKeys o t)
     = (if isType t institutional then 1 else 0)%nat
  /\ countKey "unknown" (countedKeys o t) = (if isType t unknown then 1 else 0)%nat
  /\ countKey "total" (countedKeys o t) = 0%nat
  /\ countKey "exchanges" (countedKeys o t) = 0%nat
  /\ existsb (String.eqb "exchange") (countedKeys o t) = isType t exchange.
Proof.
  unfold countedKeys. destruct t; destruct (keeps o _); repeat split; reflexivity.
Qed.

Lemma storedFor_cases k :
  (type (storedFor k) = exchange /\ has knownExchangeAddresses k = true)
  \/ (type (storedFor k) = defi /\ has knownExchangeAddresses k = false)
  \/ (type (storedFor k) = individual /\ has knownExchangeAddresses k = false).
Proof.
  rewrite storedFor_type.
  destruct (has knownExchangeAddresses k); [left; split; reflexivity|].
  destruct (has knownDefiAddresses k);
    [right; left | right; right]; split; reflexivity.
Qed.

(** The counters a run over classified addresses increments. *)
Lemma classified_counts o addresses :
  let keys := flat_map (fun ac => countedKeys o (type (snd ac)))
                (map classified addresses) in
  countKey "individual" keys
    = (length (List.filter
                 (fun a => isType (type (storedFor (toLowerCase a))) individual)
                 addresses)
       + length (List.filter
                   (fun a => keeps o (type (storedFor (toLowerCase a))))
                   addresses))%nat
  /\ countKey "defi" keys
     = length (List.filter
                 (fun a => isType (type (storedFor (toLowerCase a))) defi)
                 addresses)
  /\ countKey "institutional" keys = 0%nat
  /\ countKey "unknown" keys = 0%nat
  /\ countKey "total" keys = 0%nat
  /\ countKey "exchanges" keys = 0%nat
  /\ existsb (String.eqb "exchange") keys
     = existsb (fun a => has knownExchangeAddresses (toLowerCase a)) addresses.
Proof.
  cbv zeta.
  induction addresses as [|a rest IH]; cbn [map flat_map List.filter existsb];
    [repeat split; reflexivity|].
  destruct IH as (I1 & I2 & I3 & I4 & I5 & I6 & I7).
  rewrite !countKey_app, existsb_app, I1, I2, I3, I4, I5, I6, I7.
  clear I1 I2 I3 I4 I5 I6 I7.
  cbn [classified snd].
  destruct (countedKeys_counts o (type (storedFor (toLowerCase a))))
    as (C1 & C2 & C3 & C4 & C5 & C6 & C7).
  rewrite C1, C2, C3, C4, C5, C6, C7. clear C1 C2 C3 C4 C5 C6 C7.
  destruct (storedFor_cases (toLowerCase a)) as [[Ht Hh]|[[Ht Hh]|[Ht Hh]]];
    rewrite Ht, Hh; cbn [isType];
    match goal with |- context [keeps o ?t] => destruct (keeps o t) end;
    cbn [length orb];
    (split; [lia|]); (split; [lia|]); (split; [lia|]); (split; [lia|]);
    (split; [lia|]); (split; [lia|]); reflexivity.
Qed.

Lemma filterDelegatorAddresses_fold cache addresses o :
  cache_ok cache ->
  (1 <= maxConcurrency o)%nat ->
  exists results cache',
    filterDelegatorAddresses cache addresses o = Some (results, cache')
    /\ cache_ok cache'
    /\ results = fold_left (recordResult o) (map classified addresses)
                   (initialResults addresses).
Proof.
  intros Hok Hmax. unfold filterDelegatorAddresses.
  destruct (makeBatches_terminates (Nat.min (maxConcurrency o) 10) addresses
              (length addresses) 0%nat) as [batches Hb]; [lia | lia |].
  rewrite Hb. destruct (makeBatches_concat _ _ _ _ _ Hb) as [Hc _].
  change (skipn 0 addresses) with addresses in Hc.
  destruct (processBatches_fold o batches cache (initialResults addresses) Hok)
    as [Hf Hok'].
  destruct (processBatches o cache (initialResults addresses) batches)
    as [results cache']. cbn [fst snd] in Hf, Hok'.
  exists results, cache'. split; [reflexivity|]. split; [exact Hok'|].
  rewrite Hf, Hc. reflexivity.
Qed.

Lemma initial_statistics addresses :
  let stats := statistics (initialResults addresses) in
  stats !! "total"%string = Some (Some (length addresses))
  /\ stats !! "individual"%string = Some (Some 0%nat)
  /\ stats !! "exchanges"%string = Some (Some 0%nat)
  /\ stats !! "defi"%string = Some (Some 0%nat)
  /\ stats !! "institutional"%string = Some (Some 0%nat)
  /\ stats !! "unknown"%string = Some (Some 0%nat)
  /\ stats !! "exchange"%string = None.
Proof.
  cbv zeta. unfold initialResults. cbn [statistics].
  repeat split;
    rewrite ?lookup_insert_ne by discriminate;
    try apply lookup_insert_eq; apply lookup_empty.
Qed.

(** The counters [filterDelegatorAddresses] returns.  [total] is the
    number of addresses.  [individual] is incremented twice for an
    address of type [individual], once by its type and once when it is
    listed: it holds the number of such addresses plus the length of
    [individualDelegators], which is twice that length when exchanges
    and DeFi are excluded.  An exchange is counted under its type name
    [exchange], a counter that does not exist: it becomes [NaN] at the
    first exchange, and [exchanges], the counter the report prints,
    stays 0.  [defi] counts the DeFi addresses; [institutional] and
    [unknown] stay 0. *)
Theorem filterDelegatorAddresses_statistics
    (cache : gmap string Classification) (addresses : list string)
    (o : FilterOptions) :
  cache_ok cache ->
  (1 <= maxConcurrency o)%nat ->
  exists results cache',
    filterDelegatorAddresses cache addresses o = Some (results, cache')
    /\ statistics results !! "total"%string = Some (Some (length addresses))
    /\ statistics results !! "individual"%string
       = Some (Some (length (List.filter
                               (fun a => isType (type (storedFor (toLowerCase a)))
                                           individual)
                               addresses)
                     + length (individualDelegators results))%nat)
    /\ (excludeExchanges o = true -> excludeDefi o = true ->
        statistics results !! "individual"%string
        = Some (Some (2 * length (individualDelegators results))%nat))
    /\ statistics results !! "exchanges"%string = Some (Some 0%nat)
    /\ statistics results !! "exchange"%string
       = (if existsb (fun a => has knownExchangeAddresses (toLowerCase a)) addresses
          then Some None else None)
    /\ statistics results !! "defi"%string
       = Some (Some (length (List.filter
                               (fun a => isType (type (storedFor (toLowerCase a)))
                                           defi)
                               addresses)))
    /\ statistics results !! "institutional"%string = Some (Some 0%nat)
    /\ statistics results !! "unknown"%string = Some (Some 0%nat).
Proof.
  intros Hok Hmax.
  destruct (filterDelegatorAddresses_fold cache addresses o Hok Hmax)
    as (results & cache' & Hrun & _ & Hres).
  exists results, cache'. split; [exact Hrun|].
  assert (Hkept : length (individualDelegators results)
                  = length (List.filter
                              (fun a => keeps o (type (storedFor (toLowerCase a))))
                              addresses)).
  { destruct (filter_fold o (map classified addresses) (initialResults addresses))
      as (H1 & _). rewrite <- Hres in H1. rewrite H1.
    cbn [initialResults individualDelegators app].
    rewrite filter_map_classified, length_map. reflexivity. }
  assert (Hstats : forall k,
            statistics results !! k
            = match statistics (initialResults addresses) !! k with
              | Some (Some n) =>
                  Some (Some (n + countKey k
                                    (flat_map (fun ac => countedKeys o (type (snd ac)))
                                       (map classified addresses)))%nat)
              | Some None => Some None
              | None =>
                  if existsb (String.eqb k)
                       (flat_map (fun ac => countedKeys o (type (snd ac)))
                          (map classified addresses))
                  then Some None else None
              end).
  { intros k. rewrite Hres, fold_recordResult_statistics. apply increments_lookup. }
  destruct (initial_statistics addresses) as (T1 & T2 & T3 & T4 & T5 & T6 & T7).
  destruct (classified_counts o addresses) as (K1 & K2 & K3 & K4 & K5 & K6 & K7).
  cbv zeta in *.
  assert (Hind : statistics results !! "individual"%string
                 = Some (Some (length (List.filter
                                         (fun a => isType (type (storedFor (toLowerCase a)))
                                                     individual)
                                         addresses)
                               + length (individualDelegators results))%nat)).
  { rewrite Hstats, T2, K1, Hkept. reflexivity. }
  split; [rewrite Hstats, T1, K5, Nat.add_0_r; reflexivity|].
  split; [exact Hind|].
  split.
  { intros He Hd. rewrite Hind. do 2 f_equal. rewrite Hkept.
    assert (Hsame : List.filter
                      (fun a => isType (type (storedFor (toLowerCase a))) individual)
                      addresses
                    = List.filter
                        (fun a => keeps o (type (storedFor (toLowerCase a))))
                        addresses).
    { apply List.filter_ext. intros a.
      destruct (storedFor_cases (toLowerCase a)) as [[Ht _]|[[Ht _]|[Ht _]]];
        rewrite Ht; cbn [isType keeps]; rewrite ?He, ?Hd; reflexivity. }
    rewrite Hsame. lia. }
  split; [rewrite Hstats, T3, K6; reflexivity|].
  split; [rewrite Hstats, T7, K7; reflexivity|].
  split; [rewrite Hstats, T4, K2; reflexivity|].
  split; [rewrite Hstats, T5, K3; reflexivity|].
  rewrite Hstats, T6, K4. reflexivity.
Qed.

Lemma filterDelegatorAddresses_statistics_witness :
  cache_ok ∅
  /\ (1 <= maxConcurrency defaultOptions)%nat
  /\ exists results cache',
    filterDelegatorAddresses (∅ : gmap string Classification)
        ["0xCFFAD3200574698b78f32232aa9D63eABD290703"%string;
            "0x8F3CF7AD23CD3CADBD9735AFF958023239C6A063"%string;
            "0x00000000000000000000000000000000000000Aa"%string] defaultOptions = Some
                (results, cache')
    /\ statistics results !! "total"%string = Some (Some (length
        ["0xCFFAD3200574698b78f32232aa9D63eABD290703"%string;
            "0x8F3CF7AD23CD3CADBD9735AFF958023239C6A063"%string;
            "0x00000000000000000000000000000000000000Aa"%string]))
    /\ statistics results !! "individual"%string
       = Some (Some (length (List.filter
                               (fun a => isType (type (storedFor (toLowerCase a)))
                                           individual)
                               ["0xCFFAD3200574698b78f32232aa9D63eABD290703"%string;
            "0x8F3CF7AD23CD3CADBD9735AFF958023239C6A063"%string;
            "0x00000000000000000000000000000000000000Aa"%string])
                     + length (individualDelegators results))%nat)
    /\ (excludeExchanges defaultOptions = true -> excludeDefi defaultOptions = true ->
        statistics results !! "individual"%string
        = Some (Some (2 * length (individualDelegators results))%nat))
    /\ statistics results !! "exchanges"%string = Some (Some 0%nat)
    /\ statistics results !! "exchange"%string
       = (if existsb (fun a => has knownExchangeAddresses (toLowerCase a))
           ["0xCFFAD3200574698b78f32232aa9D63eABD290703"%string;
            "0x8F3CF7AD23CD3CADBD9735AFF958023239C6A063"%string;
            "0x00000000000000000000000000000000000000Aa"%string]
          then Some None else None)
    /\ statistics results !! "defi"%string
       = Some (Some (length (List.filter
                               (fun a => isType (type (storedFor (toLowerCase a)))
                                           defi)
                               ["0xCFFAD3200574698b78f32232aa9D63eABD290703"%string;
            "0x8F3CF7AD23CD3CADBD9735AFF958023239C6A063"%string;
            "0x00000000000000000000000000000000000000Aa"%string])))
    /\ statistics results !! "institutional"%string = Some (Some 0%nat)
    /\ statistics results !! "unknown"%string = Some (Some 0%nat).
Proof.
  assert (H : (1 <= maxConcurrency defaultOptions)%nat) by (cbn; lia).
  split; [exact cache_ok_empty|]. split; [exact H|].
  exact (filterDelegatorAddresses_statistics ∅
           ["0xCFFAD3200574698b78f32232aa9D63eABD290703"%string;
      "0x8F3CF7AD23CD3CADBD9735AFF958023239C6A063"%string;
      "0x00000000000000000000000000000000000000Aa"%string]
           defaultOptions cache_ok_empty H).
Defined.

End Filter_statistics.

Section Filter_example.
Import JS DelegatorFilter.

(** An exchange, a DeFi contract and an unlisted address under the
    default options: the third is the one individual delegator. *)
Example filterDelegatorAddresses_run :
  option_map
    (fun rc => (map fst (individualDelegators (fst rc)),
                map entryAddress (filteredOutExchanges (fst rc)),
                map entryAddress (filteredOutDefi (fst rc))))
    (filterDelegatorAddresses ∅
       ["0xCFFAD3200574698b78f32232aa9D63eABD290703"%string;
      "0x8F3CF7AD23CD3CADBD9735AFF958023239C6A063"%string;
      "0x00000000000000000000000000000000000000Aa"%string]
       defaultOptions)
  = Some (["0x00000000000000000000000000000000000000Aa"%string],
          ["0xCFFAD3200574698b78f32232aa9D63eABD290703"%string],
          ["0x8F3CF7AD23CD3CADBD9735AFF958023239C6A063"%string]).
Proof. vm_compute. reflexivity. Qed.

(** The counters of the same run: one individual delegator counted
    twice, the exchange counted under a counter that holds [NaN]. *)
Example filterDelegatorAddresses_counters :
  option_map
    (fun rc => map (fun key => statistics (fst rc) !! key)
                 ["total"; "individual"; "exchanges"; "exchange"; "defi"]%string)
    (filterDelegatorAddresses ∅
       ["0xCFFAD3200574698b78f32232aa9D63eABD290703"%string;
      "0x8F3CF7AD23CD3CADBD9735AFF958023239C6A063"%string;
      "0x00000000000000000000000000000000000000Aa"%string]
       defaultOptions)
  = Some [Some (Some 3%nat); Some (Some 2%nat); Some (Some 0%nat); Some None;
          Some (Some 1%nat)].
Proof. vm_compute. reflexivity. Qed.

End Filter_example.

(** ** classifyFromBasicData *)

Section Keywords.
Import JS DelegatorFilter.

Lemma prefix_app k : forall s t,
  String.prefix k s = true -> String.prefix k (s +:+ t) = true.
Proof.
  induction k as [|a k IH]; intros s t H; [destruct (s +:+ t)%string; reflexivity|].
  destruct s as [|b s]; [discriminate|].
  cbn [String.prefix String.append] in *.
  destruct (ascii_dec a b); [apply IH; exact H | discriminate].
Qed.

Lemma includes_app_r k s t : includes k s = true -> includes k (s +:+ t) = true.
Proof.
  induction s as [|c s IH]; cbn [includes String.append]; intros H.
  - rewrite orb_false_r in H. destruct k; [|discriminate].
    destruct t; reflexivity.
  - apply orb_true_iff in H as [H|H]; apply orb_true_iff.
    + left. exact (prefix_app k (String c s) t H).
    + right. exact (IH H).
Qed.

Lemma includes_app_l k s p : includes k s = true -> includes k (p +:+ s) = true.
Proof.
  intros H. induction p as [|c p IH]; cbn [String.append]; [exact H|].
  cbn [includes]. rewrite IH. apply orb_true_r.
Qed.

Lemma includes_self k : forall t, includes k (k +:+ t) = true.
Proof.
  intros t. apply includes_app_r.
  destruct k as [|c k]; [reflexivity|].
  cbn [includes]. apply orb_true_iff. left.
  apply String.prefix_correct. rewrite substring_all by lia. reflexivity.
Qed.

Lemma toLowerCase_app s t :
  toLowerCase (s +:+ t) = (toLowerCase s +:+ toLowerCase t)%string.
Proof.
  unfold toLowerCase. induction s as [|c s IH]; cbn [String.append mapString];
    [reflexivity|].
  rewrite IH. reflexivity.
Qed.

Lemma someKeyword_In keywords nameTag mainEntity keyword :
  In keyword keywords -> includes keyword nameTag = true ->
  someKeyword keywords nameTag mainEntity = true.
Proof.
  intros Hin H. unfold someKeyword. apply existsb_exists.
  exists keyword. split; [exact Hin|]. rewrite H. reflexivity.
Qed.

End Keywords.

Section Basic_data.
Import JS DelegatorFilter.

Lemma someKeyword_comm keywords nameTag mainEntity :
  someKeyword keywords nameTag mainEntity = someKeyword keywords mainEntity nameTag.
Proof.
  unfold someKeyword. induction keywords as [|k rest IH]; [reflexivity|].
  cbn [existsb]. rewrite IH, (orb_comm (includes k nameTag)). reflexivity.
Qed.

(** [classifyFromBasicData]: the answer depends on the two fields
    through their lower-cased text only, a missing field counting as an
    empty one; the flag [isExchangeOrDefi] is off for the type
    [individual] and on for every other type, and the type is never
    [unknown]; and an exchange keyword anywhere inside either field, in
    any letter case and whatever stands around it (DeFi or institutional
    keywords included), makes the type [exchange]. *)
Theorem classifyFromBasicData_keywords (data : BasicData) :
  (forall data',
     toLowerCase (orEmpty (name_tag data')) = toLowerCase (orEmpty (name_tag data)) ->
     toLowerCase (orEmpty (main_entity data'))
       = toLowerCase (orEmpty (main_entity data)) ->
     classifyFromBasicData data' = classifyFromBasicData data)
  /\ (basicIsExchangeOrDefi (classifyFromBasicData data) = false
      <-> basicType (classifyFromBasicData data) = individual)
  /\ basicType (classifyFromBasicData data) <> unknown
  /\ (forall keyword word before after,
        In keyword exchangeKeywords ->
        toLowerCase word = keyword ->
        basicType
          (classifyFromBasicData
             {| name_tag := Some (before +:+ word +:+ after);
                main_entity := main_entity data |}) = exchange
        /\ basicType
             (classifyFromBasicData
                {| name_tag := name_tag data;
                   main_entity := Some (before +:+ word +:+ after) |}) = exchange).
Proof.
  split; [|split; [|split]].
  - intros data' H1 H2. unfold classifyFromBasicData. rewrite H1, H2. reflexivity.
  - unfold classifyFromBasicData.
    destruct (someKeyword exchangeKeywords _ _); [split; discriminate|].
    destruct (someKeyword defiKeywords _ _); [split; discriminate|].
    destruct (someKeyword institutionalKeywords _ _); [split; discriminate|].
    split; reflexivity.
  - unfold classifyFromBasicData.
    destruct (someKeyword exchangeKeywords _ _); [discriminate|].
    destruct (someKeyword defiKeywords _ _); [discriminate|].
    destruct (someKeyword institutionalKeywords _ _); discriminate.
  - intros keyword word before after Hin Hw.
    assert (Hfound :
              includes keyword (toLowerCase (before +:+ word +:+ after)) = true).
    { rewrite !toLowerCase_app, Hw. apply includes_app_l, includes_self. }
    split; unfold classifyFromBasicData; cbn [name_tag main_entity orEmpty].
    + rewrite (someKeyword_In exchangeKeywords _ _ keyword Hin Hfound).
      reflexivity.
    + rewrite someKeyword_comm.
      rewrite (someKeyword_In exchangeKeywords _ _ keyword Hin Hfound).
      reflexivity.
Qed.

(** "Coinbase Custody" holds an exchange keyword and an institutional
    one: the exchange keywords are tried first. *)
Example classifyFromBasicData_run :
  map (fun tag => basicType (classifyFromBasicData
                               {| name_tag := Some tag; main_entity := None |}))
    ["Coinbase Custody"; "Aave: Lending Pool"; "Ethereum Foundation"; "vitalik.eth"]%string
  = [exchange; defi; institutional; individual].
Proof. vm_compute. reflexivity. Qed.

End Basic_data.
